(** * financial-app: the aggregation rules, bill routes, LLM fallback and
      token encryption, embedded from the JavaScript sources.

    Conventions of the embedding.
    - Where a handler computes with amounts (the budget analysis, the
      income summary, the bill predictions, net worth) a JavaScript
      [Number] and a REAL column are IEEE 754 doubles, [Double.double],
      with the rounding of every operation, and SQL [SUM] adds in the order
      of the rows.  Where a statement is the formula the code itself
      evaluates, or only says which rows are read and written (the
      frequency table, the bill routes and their analytics), an amount is a
      rational [Q] compared with [==] ([Qeq]), and a division whose divisor
      can be zero gives a [jsnum], which adds IEEE's [Infinity],
      [-Infinity] and [NaN].
    - A SQLite table is the list of its rows, a row is a record; a nullable
      column is an option.  A statement changes the table or is refused by a
      constraint of the schema; a failure of the engine itself (I/O, a locked
      file) is not part of the model, so the [err] branch of a callback is
      reached through constraints only.
    - A callback-style handler is a function from the database (and the
      request) to a response and the database after it.  What a handler
      takes from outside (the clock, [uuidv4()], random bytes) is an
      argument.
    - Code of Node and of third parties ([crypto], the provider SDKs,
      [JSON.parse]) is a class of operations, with the law it is used for. *)

From Stdlib Require Import ZArith QArith Qabs Qround List String Ascii Bool Lia Lqa.
From Stdlib Require Import SpecFloat.
From Stdlib Require DecimalString.
Import ListNotations.

Local Open Scope string_scope.
Local Open Scope Q_scope.
Local Open Scope list_scope.

(* ===================================================================== *)
(** ** Frequency normalisation *)
(* ===================================================================== *)

(** The [switch (frequency)] of every copy compares with [===] against six
    string literals and has a [default] arm.  [switch_case] is one arm. *)
Definition switch_case (scrutinee label : string) (arm rest : Q) : Q :=
  if String.eqb scrutinee label then arm else rest.

Module IncomeSummary.
(** unnamed/part_001, GET /summary, lines 590-600. *)
Definition calculateMonthlyIncome (amount : Q) (frequency : string) : Q :=
  switch_case frequency "weekly" (amount * 52 / 12)
 (switch_case frequency "biweekly" (amount * 26 / 12)
 (switch_case frequency "monthly" amount
 (switch_case frequency "quarterly" (amount / 3)
 (switch_case frequency "annually" (amount / 12)
 (switch_case frequency "variable" amount
  0))))).
End IncomeSummary.

Module Scheduler.
(** server/services/scheduler.js, AIScheduler.calculateMonthlyIncome,
    lines 235-245. *)
Definition calculateMonthlyIncome (amount : Q) (frequency : string) : Q :=
  switch_case frequency "weekly" (amount * 52 / 12)
 (switch_case frequency "biweekly" (amount * 26 / 12)
 (switch_case frequency "monthly" amount
 (switch_case frequency "quarterly" (amount / 3)
 (switch_case frequency "annually" (amount / 12)
 (switch_case frequency "variable" amount
  0))))).
End Scheduler.

Module Insights.
(** server/routes/transactions.js, GET /insights, lines 450-460 (the
    [const] that the callback of line 400 names). *)
Definition calculateMonthlyIncome (amount : Q) (frequency : string) : Q :=
  switch_case frequency "weekly" (amount * 52 / 12)
 (switch_case frequency "biweekly" (amount * 26 / 12)
 (switch_case frequency "monthly" amount
 (switch_case frequency "quarterly" (amount / 3)
 (switch_case frequency "annually" (amount / 12)
 (switch_case frequency "variable" amount
  0))))).
End Insights.

Module Chat.
(** server/routes/transactions.js, POST /chat, lines 527-537. *)
Definition calculateMonthly (amount : Q) (frequency : string) : Q :=
  switch_case frequency "weekly" (amount * 52 / 12)
 (switch_case frequency "biweekly" (amount * 26 / 12)
 (switch_case frequency "monthly" amount
 (switch_case frequency "quarterly" (amount / 3)
 (switch_case frequency "annually" (amount / 12)
 (switch_case frequency "variable" amount
  0))))).
End Chat.

Module WealthGrowth.
(** server/routes/transactions.js, GET /wealth-growth, lines 644-654. *)
Definition calculateMonthlyIncome (amount : Q) (frequency : string) : Q :=
  switch_case frequency "weekly" (amount * 52 / 12)
 (switch_case frequency "biweekly" (amount * 26 / 12)
 (switch_case frequency "monthly" amount
 (switch_case frequency "quarterly" (amount / 3)
 (switch_case frequency "annually" (amount / 12)
 (switch_case frequency "variable" amount
  0))))).
End WealthGrowth.

Module TestApi.
(** test-api.js, lines 61-71. *)
Definition calculateMonthly (amount : Q) (frequency : string) : Q :=
  switch_case frequency "weekly" (amount * 52 / 12)
 (switch_case frequency "biweekly" (amount * 26 / 12)
 (switch_case frequency "monthly" amount
 (switch_case frequency "quarterly" (amount / 3)
 (switch_case frequency "annually" (amount / 12)
 (switch_case frequency "variable" amount
  0))))).
End TestApi.


Definition recognized_frequencies : list string :=
  ["weekly"; "biweekly"; "monthly"; "quarterly"; "annually"; "variable"].





(* ===================================================================== *)
(** ** JavaScript numbers, [||] and [toFixed] *)
(* ===================================================================== *)

(** The result of a division whose divisor can be zero. *)
Inductive jsnum :=
  | Finite (q : Q)
  | PosInfinity
  | NegInfinity
  | NaN.

(** [a / b] on finite numbers: IEEE gives a signed infinity for a non-zero
    numerator over zero and [NaN] for zero over zero. *)
Definition js_div (a b : Q) : jsnum :=
  if Qeq_bool b 0 then
    match a ?= 0 with
    | Gt => PosInfinity
    | Lt => NegInfinity
    | Eq => NaN
    end
  else Finite (a / b).

(** [x * k] for a finite [k]. *)
Definition js_mul (x : jsnum) (k : Q) : jsnum :=
  match x with
  | Finite q => Finite (q * k)
  | NaN => NaN
  | PosInfinity =>
      match k ?= 0 with Gt => PosInfinity | Lt => NegInfinity | Eq => NaN end
  | NegInfinity =>
      match k ?= 0 with Gt => NegInfinity | Lt => PosInfinity | Eq => NaN end
  end.

Definition string_of_Z (z : Z) : string :=
  DecimalString.NilZero.string_of_uint (N.to_uint (Z.to_N z)).

(** [q.toFixed(1)]: the sign, then the magnitude rounded to tenths with ties
    to the larger magnitude (ECMA-262, Number.prototype.toFixed). *)
Definition toFixed1_finite (q : Q) : string :=
  let n := Qfloor (Qabs q * 10 + (1 # 2)) in
  let sign := match q ?= 0 with Lt => "-" | _ => "" end in
  (sign ++ string_of_Z (n / 10)%Z ++ "." ++ string_of_Z (n mod 10)%Z)%string.

Definition toFixed1 (x : jsnum) : string :=
  match x with
  | Finite q => toFixed1_finite q
  | PosInfinity => "Infinity"
  | NegInfinity => "-Infinity"
  | NaN => "NaN"
  end.

(** A JSON field that the handlers fill with either a number or the string
    that [toFixed] returns. *)
Inductive json_scalar :=
  | JNum (q : Q)
  | JStr (s : string).

(** [v || 0] on a column that SQLite may return as NULL (or, for a missing
    row, on [row?.col]): NULL, [undefined] and 0 all give 0. *)
Definition or_zero (v : option Q) : Q :=
  match v with
  | Some q => q
  | None => 0
  end.

Definition Qgtb (a b : Q) : bool := negb (Qle_bool a b).
Definition Qltb (a b : Q) : bool := negb (Qle_bool b a).

(* ===================================================================== *)
(** ** IEEE 754 doubles *)
(* ===================================================================== *)

(** A JavaScript [Number] as it is: a binary64 value of the Standard
    Library's specification of IEEE 754 arithmetic, rounding to nearest
    with ties to even. *)
Module Double.

Definition prec : Z := 53.
Definition emax : Z := 1024.

Definition double := spec_float.

Definition add : double -> double -> double := SFadd prec emax.
Definition sub : double -> double -> double := SFsub prec emax.
Definition mul : double -> double -> double := SFmul prec emax.
Definition div : double -> double -> double := SFdiv prec emax.

(** [Math.abs] and SQL [ABS]. *)
Definition abs : double -> double := SFabs.

(** [a < b] and [a > b]; both are false when an operand is NaN. *)
Definition ltb (a b : double) : bool := SFltb a b.
Definition gtb (a b : double) : bool := SFltb b a.

Definition zero : double := S754_zero false.

(** An integer literal (below 2^53 in magnitude, so exact). *)
Definition of_Z (z : Z) : double := binary_normalize prec emax z 0 false.

(** A decimal literal [n / scale], [scale] a power of ten: the double
    nearest to it, which is how the parser reads [0.15] and [1.1]. *)
Definition decimal (n scale : Z) : double := div (of_Z n) (of_Z scale).

(** [!x] on a number: 0, -0 and NaN are falsy. *)
Definition falsy (x : double) : bool :=
  match x with
  | S754_zero _ | S754_nan => true
  | _ => false
  end.

(** [x || 0] *)
Definition or_zero (x : double) : double := if falsy x then zero else x.

(** [v || 0] on a column that may be NULL, and [row?.col || 0]. *)
Definition column_or_zero (v : option double) : double :=
  match v with
  | Some x => or_zero x
  | None => zero
  end.

(** [l.reduce((sum, x) => sum + x, 0)] *)
Definition sum (l : list double) : double := fold_left add l zero.

(** The real number a finite double stands for. *)
Definition value (x : double) : option Q :=
  match x with
  | S754_zero _ => Some 0
  | S754_finite s m e =>
      Some (inject_Z (if s then Zneg m else Zpos m)
            * (if (0 <=? e)%Z then inject_Z (2 ^ e)
               else / inject_Z (2 ^ (- e))))
  | S754_infinity _ | S754_nan => None
  end.


End Double.

(* ===================================================================== *)
(** ** Budget analysis: server/routes/transactions.js, GET /analysis *)
(* ===================================================================== *)

Module Analysis.
Import Double.

(** One row of the per-category expense query ([category], [SUM(amount)],
    [COUNT( * )], [AVG(amount)]); the two aggregates of the REAL column
    are doubles, the count is an integer. *)
Record expense_row := {
  category : string;
  total : double;
  transaction_count : Z;
  avg_transaction : double
}.

(** The template literal of each message with the values it interpolates
    (the percentage through [toFixed(1)], the two amounts through
    [toFixed(2)]). *)
Inductive message :=
  | HighSpendingMessage (category : string) (percentage : double)
  | SubscriptionMessage (count : Z) (category : string)
  | SavingsGoalMessage (recommended actual : double).

Record suggestion := {
  s_type : string;
  s_category : string;
  s_message : message;
  potential_savings : double
}.

(** [totalIncome > 0 ? (...).toFixed(1) : 0]: the text of a number to one
    decimal, or the number 0. *)
Inductive rate :=
  | RateFixed1 (x : double)
  | RateZero.

Record analysis_response := {
  total_income : double;
  total_expenses : double;
  savings_rate : rate;
  expenses_out : list expense_row;
  suggestions : list suggestion;
  total_potential_savings : double
}.

(** [expenses.reduce((sum, e) => sum + e.total, 0)] *)
Definition sum_totals (expenses : list expense_row) : double :=
  fold_left (fun sum e => add sum (total e)) expenses zero.

(** Rule 1: the body of [expenses.forEach] under [if (totalIncome > 0)]. *)
Definition rule1_step (totalIncome : double) (exp : expense_row)
  : list suggestion :=
  let percentage := mul (div (total exp) totalIncome) (of_Z 100) in
  if gtb percentage (of_Z 30) then
    [ {| s_type := "high_spending";
         s_category := category exp;
         s_message := HighSpendingMessage (category exp) percentage;
         potential_savings := mul (total exp) (decimal 15 100) |} ]
  else [].

Definition rule1 (totalIncome : double) (expenses : list expense_row)
  : list suggestion :=
  if gtb totalIncome zero then flat_map (rule1_step totalIncome) expenses
  else [].

(** Rule 2: many small transactions. *)
Definition rule2_step (exp : expense_row) : list suggestion :=
  if (10 <? transaction_count exp)%Z && ltb (avg_transaction exp) (of_Z 50)
  then
    [ {| s_type := "subscription_check";
         s_category := category exp;
         s_message := SubscriptionMessage (transaction_count exp)
                        (category exp);
         potential_savings := mul (total exp) (decimal 20 100) |} ]
  else [].

Definition rule2 (expenses : list expense_row) : list suggestion :=
  flat_map rule2_step expenses.

(** Rule 3: savings rate against the 20% target. *)
Definition rule3 (totalIncome totalExpenses : double) : list suggestion :=
  let recommended_savings := mul totalIncome (decimal 20 100) in
  let actual_savings := sub totalIncome totalExpenses in
  if ltb actual_savings recommended_savings then
    [ {| s_type := "savings_goal";
         s_category := "general";
         s_message := SavingsGoalMessage recommended_savings actual_savings;
         potential_savings := sub recommended_savings actual_savings |} ]
  else [].

(** The handler after its two queries: [expenses] are the rows of the
    first, [income_total] the [total_income] column of the second (NULL
    when the month has no income transaction). *)
Definition analysis (expenses : list expense_row)
    (income_total : option double) : analysis_response :=
  let totalIncome := column_or_zero income_total in
  let totalExpenses := sum_totals expenses in
  let suggestions :=
    rule1 totalIncome expenses ++ rule2 expenses
      ++ rule3 totalIncome totalExpenses in
  let actual_savings := sub totalIncome totalExpenses in
  {| total_income := totalIncome;
     total_expenses := totalExpenses;
     savings_rate :=
       if gtb totalIncome zero
       then RateFixed1 (mul (div actual_savings totalIncome) (of_Z 100))
       else RateZero;
     expenses_out := expenses;
     suggestions := suggestions;
     total_potential_savings :=
       fold_left (fun sum s => add sum (or_zero (potential_savings s)))
         suggestions zero |}.

End Analysis.

(* ===================================================================== *)
(** ** Bills: unnamed/part_000 (the router mounted for /bills) *)
(* ===================================================================== *)

Module Bills.

(** Rows of [bills] and [bill_payments] (server/models/database.js).
    Nullable columns are options; [is_active] is the INTEGER column. *)
Record bill := {
  b_id : string;
  b_user_id : string;
  bill_name : string;
  bill_type : string;
  target_amount : Q;
  due_day : option Z;
  is_active : option Z;
  notes : option string;
  b_created_at : string
}.

Record bill_payment := {
  p_id : string;
  p_bill_id : string;
  p_user_id : string;
  amount_paid : Q;
  payment_date : string;
  month_year : string;
  p_notes : option string;
  p_created_at : string
}.

Record db := {
  bills : list bill;
  bill_payments : list bill_payment
}.

(** A number of the body as [express.json()] hands it over: a JSON number,
    or the text of a number, which is what the forms of the client send
    ([target_amount: e.target.value], unnamed/part_004) and what the REAL
    column takes up as that number.  Such a text is a non-empty string, so
    it is truthy whatever the number.  Text that is not numeric is kept as
    TEXT by SQLite and is outside this model. *)
Inductive body_number :=
  | JsonNumber (q : Q)
  | NumericText (q : Q).

(** The number that reaches the column. *)
Definition number_of (n : body_number) : Q :=
  match n with
  | JsonNumber q | NumericText q => q
  end.

(** [!n] *)
Definition number_falsy (n : body_number) : bool :=
  match n with
  | JsonNumber q => Qeq_bool q 0
  | NumericText _ => false
  end.

(** [req.user.userId], [req.params], [req.query] and [req.body] of a
    request that passed [authenticateToken]. *)
Record bill_body := {
  bb_bill_name : option string;
  bb_bill_type : option string;
  bb_target_amount : option body_number;
  bb_due_day : option Z;
  bb_is_active : bool;          (* truthiness of the submitted value *)
  bb_notes : option string
}.

Record payment_body := {
  pb_amount_paid : option body_number;
  pb_payment_date : option string;
  pb_notes : option string
}.

Inductive payload :=
  | Error (msg : string)
  | Message (msg : string)
  | BillRows (rows : list bill)
  | BillWithHistory (b : bill) (payment_history : list bill_payment)
  | PaymentRows (rows : list bill_payment)
  | BillCreated (msg id name type : string) (target : body_number)
      (due : option Z)
  | PaymentCreated (msg id bill_id : string) (amount : body_number)
      (date month_year : string).

Record response := { status : Z; body : payload }.

Definition respond (code : Z) (p : payload) : response :=
  {| status := code; body := p |}.

(** ORDER BY on a TEXT column: a stable insertion sort on the byte order
    of the key.  [desc] flips the comparison. *)
Fixpoint insert_by {A} (key : A -> string) (desc : bool) (x : A)
    (l : list A) : list A :=
  match l with
  | [] => [x]
  | y :: l' =>
      let before :=
        if desc then String.ltb (key y) (key x)
        else String.ltb (key x) (key y) in
      if before then x :: l else y :: insert_by key desc x l'
  end.

Definition order_by {A} (key : A -> string) (desc : bool) (l : list A)
  : list A :=
  fold_right (fun x acc => insert_by key desc x acc) [] l.

(** LIMIT n: a negative bound means no bound in SQLite. *)
Definition limit {A} (n : Z) (l : list A) : list A :=
  if (n <? 0)%Z then l else firstn (Z.to_nat n) l.

Definition owned_by (userId : string) (b : bill) : bool :=
  String.eqb (b_user_id b) userId.

Definition bill_is (id userId : string) (b : bill) : bool :=
  String.eqb (b_id b) id && String.eqb (b_user_id b) userId.

(** router.get('/'), lines 14-34.  [is_active] is the query parameter:
    absent, or a string compared with ['true']. *)
Definition get_bills (userId : string) (q_is_active : option string)
    (d : db) : response :=
  let rows := filter (owned_by userId) (bills d) in
  let rows :=
    match q_is_active with
    | None => rows
    | Some v =>
        let want := if String.eqb v "true" then 1%Z else 0%Z in
        filter (fun b => match is_active b with
                         | Some a => (a =? want)%Z
                         | None => false
                         end) rows
    end in
  respond 200 (BillRows (order_by bill_name false rows)).

(** router.get('/:id'), lines 37-65. *)
Definition get_bill (userId id : string) (d : db) : response :=
  match find (bill_is id userId) (bills d) with
  | None => respond 404 (Error "Bill not found")
  | Some b =>
      let payments :=
        limit 12
          (order_by payment_date true
             (filter (fun p => String.eqb (p_bill_id p) id)
                (bill_payments d))) in
      respond 200 (BillWithHistory b payments)
  end.

Definition bill_types : list string :=
  ["electric"; "water"; "gas"; "internet"; "phone"; "hoa"; "insurance";
   "subscription"; "other"].

Definition in_list (s : string) (l : list string) : bool :=
  existsb (String.eqb s) l.

(** router.post('/'), lines 68-93.  [id] is the [uuidv4()] of the call,
    [now] the CURRENT_TIMESTAMP default.  [!target_amount] also rejects
    the number 0, but not the text of it; the INSERT fails on the CHECK of [bill_type] and on a primary key that
    is already there. *)
Definition post_bill (userId : string) (b : bill_body) (id now : string)
    (d : db) : response * db :=
  match bb_bill_name b, bb_bill_type b, bb_target_amount b with
  | Some name, Some type, Some target =>
      if String.eqb name "" || String.eqb type "" || number_falsy target
      then
        (respond 400
           (Error "Bill name, type, and target amount are required"), d)
      else if negb (in_list type bill_types)
              || existsb (fun r => String.eqb (b_id r) id) (bills d) then
        (respond 500 (Error "Error creating bill"), d)
      else
        let row :=
          {| b_id := id; b_user_id := userId; bill_name := name;
             bill_type := type; target_amount := number_of target;
             due_day := bb_due_day b;
             is_active := Some (if bb_is_active b then 1 else 0)%Z;
             notes := bb_notes b; b_created_at := now |} in
        (respond 201
           (BillCreated "Bill created successfully" id name type target
              (bb_due_day b)),
         {| bills := bills d ++ [row];
            bill_payments := bill_payments d |})
  | _, _, _ =>
      (respond 400
         (Error "Bill name, type, and target amount are required"), d)
  end.

(** The row an UPDATE writes, or [None] when a NOT NULL or CHECK
    constraint of [bills] rejects it. *)
Definition updated_bill (b : bill_body) (old : bill) : option bill :=
  match bb_bill_name b, bb_bill_type b, bb_target_amount b with
  | Some name, Some type, Some target =>
      if in_list type bill_types then
        Some {| b_id := b_id old; b_user_id := b_user_id old;
                bill_name := name; bill_type := type;
                target_amount := number_of target; due_day := bb_due_day b;
                is_active := Some (if bb_is_active b then 1 else 0)%Z;
                notes := bb_notes b; b_created_at := b_created_at old |}
      else None
  | _, _, _ => None
  end.

(** UPDATE bills SET ... WHERE id = ? AND user_id = ?: the table after
    it and [this.changes], or [None] on a constraint error. *)
Fixpoint update_bills (id userId : string) (b : bill_body)
    (rows : list bill) : option (list bill * nat) :=
  match rows with
  | [] => Some ([], 0%nat)
  | r :: rest =>
      match update_bills id userId b rest with
      | None => None
      | Some (rest', n) =>
          if bill_is id userId r then
            match updated_bill b r with
            | Some r' => Some (r' :: rest', S n)
            | None => None
            end
          else Some (r :: rest', n)
      end
  end.

(** router.put('/:id'), lines 96-114. *)
Definition put_bill (userId id : string) (b : bill_body) (d : db)
  : response * db :=
  match update_bills id userId b (bills d) with
  | None => (respond 500 (Error "Error updating bill"), d)
  | Some (rows, changes) =>
      if Nat.eqb changes 0 then (respond 404 (Error "Bill not found"), d)
      else (respond 200 (Message "Bill updated successfully"),
            {| bills := rows; bill_payments := bill_payments d |})
  end.

(** router.delete('/:id'), lines 117-137: first
    [DELETE FROM bill_payments WHERE bill_id = ?], then
    [DELETE FROM bills WHERE id = ? AND user_id = ?]. *)
Definition delete_bill (userId id : string) (d : db) : response * db :=
  let payments' :=
    filter (fun p => negb (String.eqb (p_bill_id p) id))
      (bill_payments d) in
  let bills' := filter (fun b => negb (bill_is id userId b)) (bills d) in
  let changes := (List.length (bills d) - List.length bills')%nat in
  let d' := {| bills := bills'; bill_payments := payments' |} in
  if Nat.eqb changes 0 then (respond 404 (Error "Bill not found"), d')
  else (respond 200 (Message "Bill deleted successfully"), d').

(** [payment_date.substring(0, 7)] *)
Definition month_key (payment_date : string) : string :=
  String.substring 0 7 payment_date.

(** router.post('/:id/payments'), lines 142-168. *)
Definition post_payment (userId bill_id : string) (b : payment_body)
    (payment_id now : string) (d : db) : response * db :=
  match pb_amount_paid b, pb_payment_date b with
  | Some amount, Some date =>
      if number_falsy amount || String.eqb date "" then
        (respond 400 (Error "Amount and payment date are required"), d)
      else if existsb (fun r => String.eqb (p_id r) payment_id)
                (bill_payments d) then
        (respond 500 (Error "Error recording payment"), d)
      else
        let row :=
          {| p_id := payment_id; p_bill_id := bill_id;
             p_user_id := userId; amount_paid := number_of amount;
             payment_date := date; month_year := month_key date;
             p_notes := pb_notes b; p_created_at := now |} in
        (respond 201
           (PaymentCreated "Payment recorded successfully" payment_id
              bill_id amount date (month_key date)),
         {| bills := bills d; bill_payments := bill_payments d ++ [row] |})
  | _, _ =>
      (respond 400 (Error "Amount and payment date are required"), d)
  end.

(** router.get('/:id/payments'), lines 171-189.  The handler reads
    [req.params] and [req.query] only; [userId] is the authenticated
    caller, which it does not use.  [q_limit] is [parseInt(limit)] of a
    present, non-empty parameter. *)
Definition get_bill_payments (userId bill_id : string)
    (q_limit : option Z) (d : db) : response :=
  let rows :=
    order_by payment_date true
      (filter (fun p => String.eqb (p_bill_id p) bill_id)
         (bill_payments d)) in
  respond 200
    (PaymentRows (match q_limit with
                  | Some n => limit n rows
                  | None => rows
                  end)).

(** router.delete('/payments/:payment_id'), lines 192-209. *)
Definition delete_payment (userId payment_id : string) (d : db)
  : response * db :=
  let keep p :=
    negb (String.eqb (p_id p) payment_id
          && String.eqb (p_user_id p) userId) in
  let payments' := filter keep (bill_payments d) in
  let changes := (List.length (bill_payments d) - List.length payments')%nat in
  if Nat.eqb changes 0 then (respond 404 (Error "Payment not found"), d)
  else (respond 200 (Message "Payment deleted successfully"),
        {| bills := bills d; bill_payments := payments' |}).

End Bills.

(* ===================================================================== *)
(** ** Bill analytics: unnamed/part_000, /analytics/summary and /trends *)
(* ===================================================================== *)

(** Amounts are rationals in this part: what is stated of these routes is
    which bills and payments they read, and what the division by a target
    of 0 reports, where the guarded and the unguarded percentages part. *)
Module BillAnalytics.
Import Bills.

(** A row of the grouped payment queries. *)
Record payment_agg := {
  pa_bill_id : string;
  pa_month_year : string;
  total_paid : Q;
  avg_paid : Q
}.

Record month_total := {
  mt_month_year : string;
  mt_total_paid : Q
}.

Definition sum_paid (rows : list bill_payment) : Q :=
  fold_left (fun sum p => sum + amount_paid p) rows 0.

Fixpoint dedup_pairs (keys : list (string * string))
  : list (string * string) :=
  match keys with
  | [] => []
  | k :: rest =>
      let rest' := dedup_pairs rest in
      if existsb (fun k' => String.eqb (fst k) (fst k')
                            && String.eqb (snd k) (snd k')) rest'
      then rest' else k :: rest'
  end.

Fixpoint dedup (keys : list string) : list string :=
  match keys with
  | [] => []
  | k :: rest =>
      let rest' := dedup rest in
      if existsb (String.eqb k) rest' then rest' else k :: rest'
  end.

(** [month_year >= ?] on TEXT. *)
Definition since_ok (since : string) (p : bill_payment) : bool :=
  String.leb since (month_year p).

(** SELECT bill_id, month_year, SUM(amount_paid), AVG(amount_paid)
    FROM bill_payments WHERE bill_id IN (...) AND month_year >= ?
    GROUP BY bill_id, month_year ORDER BY month_year ASC *)
Definition payments_by_bill_and_month (billIds : list string)
    (since : string) (d : db) : list payment_agg :=
  let rows :=
    filter (fun p => in_list (p_bill_id p) billIds && since_ok since p)
      (bill_payments d) in
  let groups :=
    dedup_pairs (map (fun p => (p_bill_id p, month_year p)) rows) in
  order_by pa_month_year false
    (map (fun k =>
            let members :=
              filter (fun p => String.eqb (p_bill_id p) (fst k)
                               && String.eqb (month_year p) (snd k)) rows in
            {| pa_bill_id := fst k;
               pa_month_year := snd k;
               total_paid := sum_paid members;
               avg_paid :=
                 sum_paid members
                 / inject_Z (Z.of_nat (List.length members)) |})
       groups).

(** SELECT month_year, SUM(amount_paid) FROM bill_payments
    WHERE user_id = ? AND month_year >= ?
    GROUP BY month_year ORDER BY month_year ASC *)
Definition payments_by_month (userId since : string) (d : db)
  : list month_total :=
  let rows :=
    filter (fun p => String.eqb (p_user_id p) userId && since_ok since p)
      (bill_payments d) in
  order_by mt_month_year false
    (map (fun m =>
            {| mt_month_year := m;
               mt_total_paid :=
                 sum_paid
                   (filter (fun p => String.eqb (month_year p) m) rows) |})
       (dedup (map month_year rows))).

(** SELECT ... FROM bills WHERE user_id = ? AND is_active = 1 *)
Definition active_bills (userId : string) (d : db) : list bill :=
  filter (fun b => owned_by userId b
                   && match is_active b with
                      | Some a => (a =? 1)%Z
                      | None => false
                      end) (bills d).

Record trend_entry := {
  t_month : string;
  t_amount : Q;
  t_target : Q;
  t_variance : Q;
  t_variance_percent : json_scalar
}.

Record bill_with_trend := {
  bt_bill : bill;
  average_paid : Q;
  bt_variance : Q;
  bt_variance_percent : json_scalar;
  trend_data : list trend_entry;
  payments_count : nat
}.

Record summary := {
  total_target_monthly : Q;
  total_average_paid : option Q;
  overall_variance : Q;
  overall_variance_percent : option json_scalar;
  bills_with_trends : list bill_with_trend
}.

(** [((actual - target) / target * 100).toFixed(1)], no test on target. *)
Definition unguarded_percent (actual target : Q) : json_scalar :=
  JStr (toFixed1 (js_mul (js_div (actual - target) target) 100)).

(** [target > 0 ? ((actual - target) / target * 100).toFixed(1) : 0] *)
Definition guarded_percent (actual target : Q) : json_scalar :=
  if Qgtb target 0
  then JStr (toFixed1_finite ((actual - target) / target * 100))
  else JNum 0.

Definition sum_targets (bs : list bill) : Q :=
  fold_left (fun sum b => sum + target_amount b) bs 0.

(** The [bills.map(bill => ...)] of lines 256-280. *)
Definition bill_trend (payments : list payment_agg) (b : bill)
  : bill_with_trend :=
  let billPayments :=
    filter (fun p => String.eqb (pa_bill_id p) (b_id b)) payments in
  let trend :=
    map (fun p =>
           {| t_month := pa_month_year p;
              t_amount := total_paid p;
              t_target := target_amount b;
              t_variance := total_paid p - target_amount b;
              t_variance_percent :=
                unguarded_percent (total_paid p) (target_amount b) |})
      billPayments in
  let avgPaid :=
    match billPayments with
    | [] => 0
    | _ :: _ =>
        fold_left (fun sum p => sum + total_paid p) billPayments 0
        / inject_Z (Z.of_nat (List.length billPayments))
    end in
  {| bt_bill := b;
     average_paid := avgPaid;
     bt_variance := avgPaid - target_amount b;
     bt_variance_percent := guarded_percent avgPaid (target_amount b);
     trend_data := trend;
     payments_count := List.length billPayments |}.

(** router.get('/analytics/summary'), lines 214-299.  [since] is the
    YYYY-MM string of the date [months] months before now. *)
Definition analytics_summary (userId since : string) (d : db) : summary :=
  match active_bills userId d with
  | [] =>
      {| total_target_monthly := 0;
         total_average_paid := None;
         overall_variance := 0;
         overall_variance_percent := None;
         bills_with_trends := [] |}
  | bs =>
      let total_target := sum_targets bs in
      let payments :=
        payments_by_bill_and_month (map b_id bs) since d in
      let billsWithTrends := map (bill_trend payments) bs in
      let totalAvgPaid :=
        fold_left (fun sum b => sum + average_paid b) billsWithTrends 0 in
      {| total_target_monthly := total_target;
         total_average_paid := Some totalAvgPaid;
         overall_variance := totalAvgPaid - total_target;
         overall_variance_percent :=
           Some (guarded_percent totalAvgPaid total_target);
         bills_with_trends := billsWithTrends |}
  end.

Record monthly_entry := {
  m_month : string;
  m_actual : Q;
  m_target : Q;
  m_variance : Q;
  m_variance_percent : json_scalar
}.

(** router.get('/analytics/trends'), lines 302-351: [monthly_data]. *)
Definition analytics_trends (userId since : string) (d : db)
  : list monthly_entry :=
  match active_bills userId d with
  | [] => []
  | bs =>
      let totalTarget := sum_targets bs in
      map (fun m =>
             {| m_month := mt_month_year m;
                m_actual := mt_total_paid m;
                m_target := totalTarget;
                m_variance := mt_total_paid m - totalTarget;
                m_variance_percent :=
                  unguarded_percent (mt_total_paid m) totalTarget |})
        (payments_by_month userId since d)
  end.

End BillAnalytics.

(* ===================================================================== *)
(** ** Net worth: server/routes/wealth.js and the scheduler *)
(* ===================================================================== *)

Module Wealth.

(** The columns of [accounts], [retirement_accounts], [assets] and
    [net_worth_snapshots] that the routes below read or write; the money
    columns are REAL NOT NULL (database.js, lines 89-168). *)
Record account := {
  a_id : string;
  a_user_id : string;
  a_type : string;
  a_balance : Double.double
}.

Record retirement_account := {
  r_id : string;
  r_user_id : string;
  r_balance : Double.double
}.

Record asset := {
  as_id : string;
  as_user_id : string;
  as_value : Double.double
}.

Record snapshot := {
  sn_id : string;
  sn_user_id : string;
  sn_total_assets : Double.double;
  sn_total_liabilities : Double.double;
  sn_net_worth : Double.double;
  sn_date : string
}.

Record db := {
  accounts : list account;
  retirement_accounts : list retirement_account;
  assets : list asset;
  net_worth_snapshots : list snapshot
}.

(** SQL [SUM] over REAL values: NULL over no rows, else the running total
    of the values in the order of the rows. *)
Definition sql_sum (values : list Double.double) : option Double.double :=
  match values with
  | [] => None
  | _ :: _ => Some (Double.sum values)
  end.


Definition type_in (types : list string) (a : account) : bool :=
  existsb (String.eqb (a_type a)) types.

Definition asset_types : list string := ["checking"; "savings"].
Definition liability_types : list string :=
  ["credit_card"; "loan"; "mortgage"; "other_debt"].

Definition user_accounts (userId : string) (types : list string) (d : db)
  : list Double.double :=
  map a_balance
    (filter (fun a => String.eqb (a_user_id a) userId && type_in types a)
       (accounts d)).

Definition user_retirement (userId : string) (d : db)
  : list Double.double :=
  map r_balance
    (filter (fun r => String.eqb (r_user_id r) userId)
       (retirement_accounts d)).

Definition user_assets (userId : string) (d : db) : list Double.double :=
  map as_value
    (filter (fun a => String.eqb (as_user_id a) userId) (assets d)).

(** [assetsQuery]: SUM over the UNION ALL of the three selections. *)
Definition assetsQuery (userId : string) (d : db) : option Double.double :=
  sql_sum (user_accounts userId asset_types d
           ++ user_retirement userId d
           ++ user_assets userId d).

(** [liabilitiesQuery]: SUM(ABS(balance)). *)
Definition liabilitiesQuery (userId : string) (d : db)
  : option Double.double :=
  sql_sum (map Double.abs (user_accounts userId liability_types d)).

Record networth_response := {
  total_assets : Double.double;
  total_liabilities : Double.double;
  net_worth : Double.double
}.

(** router.get('/networth'), lines 14-55. *)
Definition get_networth (userId : string) (d : db) : networth_response :=
  let totalAssets := Double.column_or_zero (assetsQuery userId d) in
  let totalLiabilities := Double.column_or_zero (liabilitiesQuery userId d) in
  {| total_assets := totalAssets;
     total_liabilities := totalLiabilities;
     net_worth := Double.sub totalAssets totalLiabilities |}.

(** router.post('/networth/snapshot'), lines 58-76: the only writer of
    [net_worth_snapshots]; the figures come from the request body. *)
Definition post_snapshot (userId id : string)
    (assets_total liabilities : Double.double) (date : string) (d : db)
  : db :=
  {| accounts := accounts d;
     retirement_accounts := retirement_accounts d;
     assets := assets d;
     net_worth_snapshots :=
       net_worth_snapshots d ++
       [ {| sn_id := id; sn_user_id := userId;
            sn_total_assets := assets_total;
            sn_total_liabilities := liabilities;
            sn_net_worth := Double.sub assets_total liabilities;
            sn_date := date |} ] |}.


End Wealth.









(* ===================================================================== *)
(** ** JavaScript strings, values and exceptions *)
(* ===================================================================== *)

(** A string that JavaScript code takes apart (model output, tokens,
    ciphertext) is the list of its UTF-16 code units.  Strings that only
    travel between the request, SQLite and the response stay [string]. *)
Definition jsstring := list N.

(** A source literal (ASCII) as code units. *)
Definition js (literal : string) : jsstring :=
  map N_of_ascii (list_ascii_of_string literal).

(** The primitive values a caller can pass where a string is expected. *)
Inductive jsvalue :=
  | VUndefined
  | VNull
  | VBool (b : bool)
  | VNumber (x : jsnum)
  | VString (s : jsstring).

(** [!v] is [negb (truthy v)]. *)
Definition truthy (v : jsvalue) : bool :=
  match v with
  | VUndefined | VNull => false
  | VBool b => b
  | VNumber (Finite q) => negb (Qeq_bool q 0)
  | VNumber NaN => false
  | VNumber _ => true
  | VString s => match s with [] => false | _ :: _ => true end
  end.

(** A call either returns or throws an [Error] with a message. *)
Inductive result (A : Type) :=
  | Return (value : A)
  | Throw (message : jsstring).
Arguments Return {A} value.
Arguments Throw {A} message.

(** WhiteSpace and LineTerminator code units: what [trim] strips and what
    [\s] matches. *)
Definition is_space (c : N) : bool :=
  ((9 <=? c) && (c <=? 13) || (c =? 32) || (c =? 160) || (c =? 5760)
   || (8192 <=? c) && (c <=? 8202) || (c =? 8232) || (c =? 8233)
   || (c =? 8239) || (c =? 8287) || (c =? 12288) || (c =? 65279))%N.

Fixpoint trimStart (s : jsstring) : jsstring :=
  match s with
  | [] => []
  | c :: rest => if is_space c then trimStart rest else s
  end.

Definition trimEnd (s : jsstring) : jsstring := rev (trimStart (rev s)).

Definition trim (s : jsstring) : jsstring := trimEnd (trimStart s).

(** [s.split(sep)] for a one-unit separator: never the empty list. *)
Fixpoint split (sep : N) (s : jsstring) : list jsstring :=
  match s with
  | [] => [[]]
  | c :: rest =>
      if (c =? sep)%N then [] :: split sep rest
      else match split sep rest with
           | part :: parts => (c :: part) :: parts
           | [] => [[c]]
           end
  end.

Definition colon : N := 58.
Definition newline : N := 10.

(* ===================================================================== *)
(** ** Buffers: hex and UTF-8 *)
(* ===================================================================== *)

Definition byte_of_N (n : N) : Byte.byte :=
  match Byte.of_N n with
  | Some b => b
  | None => Byte.x00
  end.

(** Lower-case hex digit of a nibble. *)
Definition hex_digit (nibble : N) : N :=
  (if nibble <? 10 then 48 + nibble else 87 + nibble)%N.

(** [buf.toString('hex')] *)
Fixpoint hex_encode (bytes : list Byte.byte) : jsstring :=
  match bytes with
  | [] => []
  | b :: rest =>
      let n := Byte.to_N b in
      hex_digit (n / 16) :: hex_digit (n mod 16) :: hex_encode rest
  end.

Definition hex_value (c : N) : option N :=
  (if (48 <=? c) && (c <=? 57) then Some (c - 48)
   else if (97 <=? c) && (c <=? 102) then Some (c - 87)
   else if (65 <=? c) && (c <=? 70) then Some (c - 55)
   else None)%N.

(** [Buffer.from(s, 'hex')]: pairs of digits, cut at the first pair that
    is not hex (and a trailing single digit is dropped). *)
Fixpoint hex_decode (s : jsstring) : list Byte.byte :=
  match s with
  | hi :: lo :: rest =>
      match hex_value hi, hex_value lo with
      | Some h, Some l => byte_of_N (16 * h + l) :: hex_decode rest
      | _, _ => []
      end
  | _ => []
  end.

Definition is_high_surrogate (c : N) : bool :=
  ((55296 <=? c) && (c <=? 56319))%N.
Definition is_low_surrogate (c : N) : bool :=
  ((56320 <=? c) && (c <=? 57343))%N.

(** UTF-8 bytes of one code point. *)
Definition utf8_of_code_point (cp : N) : list Byte.byte :=
  (if cp <? 128 then [byte_of_N cp]
   else if cp <? 2048 then
     [byte_of_N (192 + cp / 64); byte_of_N (128 + cp mod 64)]
   else if cp <? 65536 then
     [byte_of_N (224 + cp / 4096); byte_of_N (128 + (cp / 64) mod 64);
      byte_of_N (128 + cp mod 64)]
   else
     [byte_of_N (240 + cp / 262144); byte_of_N (128 + (cp / 4096) mod 64);
      byte_of_N (128 + (cp / 64) mod 64); byte_of_N (128 + cp mod 64)])%N.

(** U+FFFD REPLACEMENT CHARACTER, EF BF BD. *)
Definition replacement_character : N := 65533.
Definition replacement_bytes : list Byte.byte :=
  [Byte.xef; Byte.xbf; Byte.xbd].

(** [Buffer.from(s, 'utf8')], also the input side of
    [cipher.update(s, 'utf8', ...)]: a surrogate pair is one code point, a
    surrogate without its partner is written as U+FFFD. *)
Fixpoint utf8_encode (s : jsstring) : list Byte.byte :=
  match s with
  | [] => []
  | c :: rest =>
      if is_high_surrogate c then
        match rest with
        | d :: rest' =>
            if is_low_surrogate d then
              utf8_of_code_point
                (65536 + (c - 55296) * 1024 + (d - 56320))%N
                ++ utf8_encode rest'
            else replacement_bytes ++ utf8_encode rest
        | [] => replacement_bytes
        end
      else if is_low_surrogate c then replacement_bytes ++ utf8_encode rest
      else utf8_of_code_point c ++ utf8_encode rest
  end.

(** Code units of a decoded code point. *)
Definition units_of_code_point (cp : N) : jsstring :=
  (if cp <? 65536 then [cp]
   else [55296 + (cp - 65536) / 1024; 56320 + (cp - 65536) mod 1024])%N.

(** The UTF-8 decoder of the Encoding Standard, which V8 follows: between
    characters it is [Idle]; inside a sequence it holds the bits read so
    far, the number of bytes still needed and the range allowed for the
    next byte. *)
Inductive utf8_state :=
  | Idle
  | Pending (code_point : N) (needed : nat) (lower upper : N).

(** The state after a lead byte of a multi-byte sequence; [None] for a
    byte that cannot start one.  E0 and F0 exclude over-long forms, ED
    excludes the surrogates, F4 excludes what lies beyond U+10FFFF. *)
Definition utf8_lead (n : N) : option utf8_state :=
  (if (194 <=? n) && (n <=? 223) then Some (Pending (n - 192) 1 128 191)
   else if (224 <=? n) && (n <=? 239) then
     Some (Pending (n - 224) 2
             (if n =? 224 then 160 else 128) (if n =? 237 then 159 else 191))
   else if (240 <=? n) && (n <=? 244) then
     Some (Pending (n - 240) 3
             (if n =? 240 then 144 else 128) (if n =? 244 then 143 else 191))
   else None)%N.

(** A byte that does not fit ends the sequence with U+FFFD and is looked
    at again as the start of the next one; so is the end of the input
    inside a sequence. *)
Fixpoint utf8_decode_from (st : utf8_state) (bytes : list Byte.byte)
  : jsstring :=
  match bytes with
  | [] =>
      match st with
      | Idle => []
      | Pending _ _ _ _ => [replacement_character]
      end
  | b :: rest =>
      let n := Byte.to_N b in
      let fresh :=
        if (n <? 128)%N then n :: utf8_decode_from Idle rest
        else
          match utf8_lead n with
          | Some st' => utf8_decode_from st' rest
          | None => replacement_character :: utf8_decode_from Idle rest
          end in
      match st with
      | Idle => fresh
      | Pending cp needed lower upper =>
          if ((lower <=? n) && (n <=? upper))%N then
            let cp' := (cp * 64 + (n - 128))%N in
            match needed with
            | S (S k) => utf8_decode_from (Pending cp' (S k) 128 191) rest
            | _ => units_of_code_point cp' ++ utf8_decode_from Idle rest
            end
          else replacement_character :: fresh
      end
  end.

(** [buf.toString('utf8')], also the output side of
    [decipher.update(..., 'utf8')] followed by [decipher.final('utf8')]. *)
Definition utf8_decode (bytes : list Byte.byte) : jsstring :=
  utf8_decode_from Idle bytes.

(** A string without unpaired surrogates, all units below 2^16. *)
Fixpoint well_formed (s : jsstring) : bool :=
  match s with
  | [] => true
  | c :: rest =>
      if is_high_surrogate c then
        match rest with
        | d :: rest' => is_low_surrogate d && well_formed rest'
        | [] => false
        end
      else negb (is_low_surrogate c) && (c <? 65536)%N && well_formed rest
  end.

(** [s.toWellFormed()]: every unpaired surrogate becomes U+FFFD. *)
Fixpoint toWellFormed (s : jsstring) : jsstring :=
  match s with
  | [] => []
  | c :: rest =>
      if is_high_surrogate c then
        match rest with
        | d :: rest' =>
            if is_low_surrogate d then c :: d :: toWellFormed rest'
            else replacement_character :: toWellFormed rest
        | [] => [replacement_character]
        end
      else if is_low_surrogate c
      then replacement_character :: toWellFormed rest
      else c :: toWellFormed rest
  end.

(** Code units are 16-bit. *)
Definition code_units (s : jsstring) : Prop :=
  Forall (fun c => (c < 65536)%N) s.

(* ===================================================================== *)
(** ** Token encryption: server/utils/encryption.js *)
(* ===================================================================== *)

(** What the module takes from its environment: the key string read once
    at load, and Node's [crypto].  AES-256-GCM is an authenticated cipher
    given by its two operations and the law that opening what was sealed
    under the same key and nonce gives the plaintext back. *)
Class Crypto := {
  (** [process.env.ENCRYPTION_KEY || crypto.randomBytes(32).toString('hex')] *)
  ENCRYPTION_KEY : jsstring;
  (** [crypto.scryptSync(ENCRYPTION_KEY, 'salt', 32)] *)
  scryptSync : jsstring -> list Byte.byte;
  scryptSync_length : forall k, List.length (scryptSync k) = 32%nat;
  (** key, nonce, plaintext to ciphertext and tag *)
  gcm_seal :
    list Byte.byte -> list Byte.byte -> list Byte.byte
    -> list Byte.byte * list Byte.byte;
  (** key, nonce, ciphertext, tag to plaintext, or a failed check *)
  gcm_open :
    list Byte.byte -> list Byte.byte -> list Byte.byte -> list Byte.byte
    -> option (list Byte.byte);
  gcm_open_seal : forall key iv plaintext,
    List.length key = 32%nat ->
    List.length iv = 16%nat ->
    gcm_open key iv (fst (gcm_seal key iv plaintext))
                    (snd (gcm_seal key iv plaintext)) = Some plaintext
}.

Module Encryption.
Section WithCrypto.
Context {crypto : Crypto}.

(** [getKey], lines 8-19. *)
Definition getKey : list Byte.byte :=
  if Nat.eqb (List.length ENCRYPTION_KEY) 64 then hex_decode ENCRYPTION_KEY
  else if Nat.eqb (List.length ENCRYPTION_KEY) 32
  then utf8_encode ENCRYPTION_KEY
  else scryptSync ENCRYPTION_KEY.

(** [crypto.createCipheriv('aes-256-gcm', key, iv)] and its decipher twin
    throw a RangeError unless the key has 32 bytes. *)
Definition key_accepted (key : list Byte.byte) : bool :=
  Nat.eqb (List.length key) 32.

(** [encrypt], lines 26-46.  [iv] is the [crypto.randomBytes(16)] of this
    call.  A truthy value that is not a string makes [cipher.update] throw,
    which the [catch] turns into the generic message. *)
Definition encrypt (iv : list Byte.byte) (text : jsvalue) : result jsstring :=
  if negb (truthy text) then Throw (js "Text to encrypt cannot be empty")
  else
    match text with
    | VString s =>
        if key_accepted getKey then
          let sealed := gcm_seal getKey iv (utf8_encode s) in
          let encrypted := hex_encode (fst sealed) in
          let authTag := snd sealed in
          Return (hex_encode iv ++ [colon] ++ encrypted ++ [colon]
                    ++ hex_encode authTag)
        else Throw (js "Failed to encrypt data")
    | _ => Throw (js "Failed to encrypt data")
    end.

(** [decrypt], lines 53-80.  Everything thrown inside the [try], the
    format error included, leaves as 'Failed to decrypt data'. *)
Definition decrypt (encryptedData : jsvalue) : result jsstring :=
  if negb (truthy encryptedData)
  then Throw (js "Encrypted data cannot be empty")
  else
    match encryptedData with
    | VString s =>
        match split colon s with
        | [part0; part1; part2] =>
            let iv := hex_decode part0 in
            let authTag := hex_decode part2 in
            if key_accepted getKey then
              match gcm_open getKey iv (hex_decode part1) authTag with
              | Some plaintext => Return (utf8_decode plaintext)
              | None => Throw (js "Failed to decrypt data")
              end
            else Throw (js "Failed to decrypt data")
        | _ => Throw (js "Failed to decrypt data")
        end
    | _ => Throw (js "Failed to decrypt data")
    end.

(** [validateEncryptionSetup], lines 116-126; [stamp] is the decimal
    [Date.now()] appended to the test string. *)
Definition validateEncryptionSetup (iv : list Byte.byte) (stamp : jsstring)
  : bool :=
  let testData := js "test-encryption-" ++ stamp in
  match encrypt iv (VString testData) with
  | Return encrypted =>
      match decrypt (VString encrypted) with
      | Return decrypted =>
          if list_eq_dec N.eq_dec decrypted testData then true else false
      | Throw _ => false
      end
  | Throw _ => false
  end.

End WithCrypto.
End Encryption.

(* ===================================================================== *)
(** ** LLM provider fallback: server/services/aiService.js, LLMService *)
(* ===================================================================== *)

(** [options] as the callers fill it. *)
Record options := {
  model : option jsstring;
  systemPrompt : option jsstring;
  maxTokens : option Q;
  temperature : option Q
}.

(** What the service reaches outside the repository: the four provider
    calls (HTTP requests that return the completion text or throw), the
    prompt template, and [JSON.parse]. *)
Class LLMPlatform := {
  callGroq : jsstring -> jsstring -> options -> result jsstring;
  callHuggingFace : jsstring -> jsstring -> options -> result jsstring;
  callTogether : jsstring -> jsstring -> options -> result jsstring;
  callOpenRouter : jsstring -> jsstring -> options -> result jsstring;
  (** [buildFinancialPrompt], lines 826-851: one template literal over the
      fields of the data *)
  financialData : Type;
  buildFinancialPrompt : financialData -> jsstring;
  (** [JSON.parse]: the value, or [None] for a SyntaxError *)
  json_value : Type;
  JSON_parse : jsstring -> option json_value
}.

Module LLM.
Section WithPlatform.
Context {crypto : Crypto} {platform : LLMPlatform}.

(** Modelled from the spec: the [ai_tokens] table, whose CREATE TABLE is
    not among the sources; the columns are those that the statements of
    aiService.js and of the token routes read in a condition or write. *)
Record ai_token := {
  t_id : string;
  t_user_id : string;
  service : string;
  token_encrypted : jsvalue;
  t_is_active : option Z;
  last_used : option string;
  updated_at : option string
}.

Definition db := list ai_token.

(** A plain object used as a map: assignment replaces, lookup finds. *)
Definition object := list (string * jsstring).

Definition object_set (o : object) (key : string) (value : jsstring)
  : object :=
  (key, value) :: filter (fun e => negb (String.eqb (fst e) key)) o.

Definition object_get (o : object) (key : string) : option jsstring :=
  match find (fun e => String.eqb (fst e) key) o with
  | Some e => Some (snd e)
  | None => None
  end.

(** [getUserTokens], lines 506-529: the active rows of the user, each
    decrypted; a row whose token does not decrypt is skipped. *)
Definition getUserTokens (userId : string) (d : db) : object :=
  fold_left
    (fun tokens row =>
       match Encryption.decrypt (token_encrypted row) with
       | Return token => object_set tokens (service row) token
       | Throw _ => tokens
       end)
    (filter (fun row => String.eqb (t_user_id row) userId
                        && match t_is_active row with
                           | Some a => (a =? 1)%Z
                           | None => false
                           end) d)
    [].

(** [updateLastUsed], lines 536-547; [now] is CURRENT_TIMESTAMP. *)
Definition updateLastUsed (userId svc now : string) (d : db) : db :=
  map (fun row =>
         if String.eqb (t_user_id row) userId && String.eqb (service row) svc
         then {| t_id := t_id row; t_user_id := t_user_id row;
                 service := service row;
                 token_encrypted := token_encrypted row;
                 t_is_active := t_is_active row;
                 last_used := Some now;
                 updated_at := updated_at row |}
         else row) d.

Record provider := {
  name : string;
  method : jsstring -> jsstring -> options -> result jsstring
}.

(** The [providers] array of [generateCompletion], in its order. *)
Definition providers : list provider :=
  [ {| name := "groq"; method := callGroq |};
    {| name := "huggingface"; method := callHuggingFace |};
    {| name := "together"; method := callTogether |};
    {| name := "openrouter"; method := callOpenRouter |} ].

Record completion := {
  text : jsstring;
  c_provider : string;
  c_model : jsstring;
  tokenCount : Q
}.

(** [tokens[provider.name]] as a condition: present and not empty. *)
Definition configured (tokens : object) (p : provider) : option jsstring :=
  match object_get tokens (name p) with
  | Some (c :: rest) => Some (c :: rest)
  | _ => None
  end.

Definition model_or_default (o : options) : jsstring :=
  match model o with
  | Some (c :: rest) => c :: rest
  | _ => js "default"
  end.

(** The [for (const provider of providers)] loop with its [try]/[catch],
    then the final [throw]; [lastError] holds the message of the last
    failure. *)
Fixpoint attempt (ps : list provider) (tokens : object)
    (userId : string) (prompt : jsstring) (o : options) (now : string)
    (lastError : option jsstring) (d : db) : result completion * db :=
  match ps with
  | [] =>
      (Throw
         match lastError with
         | Some message =>
             js "All AI providers failed. Last error: " ++ message
         | None =>
             js "No AI tokens configured. Please add at least one token in AI Settings."
         end,
       d)
  | p :: rest =>
      match configured tokens p with
      | Some token =>
          match method p token prompt o with
          | Return t =>
              (Return {| text := trim t;
                         c_provider := name p;
                         c_model := model_or_default o;
                         tokenCount :=
                           inject_Z (Z.of_nat (List.length t)) / 4 |},
               updateLastUsed userId (name p) now d)
          | Throw message =>
              attempt rest tokens userId prompt o now (Some message) d
          end
      | None => attempt rest tokens userId prompt o now lastError d
      end
  end.

(** [generateCompletion], lines 724-766. *)
Definition generateCompletion (userId : string) (prompt : jsstring)
    (o : options) (now : string) (d : db) : result completion * db :=
  attempt providers (getUserTokens userId d) userId prompt o now None d.

Record insight := {
  i_type : jsstring;
  title : jsstring;
  message : jsstring;
  recommendation : jsstring;
  impact : jsstring
}.

Definition open_bracket : N := 91.
Definition close_bracket : N := 93.

(** The prefix of [s] that ends at its last [c]. *)
Fixpoint through_last (c : N) (s : jsstring) : option jsstring :=
  match s with
  | [] => None
  | x :: rest =>
      match through_last c rest with
      | Some prefix => Some (x :: prefix)
      | None => if (x =? c)%N then Some [x] else None
      end
  end.

(** [s.match(/\[[\s\S]*\]/)]: from the first [[] to the last []] after
    it; [None] is [null]. *)
Fixpoint match_bracketed (s : jsstring) : option jsstring :=
  match s with
  | [] => None
  | x :: rest =>
      if (x =? open_bracket)%N then
        match through_last close_bracket rest with
        | Some inner => Some (x :: inner)
        | None => None
        end
      else match_bracketed rest
  end.

Definition is_digit (c : N) : bool := ((48 <=? c) && (c <=? 57))%N.

(** [/^[\d\*\-\•]/.test(line)] *)
Definition starts_item (line : jsstring) : bool :=
  match line with
  | c :: _ => (is_digit c || (c =? 42) || (c =? 45) || (c =? 8226))%N
  | [] => false
  end.

(** [line.replace(/^[\d\*\-\•\.\)]\s*/, '')] *)
Definition strip_marker (line : jsstring) : jsstring :=
  match line with
  | c :: rest =>
      if (is_digit c || (c =? 42) || (c =? 45) || (c =? 8226)
          || (c =? 46) || (c =? 41))%N
      then trimStart rest
      else line
  | [] => []
  end.

Definition append_to_message (i : insight) (line : jsstring) : insight :=
  {| i_type := i_type i; title := title i;
     message := message i ++ js " " ++ line;
     recommendation := recommendation i; impact := impact i |}.

(** One turn of [lines.forEach] on the pair of [insights] and
    [currentInsight]. *)
Definition item_step (state : list insight * option insight)
    (line : jsstring) : list insight * option insight :=
  let (insights, currentInsight) := state in
  if starts_item line then
    (match currentInsight with
     | Some current => insights ++ [current]
     | None => insights
     end,
     Some {| i_type := js "info";
             title := firstn 80 (strip_marker line);
             message := line;
             recommendation := [];
             impact := js "medium" |})
  else
    match currentInsight with
    | Some current => (insights, Some (append_to_message current line))
    | None => (insights, None)
    end.

(** [parseNaturalLanguageInsights], lines 858-893. *)
Definition parseNaturalLanguageInsights (t : jsstring) : list insight :=
  let lines :=
    filter (fun line => match trim line with [] => false | _ => true end)
      (split newline t) in
  let (insights, currentInsight) := fold_left item_step lines ([], None) in
  let insights :=
    match currentInsight with
    | Some current => insights ++ [current]
    | None => insights
    end in
  match insights with
  | _ :: _ => insights
  | [] =>
      [ {| i_type := js "info";
           title := js "AI Analysis";
           message := t;
           recommendation :=
             js "Review the analysis for financial guidance.";
           impact := js "medium" |} ]
  end.

(** The [insights] field: the parsed JSON value or a list of records. *)
Inductive insights_value :=
  | ParsedInsights (v : json_value)
  | InsightRecords (l : list insight).

Record insights_response := {
  insights : insights_value;
  r_provider : string;
  generated_at : string
}.

(** The [try]/[catch] of [generateFinancialInsights], lines 785-819, on
    the completion that [generateCompletion] returned. *)
Definition insights_of_completion (r : completion) (now : string)
  : insights_response :=
  let insightsText := text r in
  match match_bracketed insightsText with
  | Some jsonMatch =>
      match JSON_parse jsonMatch with
      | Some v =>
          {| insights := ParsedInsights v;
             r_provider := c_provider r;
             generated_at := now |}
      | None =>
          {| insights :=
               InsightRecords
                 [ {| i_type := js "info";
                      title := js "AI Financial Analysis";
                      message := text r;
                      recommendation :=
                        js "Review the analysis above for financial guidance.";
                      impact := js "medium" |} ];
             r_provider := c_provider r;
             generated_at := now |}
      end
  | None =>
      {| insights :=
           InsightRecords (parseNaturalLanguageInsights insightsText);
         r_provider := c_provider r;
         generated_at := now |}
  end.

Definition insights_options : options :=
  {| model := None;
     systemPrompt := Some (js "You are an expert financial advisor. Analyze the provided financial data and generate 3-5 specific, actionable insights. Focus on spending patterns, savings opportunities, and financial health. Format your response as a JSON array of insight objects with fields: type (warning/success/info), title, message, recommendation, and impact (high/medium/low).");
     maxTokens := Some 2000;
     temperature := Some (3 # 10) |}.

(** [generateFinancialInsights], lines 774-820. *)
Definition generateFinancialInsights (userId : string)
    (data : financialData) (now : string) (d : db)
  : result insights_response * db :=
  match generateCompletion userId (buildFinancialPrompt data)
          insights_options now d with
  | (Return r, d') => (Return (insights_of_completion r now), d')
  | (Throw message, d') => (Throw message, d')
  end.

End WithPlatform.
End LLM.

(** The fallback in the specification's words: the providers that the
    user has an active token for, in the fixed order, each with the outcome
    of its call; the first one that succeeded; the message of the last one
    that failed. *)
Section FallbackSpec.
Context {crypto : Crypto} {platform : LLMPlatform}.

(** The calls of the loop, given the object of tokens. *)
Definition attempted_calls (tokens : LLM.object) (prompt : jsstring)
    (o : options) (ps : list LLM.provider)
  : list (string * result jsstring) :=
  flat_map
    (fun p =>
       match LLM.configured tokens p with
       | Some token => [(LLM.name p, LLM.method p token prompt o)]
       | None => []
       end) ps.

Fixpoint first_success (calls : list (string * result jsstring))
  : option (string * jsstring) :=
  match calls with
  | [] => None
  | (svc, Return t) :: _ => Some (svc, t)
  | (_, Throw _) :: rest => first_success rest
  end.

Fixpoint last_failure (calls : list (string * result jsstring))
    (earlier : option jsstring) : option jsstring :=
  match calls with
  | [] => earlier
  | (_, Throw message) :: rest => last_failure rest (Some message)
  | (_, Return _) :: rest => last_failure rest earlier
  end.

Definition aggregated_error (last : option jsstring) : jsstring :=
  match last with
  | Some message => js "All AI providers failed. Last error: " ++ message
  | None =>
      js "No AI tokens configured. Please add at least one token in AI Settings."
  end.

(** The order in which the providers are tried. *)
Definition spec_order : list string :=
  ["groq"; "huggingface"; "together"; "openrouter"].

(** The call that belongs to a provider. *)
Definition spec_call (svc : string)
  : jsstring -> jsstring -> options -> result jsstring :=
  if string_dec svc "groq" then callGroq
  else if string_dec svc "huggingface" then callHuggingFace
  else if string_dec svc "together" then callTogether
  else callOpenRouter.

(** The token that a user has for a provider: that of the last row of the
    table that is the user's, names the provider, is active and holds a
    token that decrypts. *)
Fixpoint spec_active_token (userId svc : string) (rows : LLM.db)
  : option jsstring :=
  match rows with
  | [] => None
  | row :: rest =>
      match spec_active_token userId svc rest with
      | Some token => Some token
      | None =>
          if string_dec (LLM.t_user_id row) userId then
            if string_dec (LLM.service row) svc then
              match LLM.t_is_active row,
                    Encryption.decrypt (LLM.token_encrypted row) with
              | Some 1%Z, Return token => Some token
              | _, _ => None
              end
            else None
          else None
      end
  end.

(** A provider is tried with a token that is not empty. *)
Definition spec_usable_token (userId svc : string) (rows : LLM.db)
  : option jsstring :=
  match spec_active_token userId svc rows with
  | Some (c :: rest) => Some (c :: rest)
  | _ => None
  end.

(** The providers that the user has a token for, in the order, each with
    the outcome of its call. *)
Definition spec_attempts (userId : string) (prompt : jsstring)
    (o : options) (rows : LLM.db) : list (string * result jsstring) :=
  flat_map
    (fun svc =>
       match spec_usable_token userId svc rows with
       | Some token => [(svc, spec_call svc token prompt o)]
       | None => []
       end) spec_order.

(** Marking a provider of a user as used at [now]. *)
Fixpoint spec_stamp (userId svc now : string) (rows : LLM.db) : LLM.db :=
  match rows with
  | [] => []
  | row :: rest =>
      (if string_dec (LLM.t_user_id row) userId then
         if string_dec (LLM.service row) svc then
           {| LLM.t_id := LLM.t_id row;
              LLM.t_user_id := LLM.t_user_id row;
              LLM.service := LLM.service row;
              LLM.token_encrypted := LLM.token_encrypted row;
              LLM.t_is_active := LLM.t_is_active row;
              LLM.last_used := Some now;
              LLM.updated_at := LLM.updated_at row |}
         else row
       else row) :: spec_stamp userId svc now rest
  end.

Definition spec_generateCompletion (userId : string) (prompt : jsstring)
    (o : options) (now : string) (d : LLM.db)
  : result LLM.completion * LLM.db :=
  let calls := spec_attempts userId prompt o d in
  match first_success calls with
  | Some (svc, t) =>
      (Return {| LLM.text := trim t;
                 LLM.c_provider := svc;
                 LLM.c_model := LLM.model_or_default o;
                 LLM.tokenCount := inject_Z (Z.of_nat (List.length t)) / 4 |},
       spec_stamp userId svc now d)
  | None => (Throw (aggregated_error (last_failure calls None)), d)
  end.

(** The two free-form insights that carry the raw text. *)
Definition raw_insight (heading advice : string) (raw : jsstring)
  : LLM.insight :=
  {| LLM.i_type := js "info";
     LLM.title := js heading;
     LLM.message := raw;
     LLM.recommendation := js advice;
     LLM.impact := js "medium" |}.

(** A text holds a bracketed stretch: [inner] lies between the first
    opening bracket of the text and the last closing bracket behind it. *)
Definition bracketed_stretch (t pre inner post : jsstring) : Prop :=
  t = pre ++ [LLM.open_bracket] ++ inner ++ [LLM.close_bracket] ++ post /\
  ~ In LLM.open_bracket pre /\ ~ In LLM.close_bracket post.

(** A text holds none: no closing bracket follows an opening one. *)
Definition no_bracketed_stretch (t : jsstring) : Prop :=
  forall pre post,
    t = pre ++ LLM.open_bracket :: post -> ~ In LLM.close_bracket post.

End FallbackSpec.

(** The database used to trace the bill routes: bob owns bill [b1] and the
    one payment recorded against it; alice owns nothing. *)
Definition bob_bill : Bills.bill :=
  {| Bills.b_id := "b1"; Bills.b_user_id := "bob";
     Bills.bill_name := "Power"; Bills.bill_type := "electric";
     Bills.target_amount := 120; Bills.due_day := Some 5%Z;
     Bills.is_active := Some 1%Z; Bills.notes := None;
     Bills.b_created_at := "2024-01-01 00:00:00" |}.

Definition bob_payment : Bills.bill_payment :=
  {| Bills.p_id := "p1"; Bills.p_bill_id := "b1"; Bills.p_user_id := "bob";
     Bills.amount_paid := 118; Bills.payment_date := "2024-01-15";
     Bills.month_year := "2024-01"; Bills.p_notes := None;
     Bills.p_created_at := "2024-01-15 09:00:00" |}.

Definition bob_db : Bills.db :=
  {| Bills.bills := [bob_bill]; Bills.bill_payments := [bob_payment] |}.

(** alice's bill after she set its target to 0 with PUT (POST refuses the
    number 0, PUT does not look at it), and one payment of 50. *)
Definition zero_target_bill : Bills.bill :=
  {| Bills.b_id := "b2"; Bills.b_user_id := "alice";
     Bills.bill_name := "Water"; Bills.bill_type := "water";
     Bills.target_amount := 0; Bills.due_day := Some 1%Z;
     Bills.is_active := Some 1%Z; Bills.notes := None;
     Bills.b_created_at := "2024-01-01 00:00:00" |}.

Definition zero_target_payment : Bills.bill_payment :=
  {| Bills.p_id := "p2"; Bills.p_bill_id := "b2"; Bills.p_user_id := "alice";
     Bills.amount_paid := 50; Bills.payment_date := "2024-01-15";
     Bills.month_year := "2024-01"; Bills.p_notes := None;
     Bills.p_created_at := "2024-01-15 09:00:00" |}.

Definition zero_target_db : Bills.db :=
  {| Bills.bills := [zero_target_bill];
     Bills.bill_payments := [zero_target_payment] |}.

Definition water_body (target : Q) : Bills.bill_body :=
  {| Bills.bb_bill_name := Some "Water"; Bills.bb_bill_type := Some "water";
     Bills.bb_target_amount := Some (Bills.JsonNumber target);
     Bills.bb_due_day := Some 1%Z;
     Bills.bb_is_active := true; Bills.bb_notes := None |}.

(** The same bill as the form of the client posts it: the target is the
    text of the input field. *)
Definition water_form (target : Q) : Bills.bill_body :=
  {| Bills.bb_bill_name := Some "Water"; Bills.bb_bill_type := Some "water";
     Bills.bb_target_amount := Some (Bills.NumericText target);
     Bills.bb_due_day := Some 1%Z;
     Bills.bb_is_active := true; Bills.bb_notes := None |}.

(** The user of the specification's example: checking 1000, savings 2000,
    credit card -500, and a stale snapshot that says 99. *)
Definition example_wealth_db : Wealth.db :=
  {| Wealth.accounts :=
       [ {| Wealth.a_id := "a1"; Wealth.a_user_id := "u1";
            Wealth.a_type := "checking";
            Wealth.a_balance := Double.of_Z 1000 |};
         {| Wealth.a_id := "a2"; Wealth.a_user_id := "u1";
            Wealth.a_type := "savings";
            Wealth.a_balance := Double.of_Z 2000 |};
         {| Wealth.a_id := "a3"; Wealth.a_user_id := "u1";
            Wealth.a_type := "credit_card";
            Wealth.a_balance := Double.of_Z (- 500) |} ];
     Wealth.retirement_accounts := [];
     Wealth.assets := [];
     Wealth.net_worth_snapshots :=
       [ {| Wealth.sn_id := "s1"; Wealth.sn_user_id := "u1";
            Wealth.sn_total_assets := Double.of_Z 100;
            Wealth.sn_total_liabilities := Double.of_Z 1;
            Wealth.sn_net_worth := Double.of_Z 99;
            Wealth.sn_date := "2023-12-31" |} ] |}.

(** Two environments for tracing [encrypt] and [decrypt].  The cipher is a
    stand-in that satisfies the law of [Crypto]: it leaves the plaintext as
    it is and uses sixteen zero bytes as tag. *)
Definition zero_bytes (n : nat) : list Byte.byte := repeat Byte.x00 n.

Definition example_crypto_with_key (key : jsstring) : Crypto :=
  {| ENCRYPTION_KEY := key;
     scryptSync := fun _ => zero_bytes 32;
     scryptSync_length := fun _ => eq_refl;
     gcm_seal := fun _ _ plaintext => (plaintext, zero_bytes 16);
     gcm_open := fun _ _ ciphertext _ => Some ciphertext;
     gcm_open_seal := fun _ _ _ _ _ => eq_refl |}.

(** A key of 64 hex digits, as [randomBytes(32).toString('hex')] gives. *)
Definition hex_key_crypto : Crypto :=
  example_crypto_with_key (repeat 48%N 64).

(** A key of 64 characters that are not hex digits: [Buffer.from(key,
    'hex')] is empty. *)
Definition non_hex_key_crypto : Crypto :=
  example_crypto_with_key (repeat 122%N 64).


(** A platform for tracing the fallback: Groq is down, Hugging Face
    answers with a fixed text, the other two are not reached; [JSON.parse]
    is stood in for by a parser of arrays of digits. *)
Definition digits_array (s : jsstring) : bool :=
  match s with
  | 91%N :: rest =>
      match rev rest with
      | 93%N :: inner =>
          forallb (fun c => ((48 <=? c) && (c <=? 57) || (c =? 44)
                             || (c =? 32))%N) inner
      | _ => false
      end
  | _ => false
  end.

Definition example_platform (answer : jsstring) : LLMPlatform :=
  {| callGroq := fun _ _ _ => Throw (js "Groq API failed: 503");
     callHuggingFace := fun _ _ _ => Return answer;
     callTogether := fun _ _ _ => Throw (js "Together AI API failed: 500");
     callOpenRouter := fun _ _ _ => Throw (js "OpenRouter API failed: 500");
     financialData := unit;
     buildFinancialPrompt := fun _ => js "Analyze this financial data";
     json_value := jsstring;
     JSON_parse := fun s => if digits_array s then Some s else None |}.

(** The stored form of a token under [hex_key_crypto]. *)
Definition stored_token (token : string) : jsvalue :=
  match @Encryption.encrypt hex_key_crypto (zero_bytes 16)
          (VString (js token)) with
  | Return ciphertext => VString ciphertext
  | Throw _ => VNull
  end.

Definition example_tokens_db
  : @LLM.db :=
  [ {| LLM.t_id := "t1"; LLM.t_user_id := "u1"; LLM.service := "groq";
       LLM.token_encrypted := stored_token "gsk_A";
       LLM.t_is_active := Some 1%Z; LLM.last_used := None;
       LLM.updated_at := Some "2024-01-01 00:00:00" |};
    {| LLM.t_id := "t2"; LLM.t_user_id := "u1";
       LLM.service := "huggingface";
       LLM.token_encrypted := stored_token "hf_B";
       LLM.t_is_active := Some 1%Z; LLM.last_used := None;
       LLM.updated_at := Some "2024-01-01 00:00:00" |};
    {| LLM.t_id := "t3"; LLM.t_user_id := "u2";
       LLM.service := "huggingface";
       LLM.token_encrypted := stored_token "hf_C";
       LLM.t_is_active := Some 1%Z; LLM.last_used := None;
       LLM.updated_at := Some "2024-01-01 00:00:00" |} ].

(** A platform on which every provider answers, with its own name, and a
    table in which the caller's Groq token is switched off while another
    user's is on. *)
Definition answering_platform : LLMPlatform :=
  {| callGroq := fun _ _ _ => Return (js "from groq");
     callHuggingFace := fun _ _ _ => Return (js "from huggingface");
     callTogether := fun _ _ _ => Return (js "from together");
     callOpenRouter := fun _ _ _ => Return (js "from openrouter");
     financialData := unit;
     buildFinancialPrompt := fun _ => js "Analyze this financial data";
     json_value := jsstring;
     JSON_parse := fun s => if digits_array s then Some s else None |}.

Definition inactive_groq_db
  : @LLM.db :=
  [ {| LLM.t_id := "t1"; LLM.t_user_id := "u1"; LLM.service := "groq";
       LLM.token_encrypted := stored_token "gsk_A";
       LLM.t_is_active := Some 0%Z; LLM.last_used := None;
       LLM.updated_at := Some "2024-01-01 00:00:00" |};
    {| LLM.t_id := "t2"; LLM.t_user_id := "u2"; LLM.service := "groq";
       LLM.token_encrypted := stored_token "gsk_B";
       LLM.t_is_active := Some 1%Z; LLM.last_used := None;
       LLM.updated_at := Some "2024-01-01 00:00:00" |};
    {| LLM.t_id := "t3"; LLM.t_user_id := "u1"; LLM.service := "openrouter";
       LLM.token_encrypted := stored_token "sk-or-C";
       LLM.t_is_active := Some 1%Z; LLM.last_used := None;
       LLM.updated_at := Some "2024-01-01 00:00:00" |};
    {| LLM.t_id := "t4"; LLM.t_user_id := "u1"; LLM.service := "together";
       LLM.token_encrypted := stored_token "tgp_D";
       LLM.t_is_active := Some 1%Z; LLM.last_used := None;
       LLM.updated_at := Some "2024-01-01 00:00:00" |} ].

Definition no_options : options :=
  {| model := None; systemPrompt := None; maxTokens := None;
     temperature := None |}.

(** The month of the specification's examples: one expense category. *)
Definition one_category (spent : Double.double) : Analysis.expense_row :=
  {| Analysis.category := "housing"; Analysis.total := spent;
     Analysis.transaction_count := 1; Analysis.avg_transaction := spent |}.

(** The months on which the rounding of the analysis shows: a category
    total of 0.9 against an income of 3, and totals of 186.60 and 5562.32
    against an income of 7186.15. *)
Definition rounding_row (name : string) (spent : Double.double)
  : Analysis.expense_row :=
  {| Analysis.category := name; Analysis.total := spent;
     Analysis.transaction_count := 1; Analysis.avg_transaction := spent |}.

Definition boundary_month : list Analysis.expense_row :=
  [rounding_row "housing" (Double.decimal 9 10)].

Definition shortfall_month : list Analysis.expense_row :=
  [ rounding_row "food" (Double.decimal 1866 10);
    rounding_row "housing" (Double.decimal 556232 100) ].

Definition coffee_row : Analysis.expense_row :=
  {| Analysis.category := "coffee"; Analysis.total := Double.of_Z 63;
     Analysis.transaction_count := 14;
     Analysis.avg_transaction := Double.decimal 45 10 |}.

(* ===================================================================== *)
(** ** Token encryption, the rest of server/utils/encryption.js *)
(* ===================================================================== *)

Definition mask_stars : jsstring := js "***********".

(** [maskToken], lines 87-92.  For a truthy value that is not a string
    [text.length] is [undefined], which is not below 13, and the call of
    [text.substring] is a TypeError. *)
Definition maskToken (text : jsvalue) : result jsstring :=
  if negb (truthy text) then Return mask_stars
  else
    match text with
    | VString s =>
        if Nat.ltb (List.length s) 13 then Return mask_stars
        else Return (firstn 8 s ++ js "..." ++ skipn (List.length s - 4) s)
    | _ => Throw (js "text.substring is not a function")
    end.

(** The characters of a ciphertext: lower-case hex digits and the colon. *)
Definition is_hex_or_colon (c : N) : bool :=
  ((48 <=? c) && (c <=? 57) || (97 <=? c) && (c <=? 102) || (c =? 58))%N.

(** A string of hex digit pairs, as [Buffer.from(s, 'hex')] reads it to
    the end. *)
Definition ascii_only (s : jsstring) : Prop :=
  Forall (fun c => (c < 128)%N) s.

(* ===================================================================== *)
(** ** AI token routes: server/routes/transactions.js, lines 1044-1240
       (the router mounted for /api/ai-tokens) *)
(* ===================================================================== *)

Module TokenRoutes.
Section WithCrypto.
Context {crypto : Crypto}.

(** The JSON bodies of the answers.  [masked_token] is what [maskToken]
    gave for the submitted token. *)
Inductive payload :=
  | Error (error : string)
  | Message (message : string)
  | TokenSaved (message service : string) (id : option string)
      (masked_token : result jsstring)
  | Toggled (message : string) (is_active : bool).

Record response := { status : Z; body : payload }.

Definition respond (code : Z) (p : payload) : response :=
  {| status := code; body := p |}.

Definition validServices : list string :=
  ["groq"; "huggingface"; "together"; "openrouter"; "anthropic"].

Definition of_user_service (userId svc : string) (row : LLM.ai_token)
  : bool :=
  String.eqb (LLM.t_user_id row) userId && String.eqb (LLM.service row) svc.

Definition of_user_id (userId id : string) (row : LLM.ai_token) : bool :=
  String.eqb (LLM.t_id row) id && String.eqb (LLM.t_user_id row) userId.

(** [token.length < 10]: [undefined < 10] is false for a value without
    [length]. *)
Definition too_short (token : jsvalue) : bool :=
  match token with
  | VString s => Nat.ltb (List.length s) 10
  | _ => false
  end.

(** router.post('/'), lines 1084-1161.  [service] is absent or a string,
    [iv] the random bytes of [encrypt], [id] the [uuidv4()] of the insert,
    [now] the CURRENT_TIMESTAMP of the UPDATE, and [default_updated_at]
    what the table gives [updated_at] on an INSERT that does not name it
    (its CREATE TABLE is not among the sources). *)
Definition post_token (userId : string) (service : option string)
    (token : jsvalue) (iv : list Byte.byte) (id now : string)
    (default_updated_at : option string) (d : LLM.db)
  : response * LLM.db :=
  match service with
  | None => (respond 400 (Error "Service and token are required"), d)
  | Some svc =>
      if String.eqb svc "" || negb (truthy token) then
        (respond 400 (Error "Service and token are required"), d)
      else if negb (existsb (String.eqb svc) validServices) then
        (respond 400
           (Error "Invalid service. Must be one of: groq, huggingface, together, openrouter, anthropic"),
         d)
      else if too_short token then
        (respond 400 (Error "Token appears to be invalid (too short)"), d)
      else
        match Encryption.encrypt iv token with
        | Throw _ => (respond 500 (Error "Failed to encrypt token"), d)
        | Return encryptedToken =>
            match find (of_user_service userId svc) d with
            | Some _ =>
                (respond 200
                   (TokenSaved (svc ++ " token updated successfully") svc
                      None (maskToken token)),
                 map (fun row =>
                        if of_user_service userId svc row then
                          {| LLM.t_id := LLM.t_id row;
                             LLM.t_user_id := LLM.t_user_id row;
                             LLM.service := LLM.service row;
                             LLM.token_encrypted := VString encryptedToken;
                             LLM.t_is_active := Some 1%Z;
                             LLM.last_used := LLM.last_used row;
                             LLM.updated_at := Some now |}
                        else row) d)
            | None =>
                (respond 201
                   (TokenSaved (svc ++ " token added successfully") svc
                      (Some id) (maskToken token)),
                 d ++ [ {| LLM.t_id := id;
                           LLM.t_user_id := userId;
                           LLM.service := svc;
                           LLM.token_encrypted := VString encryptedToken;
                           LLM.t_is_active := Some 1%Z;
                           LLM.last_used := None;
                           LLM.updated_at := default_updated_at |} ])
            end
        end
  end.

(** router.put('/:id/toggle'), lines 1164-1198; [now] is the
    CURRENT_TIMESTAMP of the UPDATE. *)
Definition toggle_token (userId id now : string) (d : LLM.db)
  : response * LLM.db :=
  match find (of_user_id userId id) d with
  | None => (respond 404 (Error "Token not found"), d)
  | Some token =>
      let newStatus :=
        match LLM.t_is_active token with
        | Some 1%Z => 0%Z
        | _ => 1%Z
        end in
      (respond 200
         (Toggled (if (newStatus =? 1)%Z
                   then "Token activated successfully"
                   else "Token deactivated successfully")
            (newStatus =? 1)%Z),
       map (fun row =>
              if of_user_id userId id row then
                {| LLM.t_id := LLM.t_id row;
                   LLM.t_user_id := LLM.t_user_id row;
                   LLM.service := LLM.service row;
                   LLM.token_encrypted := LLM.token_encrypted row;
                   LLM.t_is_active := Some newStatus;
                   LLM.last_used := LLM.last_used row;
                   LLM.updated_at := Some now |}
              else row) d)
  end.

(** router.delete('/:id'), lines 1201-1220. *)
Definition delete_token (userId id : string) (d : LLM.db)
  : response * LLM.db :=
  let d' := filter (fun row => negb (of_user_id userId id row)) d in
  if Nat.eqb (List.length d - List.length d') 0
  then (respond 404 (Error "Token not found"), d)
  else (respond 200 (Message "Token deleted successfully"), d').

End WithCrypto.
End TokenRoutes.

(** Reading the table as [getUserTokens] and the routes do. *)
Section TokenRows.
Context {crypto : Crypto}.

(** [WHERE user_id = ?] *)
Definition rows_of (userId : string) (d : LLM.db) : LLM.db :=
  filter (fun row => String.eqb (LLM.t_user_id row) userId) d.

(** [WHERE user_id = ? AND is_active = 1] *)
Definition active_of (userId : string) (row : LLM.ai_token) : bool :=
  String.eqb (LLM.t_user_id row) userId
  && match LLM.t_is_active row with
     | Some a => (a =? 1)%Z
     | None => false
     end.

(** The token of the last row of a service that decrypts. *)
Fixpoint latest_token (svc : string) (rows : list LLM.ai_token)
  : option jsstring :=
  match rows with
  | [] => None
  | row :: rest =>
      match latest_token svc rest with
      | Some t => Some t
      | None =>
          if String.eqb (LLM.service row) svc then
            match Encryption.decrypt (LLM.token_encrypted row) with
            | Return t => Some t
            | Throw _ => None
            end
          else None
      end
  end.

(** A row without its [last_used] stamp. *)
Definition forget_last_used (row : LLM.ai_token) : LLM.ai_token :=
  {| LLM.t_id := LLM.t_id row;
     LLM.t_user_id := LLM.t_user_id row;
     LLM.service := LLM.service row;
     LLM.token_encrypted := LLM.token_encrypted row;
     LLM.t_is_active := LLM.t_is_active row;
     LLM.last_used := None;
     LLM.updated_at := LLM.updated_at row |}.

(** A row without its [updated_at] stamp. *)
Definition forget_updated_at (row : LLM.ai_token) : LLM.ai_token :=
  {| LLM.t_id := LLM.t_id row;
     LLM.t_user_id := LLM.t_user_id row;
     LLM.service := LLM.service row;
     LLM.token_encrypted := LLM.token_encrypted row;
     LLM.t_is_active := LLM.t_is_active row;
     LLM.last_used := LLM.last_used row;
     LLM.updated_at := None |}.

(** The lines of a completion that open a list item. *)
Definition item_lines (t : jsstring) : list jsstring :=
  filter LLM.starts_item (split newline t).

(** [insights] with [currentInsight] pushed, as after the loop. *)
Definition insights_so_far (state : list LLM.insight * option LLM.insight)
  : list LLM.insight :=
  match snd state with
  | Some current => fst state ++ [current]
  | None => fst state
  end.

(** [line.replace(/^[\d\*\-\•\.\)]\s*/, '').substring(0, 80)] *)
Definition item_title (line : jsstring) : jsstring :=
  firstn 80 (LLM.strip_marker line).

(** What every insight of the free-form parser carries. *)
Definition plain_insight (i : LLM.insight) : Prop :=
  LLM.i_type i = js "info" /\ LLM.impact i = js "medium".

End TokenRows.

(* ===================================================================== *)
(** ** Income summary: unnamed/part_001, GET /summary of the income router *)
(* ===================================================================== *)

Module Income.

(** A row of [income_sources] (server/models/database.js, lines 201-214). *)
Record income_source := {
  i_id : string;
  i_user_id : string;
  source_name : string;
  source_type : string;
  amount : Double.double;
  frequency : string;
  employer_company : option string;
  i_is_active : option Z;
  start_date : option string;
  i_notes : option string;
  i_created_at : string
}.

(** The CHECK of [source_type]. *)
Definition source_types : list string :=
  ["primary_job"; "secondary_job"; "side_business"; "freelance"; "rental";
   "investments"; "other"].

(** An entry of [byType] and of [bySource]. *)
Record type_total := {
  tt_type : string;
  tt_monthly : Double.double;
  tt_annual : Double.double;
  tt_count : Z
}.

Record source_line := {
  sl_id : string;
  sl_name : string;
  sl_type : string;
  sl_monthly : Double.double;
  sl_annual : Double.double;
  sl_frequency : string;
  sl_original_amount : Double.double
}.

Record summary := {
  total_monthly : Double.double;
  total_annual : Double.double;
  by_type : list type_total;
  by_source : list source_line;
  active_sources_count : nat
}.

(** [calculateMonthlyIncome], lines 590-600, on the doubles of the
    route. *)
Definition calculateMonthlyIncome (amount : Double.double)
    (frequency : string) : Double.double :=
  if String.eqb frequency "weekly"
  then Double.div (Double.mul amount (Double.of_Z 52)) (Double.of_Z 12)
  else if String.eqb frequency "biweekly"
  then Double.div (Double.mul amount (Double.of_Z 26)) (Double.of_Z 12)
  else if String.eqb frequency "monthly" then amount
  else if String.eqb frequency "quarterly"
  then Double.div amount (Double.of_Z 3)
  else if String.eqb frequency "annually"
  then Double.div amount (Double.of_Z 12)
  else if String.eqb frequency "variable" then amount
  else Double.zero.

(** [byType] is a plain object keyed by [source_type]; its entries are
    kept in the order of their creation, which is the order of
    [Object.values] for keys that are names of the CHECK (none of them an
    array index or a property of [Object.prototype]). *)
Definition has_type (type : string) (byType : list type_total) : bool :=
  existsb (fun e => String.eqb (tt_type e) type) byType.

(** Lines 616-626: create the entry when it is missing, then add. *)
Definition add_to_type (byType : list type_total) (type : string)
    (monthly annual : Double.double) : list type_total :=
  let byType :=
    if has_type type byType then byType
    else byType ++ [ {| tt_type := type; tt_monthly := Double.zero;
                        tt_annual := Double.zero; tt_count := 0 |} ] in
  map (fun e =>
         if String.eqb (tt_type e) type
         then {| tt_type := tt_type e;
                 tt_monthly := Double.add (tt_monthly e) monthly;
                 tt_annual := Double.add (tt_annual e) annual;
                 tt_count := (tt_count e + 1)%Z |}
         else e) byType.

(** The four accumulators of the [forEach]. *)
Record totals := {
  totalMonthly : Double.double;
  totalAnnual : Double.double;
  byType : list type_total;
  bySource : list source_line
}.

(** One turn of [sources.forEach], lines 608-638. *)
Definition summary_step (acc : totals) (source : income_source) : totals :=
  let monthly := calculateMonthlyIncome (amount source) (frequency source) in
  let annual := Double.mul monthly (Double.of_Z 12) in
  {| totalMonthly := Double.add (totalMonthly acc) monthly;
     totalAnnual := Double.add (totalAnnual acc) annual;
     byType := add_to_type (byType acc) (source_type source) monthly annual;
     bySource :=
       bySource acc ++
       [ {| sl_id := i_id source;
            sl_name := source_name source;
            sl_type := source_type source;
            sl_monthly := monthly;
            sl_annual := annual;
            sl_frequency := frequency source;
            sl_original_amount := amount source |} ] |}.

(** SELECT * FROM income_sources WHERE user_id = ? AND is_active = 1 *)
Definition active_sources (userId : string) (table : list income_source)
  : list income_source :=
  filter (fun s => String.eqb (i_user_id s) userId
                   && match i_is_active s with
                      | Some a => (a =? 1)%Z
                      | None => false
                      end) table.

(** router.get('/summary'), lines 577-649. *)
Definition get_summary (userId : string) (table : list income_source)
  : summary :=
  let sources := active_sources userId table in
  let acc :=
    fold_left summary_step sources
      {| totalMonthly := Double.zero; totalAnnual := Double.zero;
         byType := []; bySource := [] |} in
  {| total_monthly := totalMonthly acc;
     total_annual := totalAnnual acc;
     by_type := byType acc;
     by_source := bySource acc;
     active_sources_count := List.length sources |}.

End Income.

Definition Zsum (values : list Z) : Z := fold_right Z.add 0%Z values.

(** The monthly and the annual figure of a source, as a line of
    [by_source] shows them. *)
Definition monthly_of (s : Income.income_source) : Double.double :=
  Income.calculateMonthlyIncome (Income.amount s) (Income.frequency s).

Definition annual_of (s : Income.income_source) : Double.double :=
  Double.mul (monthly_of s) (Double.of_Z 12).

(** The line of [by_source] for a source. *)
Definition line_of (s : Income.income_source) : Income.source_line :=
  {| Income.sl_id := Income.i_id s;
     Income.sl_name := Income.source_name s;
     Income.sl_type := Income.source_type s;
     Income.sl_monthly := monthly_of s;
     Income.sl_annual := annual_of s;
     Income.sl_frequency := Income.frequency s;
     Income.sl_original_amount := Income.amount s |}.

(** The sources of one type. *)
Definition of_type (type : string) (sources : list Income.income_source)
  : list Income.income_source :=
  filter (fun s => String.eqb (Income.source_type s) type) sources.

(** What an entry of [byType] holds after the sources seen so far. *)
Definition entry_of (seen : list Income.income_source)
    (e : Income.type_total) : Prop :=
  Income.tt_monthly e
  = Double.sum (map monthly_of (of_type (Income.tt_type e) seen)) /\
  Income.tt_annual e
  = Double.sum (map annual_of (of_type (Income.tt_type e) seen)) /\
  Income.tt_count e
  = Z.of_nat (List.length (of_type (Income.tt_type e) seen)).

Definition example_income : list Income.income_source :=
  [ {| Income.i_id := "i1"; Income.i_user_id := "u1";
       Income.source_name := "Salary"; Income.source_type := "primary_job";
       Income.amount := Double.of_Z 2000; Income.frequency := "biweekly";
       Income.employer_company := None; Income.i_is_active := Some 1%Z;
       Income.start_date := None; Income.i_notes := None;
       Income.i_created_at := "2024-01-01 00:00:00" |};
    {| Income.i_id := "i2"; Income.i_user_id := "u1";
       Income.source_name := "Flat"; Income.source_type := "rental";
       Income.amount := Double.of_Z 900; Income.frequency := "monthly";
       Income.employer_company := None; Income.i_is_active := Some 1%Z;
       Income.start_date := None; Income.i_notes := None;
       Income.i_created_at := "2024-01-02 00:00:00" |};
    {| Income.i_id := "i3"; Income.i_user_id := "u1";
       Income.source_name := "Bonus"; Income.source_type := "primary_job";
       Income.amount := Double.of_Z 3000; Income.frequency := "quarterly";
       Income.employer_company := None; Income.i_is_active := Some 1%Z;
       Income.start_date := None; Income.i_notes := None;
       Income.i_created_at := "2024-01-03 00:00:00" |};
    {| Income.i_id := "i4"; Income.i_user_id := "u2";
       Income.source_name := "Shop"; Income.source_type := "side_business";
       Income.amount := Double.of_Z 400; Income.frequency := "weekly";
       Income.employer_company := None; Income.i_is_active := Some 1%Z;
       Income.start_date := None; Income.i_notes := None;
       Income.i_created_at := "2024-01-04 00:00:00" |} ].

(** Two sources on which the rounding of the totals shows: 1000 a week and
    100 a quarter. *)
Definition rounding_income : list Income.income_source :=
  [ {| Income.i_id := "i1"; Income.i_user_id := "u1";
       Income.source_name := "Shop"; Income.source_type := "side_business";
       Income.amount := Double.of_Z 1000; Income.frequency := "weekly";
       Income.employer_company := None; Income.i_is_active := Some 1%Z;
       Income.start_date := None; Income.i_notes := None;
       Income.i_created_at := "2024-01-01 00:00:00" |};
    {| Income.i_id := "i2"; Income.i_user_id := "u1";
       Income.source_name := "Dividend"; Income.source_type := "investments";
       Income.amount := Double.of_Z 100; Income.frequency := "quarterly";
       Income.employer_company := None; Income.i_is_active := Some 1%Z;
       Income.start_date := None; Income.i_notes := None;
       Income.i_created_at := "2024-01-02 00:00:00" |} ].

(* ===================================================================== *)
(** ** Accounts: server/routes/wealth.js, lines 120-179 *)
(* ===================================================================== *)

Module WealthAccounts.
Import Wealth.

(** The fields of the request body that reach the columns of [account]
    kept here; [name] decides the 400 and the NOT NULL of its column;
    [balance] is the number that the REAL column takes up. *)
Record account_body := {
  ab_name : option string;
  ab_type : option string;
  ab_balance : option Double.double
}.

Inductive payload :=
  | Error (error : string)
  | Message (message : string)
  | Created (message id : string).

Record response := { status : Z; body : payload }.

Definition respond (code : Z) (p : payload) : response :=
  {| status := code; body := p |}.

(** The CHECK of [accounts.type], database.js line 93. *)
Definition account_types : list string :=
  ["checking"; "savings"; "credit_card"; "loan"; "mortgage"; "other_debt"].

Definition with_accounts (d : db) (rows : list account) : db :=
  {| accounts := rows;
     retirement_accounts := retirement_accounts d;
     assets := assets d;
     net_worth_snapshots := net_worth_snapshots d |}.

Definition account_is (id userId : string) (a : account) : bool :=
  String.eqb (a_id a) id && String.eqb (a_user_id a) userId.

(** router.post('/accounts'), lines 120-140; [id] is the [uuidv4()].  The
    INSERT fails on the CHECK of [type] and on a primary key that is
    already there. *)
Definition post_account (userId : string) (b : account_body) (id : string)
    (d : db) : response * db :=
  match ab_name b, ab_type b with
  | Some name, Some type =>
      if String.eqb name "" || String.eqb type "" then
        (respond 400 (Error "Name and type are required"), d)
      else if negb (existsb (String.eqb type) account_types)
              || existsb (fun a => String.eqb (a_id a) id) (accounts d) then
        (respond 500 (Error "Error creating account"), d)
      else
        (respond 201 (Created "Account created successfully" id),
         with_accounts d
           (accounts d ++
            [ {| a_id := id; a_user_id := userId; a_type := type;
                 a_balance := Double.column_or_zero (ab_balance b) |} ]))
  | _, _ => (respond 400 (Error "Name and type are required"), d)
  end.

(** The row an UPDATE writes, or [None] when NOT NULL or the CHECK
    rejects it. *)
Definition updated_account (b : account_body) (old : account)
  : option account :=
  match ab_name b, ab_type b, ab_balance b with
  | Some _, Some type, Some balance =>
      if existsb (String.eqb type) account_types then
        Some {| a_id := a_id old; a_user_id := a_user_id old;
                a_type := type; a_balance := balance |}
      else None
  | _, _, _ => None
  end.

(** router.put('/accounts/:id'), lines 143-163: the rows that match are
    rewritten; a constraint error on one of them is a 500, no match a
    404. *)
Definition put_account (userId id : string) (b : account_body) (d : db)
  : response * db :=
  match filter (account_is id userId) (accounts d) with
  | [] => (respond 404 (Error "Account not found"), d)
  | old :: _ =>
      match updated_account b old with
      | None => (respond 500 (Error "Error updating account"), d)
      | Some _ =>
          (respond 200 (Message "Account updated successfully"),
           with_accounts d
             (map (fun a =>
                     if account_is id userId a then
                       match updated_account b a with
                       | Some a' => a'
                       | None => a
                       end
                     else a) (accounts d)))
      end
  end.

(** router.delete('/accounts/:id'), lines 166-179. *)
Definition delete_account (userId id : string) (d : db) : response * db :=
  let rows := filter (fun a => negb (account_is id userId a)) (accounts d) in
  if Nat.eqb (List.length (accounts d) - List.length rows) 0
  then (respond 404 (Error "Account not found"), d)
  else (respond 200 (Message "Account deleted successfully"),
        with_accounts d rows).

End WealthAccounts.

(** A user on whom the order of the sum shows: checking 3811.40 and a
    pension of 10.53, then a second checking account of 2226.94. *)
Definition rounding_wealth_db : Wealth.db :=
  {| Wealth.accounts :=
       [ {| Wealth.a_id := "a1"; Wealth.a_user_id := "u1";
            Wealth.a_type := "checking";
            Wealth.a_balance := Double.decimal 38114 10 |} ];
     Wealth.retirement_accounts :=
       [ {| Wealth.r_id := "r1"; Wealth.r_user_id := "u1";
            Wealth.r_balance := Double.decimal 1053 100 |} ];
     Wealth.assets := [];
     Wealth.net_worth_snapshots := [] |}.

Definition second_checking : WealthAccounts.account_body :=
  {| WealthAccounts.ab_name := Some "Joint";
     WealthAccounts.ab_type := Some "checking";
     WealthAccounts.ab_balance := Some (Double.decimal 222694 100) |}.

(* ===================================================================== *)
(** ** AIService.getCompletion: server/services/aiService.js, lines 56-120 *)
(* ===================================================================== *)

Module AIService.
Section WithResponse.

(** What [callProvider] resolves to. *)
Variable response : Type.

Record cache_entry := {
  ce_response : response;
  timestamp : Z
}.

(** [this.cache], a [Map] from cache key to entry, in insertion order. *)
Definition cache := list (jsstring * cache_entry).

Definition key_eqb (a b : jsstring) : bool :=
  if list_eq_dec N.eq_dec a b then true else false.

(** [Map.prototype.get] *)
Definition cache_get (c : cache) (key : jsstring) : option cache_entry :=
  match find (fun e => key_eqb (fst e) key) c with
  | Some e => Some (snd e)
  | None => None
  end.

(** [Map.prototype.set]: a key that is there keeps its place. *)
Fixpoint cache_set (c : cache) (key : jsstring) (entry : cache_entry)
  : cache :=
  match c with
  | [] => [(key, entry)]
  | (k, e) :: rest =>
      if key_eqb k key then (k, entry) :: rest
      else (k, e) :: cache_set rest key entry
  end.

(** [this.cache.delete(this.cache.keys().next().value)] *)
Definition delete_first (c : cache) : cache :=
  match c with
  | [] => []
  | (k, _) :: _ => filter (fun e => negb (key_eqb (fst e) k)) c
  end.

(** The parts of [this.config] that [getCompletion] reads itself:
    [performance.caching.ttl] (seconds), [performance.caching.maxSize] and
    whether [agents[agent]] is there. *)
Record config := {
  ttl : Z;
  maxSize : Z;
  agent_known : jsstring -> bool
}.

(** The destructured [params]; [cacheKey] is what [getCacheKey] makes of
    agent, messages and context, [maxRetries] a natural number (3 when
    absent). *)
Record params := {
  agent : jsstring;
  cacheKey : jsstring;
  useCache : bool;
  maxRetries : nat
}.

(** Lines 66-72: the cached response when it is younger than the ttl. *)
Definition fresh_hit (cfg : config) (p : params) (now : Z) (c : cache)
  : option response :=
  if useCache p then
    match cache_get c (cacheKey p) with
    | Some cached =>
        if (now - timestamp cached <? ttl cfg * 1000)%Z
        then Some (ce_response cached)
        else None
    | None => None
    end
  else None.

(** Lines 93-105: store the response, then drop the oldest key when the
    map has outgrown [maxSize]. *)
Definition store (cfg : config) (p : params) (r : response) (now : Z)
    (c : cache) : cache :=
  if useCache p then
    let c := cache_set c (cacheKey p) {| ce_response := r; timestamp := now |}
    in
    if (maxSize cfg <? Z.of_nat (List.length c))%Z then delete_first c
    else c
  else c.

(** The message of the final [throw], line 119; without a caught error
    [lastError.message] is itself a TypeError. *)
Definition failure_message (p : params) (lastError : option jsstring)
  : jsstring :=
  match lastError with
  | Some message =>
      js "AI request failed after "
      ++ js (string_of_Z (Z.of_nat (maxRetries p)))
      ++ js " attempts: " ++ message
  | None => js "Cannot read properties of undefined (reading 'message')"
  end.

(** The [for] loop of lines 88-117 from [attempt] on, with [remaining]
    turns left.  [callProvider k] is the outcome of the call made in turn
    [k], [now_store k] the clock when it came back. *)
Fixpoint attempts (cfg : config) (p : params)
    (callProvider : nat -> result response) (now_store : nat -> Z)
    (remaining attempt : nat) (lastError : option jsstring) (c : cache)
  : result response * cache :=
  match remaining with
  | O => (Throw (failure_message p lastError), c)
  | S remaining' =>
      match callProvider attempt with
      | Return r => (Return r, store cfg p r (now_store attempt) c)
      | Throw message =>
          attempts cfg p callProvider now_store remaining' (S attempt)
            (Some message) c
      end
  end.

(** [getCompletion], lines 56-120, for one call at a time; [now_check] is
    the clock at the cache check. *)
Definition getCompletion (cfg : config) (p : params) (now_check : Z)
    (callProvider : nat -> result response) (now_store : nat -> Z)
    (c : cache) : result response * cache :=
  match fresh_hit cfg p now_check c with
  | Some r => (Return r, c)
  | None =>
      if negb (agent_known cfg (agent p)) then
        (Throw (js "Unknown agent: " ++ agent p), c)
      else
        attempts cfg p callProvider now_store (maxRetries p) 0 None c
  end.

End WithResponse.
End AIService.

Arguments AIService.ce_response {response}.
Arguments AIService.timestamp {response}.
Arguments AIService.cache_get {response}.
Arguments AIService.cache_set {response}.
Arguments AIService.delete_first {response}.
Arguments AIService.fresh_hit {response}.
Arguments AIService.store {response}.
Arguments AIService.attempts {response}.
Arguments AIService.getCompletion {response}.

(** The configuration of lines 1177-1189 with one agent, and a provider
    that fails twice before it answers. *)
Definition example_config : AIService.config :=
  {| AIService.ttl := 3600;
     AIService.maxSize := 100;
     AIService.agent_known :=
       fun a => AIService.key_eqb a (js "chatAssistant") |}.

Definition example_params : AIService.params :=
  {| AIService.agent := js "chatAssistant";
     AIService.cacheKey := js "k1";
     AIService.useCache := true;
     AIService.maxRetries := 3 |}.

Definition flaky_provider (k : nat) : result jsstring :=
  if Nat.ltb k 2 then Throw (js "timeout") else Return (js "answer").

(* ===================================================================== *)
(** ** Bill predictions: server/routes/transactions.js, predictBillAmounts,
       lines 177-218 *)
(* ===================================================================== *)

Module Predictions.

(** The two columns of a row that the helper reads. *)
Record payment_row := {
  bill_name : string;
  actual_amount : Double.double
}.

(** An entry of [predictions]; [predicted] is absent until the second
    loop. *)
Record prediction := {
  billName : string;
  amounts : list Double.double;
  trend : string;
  predicted : option Double.double
}.

(** [predictions] is a plain object keyed by bill name, kept here as its
    own entries in creation order.  A lookup that finds no own entry goes
    on to [Object.prototype], whose property names are these. *)
Definition object_prototype_keys : list string :=
  ["constructor"; "__defineGetter__"; "__defineSetter__"; "hasOwnProperty";
   "__lookupGetter__"; "__lookupSetter__"; "isPrototypeOf";
   "propertyIsEnumerable"; "toString"; "valueOf"; "__proto__";
   "toLocaleString"].

Definition has_own (name : string) (predictions : list prediction) : bool :=
  existsb (fun e => String.eqb (billName e) name) predictions.

(** [predictions[name].amounts.push(amount)] on an own entry. *)
Definition push_amount (name : string) (amount : Double.double)
    (predictions : list prediction) : list prediction :=
  map (fun e =>
         if String.eqb (billName e) name
         then {| billName := billName e;
                 amounts := amounts e ++ [amount];
                 trend := trend e;
                 predicted := predicted e |}
         else e) predictions.

(** One turn of [billPayments.forEach], lines 180-189.  For a name that
    [Object.prototype] has, [!predictions[name]] is false, no entry is
    made, and [predictions[name].amounts] is [undefined]. *)
Definition collect (acc : result (list prediction)) (payment : payment_row)
  : result (list prediction) :=
  match acc with
  | Throw message => Throw message
  | Return predictions =>
      let name := bill_name payment in
      if has_own name predictions then
        Return (push_amount name (actual_amount payment) predictions)
      else if existsb (String.eqb name) object_prototype_keys then
        Throw (js "Cannot read properties of undefined (reading 'push')")
      else
        Return (predictions ++
                [ {| billName := name;
                     amounts := [actual_amount payment];
                     trend := "stable";
                     predicted := None |} ])
  end.

(** [l.reduce((sum, amt) => sum + amt, 0) / n] *)
Definition average (l : list Double.double) (n : nat) : Double.double :=
  Double.div (Double.sum l) (Double.of_Z (Z.of_nat n)).

(** One turn of [Object.keys(predictions).forEach], lines 192-215. *)
Definition predict_entry (e : prediction) : prediction :=
  let a := amounts e in
  if Nat.ltb (List.length a) 2 then
    {| billName := billName e;
       amounts := a;
       trend := "insufficient_data";
       predicted :=
         Some match a with
              | first :: _ => Double.or_zero first
              | [] => Double.zero
              end |}
  else
    let recentAmounts := skipn (List.length a - 3) a in
    let prediction := average recentAmounts (List.length recentAmounts) in
    let half := (List.length a / 2)%nat in
    let oldAvg := average (firstn half a) half in
    let newAvg := average (skipn half a) (List.length a - half) in
    {| billName := billName e;
       amounts := a;
       trend :=
         if Double.gtb newAvg (Double.mul oldAvg (Double.decimal 11 10))
         then "increasing"
         else if Double.ltb newAvg (Double.mul oldAvg (Double.decimal 9 10))
         then "decreasing"
         else "stable";
       predicted := Some prediction |}.

(** [predictBillAmounts], lines 177-218. *)
Definition predictBillAmounts (billPayments : list payment_row)
  : result (list prediction) :=
  match fold_left collect billPayments (Return []) with
  | Throw message => Throw message
  | Return predictions => Return (map predict_entry predictions)
  end.

(** The payments of one bill, in the order given. *)
Definition amounts_of (name : string) (billPayments : list payment_row)
  : list Double.double :=
  map actual_amount
    (filter (fun r => String.eqb (bill_name r) name) billPayments).

(** What the first loop keeps true of the entries made from the payments
    seen so far. *)
Definition collected (predictions : list prediction)
    (seen : list payment_row) : Prop :=
  NoDup (map billName predictions) /\
  (forall p, In p predictions ->
     amounts p = amounts_of (billName p) seen /\
     amounts p <> [] /\
     ~ In (billName p) object_prototype_keys) /\
  (forall row, In row seen ->
     In (bill_name row) (map billName predictions)).

(** What holds of a finished prediction: its amounts are the payments of
    the bill; one payment gives 'insufficient_data' and itself (0 when it
    is falsy) as the prediction; more give the average of the last three
    at most, and a trend read off the averages of the two halves. *)
Definition sound_prediction (billPayments : list payment_row)
    (p : prediction) : Prop :=
  let a := amounts_of (billName p) billPayments in
  amounts p = a /\
  a <> [] /\
  (trend p = "insufficient_data" <-> (List.length a < 2)%nat) /\
  In (trend p) ["insufficient_data"; "increasing"; "decreasing"; "stable"] /\
  ((List.length a < 2)%nat ->
   predicted p = Some (Double.or_zero (hd Double.zero a))) /\
  ((2 <= List.length a)%nat ->
   let recent := skipn (List.length a - 3) a in
   let half := (List.length a / 2)%nat in
   let oldAvg := average (firstn half a) half in
   let newAvg := average (skipn half a) (List.length a - half) in
   recent <> [] /\
   List.length recent = Nat.min 3 (List.length a) /\
   (1 <= half < List.length a)%nat /\
   predicted p = Some (average recent (List.length recent)) /\
   (trend p = "increasing" <->
    Double.gtb newAvg (Double.mul oldAvg (Double.decimal 11 10)) = true) /\
   (trend p = "decreasing" <->
    Double.gtb newAvg (Double.mul oldAvg (Double.decimal 11 10)) = false /\
    Double.ltb newAvg (Double.mul oldAvg (Double.decimal 9 10)) = true)).

End Predictions.

Definition example_payments : list Predictions.payment_row :=
  [ {| Predictions.bill_name := "Power"; Predictions.actual_amount := Double.of_Z 100 |};
    {| Predictions.bill_name := "Water"; Predictions.actual_amount := Double.of_Z 40 |};
    {| Predictions.bill_name := "Power"; Predictions.actual_amount := Double.of_Z 104 |};
    {| Predictions.bill_name := "Power"; Predictions.actual_amount := Double.of_Z 102 |}
  ].

(** Payments on which the rounding of the averages shows: three of 21.40,
    and three of 11.70 followed by three of 12.87, which is 11.70 and a
    tenth. *)
Definition paid (name : string) (cents : Z) : Predictions.payment_row :=
  {| Predictions.bill_name := name;
     Predictions.actual_amount := Double.decimal cents 100 |}.

Definition flat_payments : list Predictions.payment_row :=
  [paid "Phone" 2140; paid "Phone" 2140; paid "Phone" 2140].

Definition tenth_more_payments : list Predictions.payment_row :=
  [paid "Gas" 1170; paid "Gas" 1170; paid "Gas" 1170;
   paid "Gas" 1287; paid "Gas" 1287; paid "Gas" 1287].

(* ===================================================================== *)
(** * Theorems *)
(* ===================================================================== *)







(** The six rows of the table on an amount of 1200. *)
Example monthly_equivalents_of_1200 :
  map (IncomeSummary.calculateMonthlyIncome 1200) recognized_frequencies
  = [1200 * 52 / 12; 1200 * 26 / 12; 1200; 1200 / 3; 1200 / 12; 1200] /\
  1200 * 52 / 12 == 5200 /\ 1200 * 26 / 12 == 2600 /\
  1200 / 3 == 400 /\ 1200 / 12 == 100.
Proof. repeat split; reflexivity. Qed.

Lemma Qgtb_lt a b : Qgtb a b = true <-> b < a.
Proof.
  unfold Qgtb. rewrite negb_true_iff.
  destruct (Qle_bool a b) eqn:E.
  - apply Qle_bool_iff in E. split; [discriminate|]. intros H.
    exfalso. apply (Qlt_not_le _ _ H E).
  - split; [intros _|reflexivity].
    apply Qnot_le_lt. intros H. apply Qle_bool_iff in H. congruence.
Qed.

Lemma Qltb_lt a b : Qltb a b = true <-> a < b.
Proof. unfold Qltb. apply (Qgtb_lt b a). Qed.

Lemma Qgtb_not_lt a b : Qgtb a b = false <-> ~ b < a.
Proof.
  rewrite <- Qgtb_lt. destruct (Qgtb a b); split; congruence.
Qed.

Section AnalysisFacts.
Import Analysis.

Lemma in_rule1_step ti exp s :
  In s (rule1_step ti exp) <->
  Double.gtb (Double.mul (Double.div (total exp) ti) (Double.of_Z 100))
    (Double.of_Z 30) = true /\
  s = {| s_type := "high_spending";
         s_category := category exp;
         s_message :=
           HighSpendingMessage (category exp)
             (Double.mul (Double.div (total exp) ti) (Double.of_Z 100));
         potential_savings :=
           Double.mul (total exp) (Double.decimal 15 100) |}.
Proof.
  unfold rule1_step.
  destruct (Double.gtb _ (Double.of_Z 30)); simpl.
  - intuition congruence.
  - intuition discriminate.
Qed.

Lemma in_rule1 ti expenses s :
  In s (rule1 ti expenses) <->
  Double.gtb ti Double.zero = true /\
  exists exp, In exp expenses /\ In s (rule1_step ti exp).
Proof.
  unfold rule1. destruct (Double.gtb ti Double.zero).
  - rewrite in_flat_map. tauto.
  - simpl. intuition discriminate.
Qed.

Lemma rule2_type expenses s :
  In s (rule2 expenses) -> s_type s = "subscription_check".
Proof.
  unfold rule2. rewrite in_flat_map. intros (exp & _ & H).
  unfold rule2_step in H.
  destruct ((10 <? transaction_count exp)%Z
            && Double.ltb (avg_transaction exp) (Double.of_Z 50));
    simpl in H; [destruct H as [<-|[]]; reflexivity | contradiction].
Qed.

Lemma in_rule3 ti te s :
  In s (rule3 ti te) <->
  Double.ltb (Double.sub ti te) (Double.mul ti (Double.decimal 20 100))
  = true /\
  s = {| s_type := "savings_goal";
         s_category := "general";
         s_message :=
           SavingsGoalMessage (Double.mul ti (Double.decimal 20 100))
             (Double.sub ti te);
         potential_savings :=
           Double.sub (Double.mul ti (Double.decimal 20 100))
             (Double.sub ti te) |}.
Proof.
  unfold rule3. destruct (Double.ltb _ _); simpl.
  - intuition congruence.
  - intuition discriminate.
Qed.

Lemma in_suggestions expenses income_total s :
  In s (suggestions (analysis expenses income_total)) <->
  In s (rule1 (Double.column_or_zero income_total) expenses) \/
  In s (rule2 expenses) \/
  In s (rule3 (Double.column_or_zero income_total) (sum_totals expenses)).
Proof. unfold analysis. simpl. rewrite !in_app_iff. tauto. Qed.

(** The high-spending suggestions of a response are exactly those of
    rule 1; the other two rules use other [type] strings. *)
Lemma high_spending_from_rule1 expenses income_total s :
  In s (suggestions (analysis expenses income_total)) /\
    s_type s = "high_spending" <->
  In s (rule1 (Double.column_or_zero income_total) expenses).
Proof.
  rewrite in_suggestions. split.
  - intros [[H|[H|H]] Ht]; [exact H | |].
    + apply rule2_type in H. congruence.
    + apply in_rule3 in H. destruct H as [_ ->]. discriminate.
  - intros H. split; [tauto|].
    apply in_rule1 in H. destruct H as (_ & exp & _ & H).
    apply in_rule1_step in H. destruct H as [_ ->]. reflexivity.
Qed.

Lemma savings_goal_from_rule3 expenses income_total s :
  In s (suggestions (analysis expenses income_total)) /\
    s_type s = "savings_goal" <->
  In s (rule3 (Double.column_or_zero income_total) (sum_totals expenses)).
Proof.
  rewrite in_suggestions. split.
  - intros [[H|[H|H]] Ht]; [ | | exact H].
    + apply in_rule1 in H. destruct H as (_ & exp & _ & H).
      apply in_rule1_step in H. destruct H as [_ ->]. discriminate.
    + apply rule2_type in H. congruence.
  - intros H. split; [tauto|].
    apply in_rule3 in H. destruct H as [_ ->]. reflexivity.
Qed.

Lemma unique_category (expenses : list expense_row) e e' :
  NoDup (map category expenses) -> In e expenses -> In e' expenses ->
  category e = category e' -> e = e'.
Proof.
  induction expenses as [|x rest IH]; simpl; intros Hnd He He' E;
    [contradiction|].
  inversion Hnd as [|? ? Hnot Hrest]; subst.
  destruct He as [->|He], He' as [->|He']; auto.
  - exfalso. apply Hnot. rewrite E. apply in_map. exact He'.
  - exfalso. apply Hnot. rewrite <- E. apply in_map. exact He.
Qed.

End AnalysisFacts.

(** C4. The route decides on doubles.  Over the rows of the per-category
    query (one row per category) and with total income above 0, the
    response holds a [high_spending] suggestion for a category, with
    [potential_savings] the category total times 0.15, exactly when
    (total / income) * 100, rounded as the route computes it, exceeds 30;
    and every [high_spending] suggestion of the response is of that
    form. *)
Theorem C4_high_spending_iff_over_30_percent
    (expenses : list Analysis.expense_row) (income_total : option Double.double)
    (exp : Analysis.expense_row) :
  NoDup (map Analysis.category expenses) ->
  Double.gtb (Double.column_or_zero income_total) Double.zero = true ->
  In exp expenses ->
  let percentage_of e :=
    Double.mul
      (Double.div (Analysis.total e) (Double.column_or_zero income_total))
      (Double.of_Z 100) in
  ((exists s,
      In s (Analysis.suggestions (Analysis.analysis expenses income_total)) /\
      Analysis.s_type s = "high_spending" /\
      Analysis.s_category s = Analysis.category exp /\
      Analysis.potential_savings s
      = Double.mul (Analysis.total exp) (Double.decimal 15 100))
   <-> Double.gtb (percentage_of exp) (Double.of_Z 30) = true) /\
  (forall s,
      In s (Analysis.suggestions (Analysis.analysis expenses income_total)) ->
      Analysis.s_type s = "high_spending" ->
      exists e, In e expenses /\
        Analysis.s_category s = Analysis.category e /\
        Analysis.potential_savings s
        = Double.mul (Analysis.total e) (Double.decimal 15 100) /\
        Double.gtb (percentage_of e) (Double.of_Z 30) = true).
Proof.
  intros Hnd Hti Hin. cbv zeta. split; [split|].
  - intros (s & Hs & Ht & Hc & _).
    pose proof (proj1 (high_spending_from_rule1 _ _ _) (conj Hs Ht)) as Hr.
    apply in_rule1 in Hr as (_ & e & He & Hr).
    apply in_rule1_step in Hr as [Hover ->]. simpl in Hc.
    rewrite <- (unique_category expenses e exp Hnd He Hin Hc). exact Hover.
  - intros Hover. eexists. split; [|split; [|split]].
    + apply high_spending_from_rule1, in_rule1. split; [exact Hti|].
      exists exp. split; [exact Hin|].
      apply in_rule1_step. split; [exact Hover | reflexivity].
    + reflexivity.
    + reflexivity.
    + reflexivity.
  - intros s Hs Ht.
    pose proof (proj1 (high_spending_from_rule1 _ _ _) (conj Hs Ht)) as Hr.
    apply in_rule1 in Hr as (_ & e & He & Hr).
    apply in_rule1_step in Hr as [Hover ->].
    exists e. repeat split; assumption.
Qed.

(** Rent of 3,500 against an income of 10,000 is flagged with 525 of
    potential savings; rent of 2,000 is not flagged. *)
Lemma C4_high_spending_iff_over_30_percent_witness :
  (exists s,
     In s (Analysis.suggestions
             (Analysis.analysis [one_category (Double.of_Z 3500)]
                (Some (Double.of_Z 10000)))) /\
     Analysis.s_type s = "high_spending" /\
     Analysis.s_category s = "housing" /\
     Analysis.potential_savings s = Double.of_Z 525) /\
  ~ (exists s,
       In s (Analysis.suggestions
               (Analysis.analysis [one_category (Double.of_Z 2000)]
                  (Some (Double.of_Z 10000)))) /\
       Analysis.s_type s = "high_spending" /\
       Analysis.s_category s = "housing" /\
       Analysis.potential_savings s
       = Double.mul (Double.of_Z 2000) (Double.decimal 15 100)).
Proof.
  split.
  - destruct (proj2 (proj1 (C4_high_spending_iff_over_30_percent
                              [one_category (Double.of_Z 3500)]
                              (Some (Double.of_Z 10000))
                              (one_category (Double.of_Z 3500))
                              ltac:(repeat constructor; simpl; tauto)
                              ltac:(vm_compute; reflexivity)
                              ltac:(simpl; auto)))
                ltac:(vm_compute; reflexivity))
      as (s & Hs & Ht & Hc & Hp).
    exists s. repeat split; [exact Hs | exact Ht | exact Hc |].
    rewrite Hp. vm_compute. reflexivity.
  - intros H.
    apply (proj1 (C4_high_spending_iff_over_30_percent
                    [one_category (Double.of_Z 2000)]
                    (Some (Double.of_Z 10000))
                    (one_category (Double.of_Z 2000))
                    ltac:(repeat constructor; simpl; tauto)
                    ltac:(vm_compute; reflexivity)
                    ltac:(simpl; auto))) in H.
    vm_compute in H. discriminate H.
Defined.

(** The double 0.9 is above 30% of an income of 3, yet (0.9 / 3) * 100
    rounds to 30 and the category is not flagged. *)
Lemma C4_rounding_counterexample :
  (exists income spent,
     Double.value (Double.of_Z 3) = Some income /\
     Double.value (Double.decimal 9 10) = Some spent /\
     income == 3 /\
     (30 # 100) * income < spent) /\
  forall s,
    In s (Analysis.suggestions
            (Analysis.analysis boundary_month (Some (Double.of_Z 3)))) ->
    Analysis.s_type s <> "high_spending".
Proof.
  split.
  - eexists _, _. repeat split; vm_compute; reflexivity.
  - intros s Hs. vm_compute in Hs. contradiction.
Qed.

(** C5. The route decides on doubles.  The response holds a [savings_goal]
    suggestion exactly when actual savings (total income minus total
    expenses) compare below total income times 0.20, each rounded as the
    route computes it, and that suggestion's [potential_savings] is the
    difference of the two. *)
Theorem C5_savings_goal_iff_below_20_percent
    (expenses : list Analysis.expense_row)
    (income_total : option Double.double) :
  let r := Analysis.analysis expenses income_total in
  let actual_savings :=
    Double.sub (Analysis.total_income r) (Analysis.total_expenses r) in
  let recommended_savings :=
    Double.mul (Analysis.total_income r) (Double.decimal 20 100) in
  ((exists s, In s (Analysis.suggestions r) /\
              Analysis.s_type s = "savings_goal")
   <-> Double.ltb actual_savings recommended_savings = true) /\
  (forall s, In s (Analysis.suggestions r) ->
             Analysis.s_type s = "savings_goal" ->
             Analysis.potential_savings s
             = Double.sub recommended_savings actual_savings).
Proof.
  cbv zeta. split; [split|].
  - intros (s & Hs & Ht).
    pose proof (proj1 (savings_goal_from_rule3 _ _ _) (conj Hs Ht)) as Hr.
    apply in_rule3 in Hr as [Hlt _]. exact Hlt.
  - intros H. eexists.
    apply savings_goal_from_rule3, in_rule3. split; [exact H | reflexivity].
  - intros s Hs Ht.
    pose proof (proj1 (savings_goal_from_rule3 _ _ _) (conj Hs Ht)) as Hr.
    apply in_rule3 in Hr as [_ ->]. reflexivity.
Qed.

(** Income 5,000 and expenses 4,500: the savings-goal suggestion is there
    and is sized to 500. *)
Lemma C5_savings_goal_iff_below_20_percent_witness :
  exists s,
    In s (Analysis.suggestions
            (Analysis.analysis [one_category (Double.of_Z 4500)]
               (Some (Double.of_Z 5000)))) /\
    Analysis.s_type s = "savings_goal" /\
    Analysis.potential_savings s = Double.of_Z 500.
Proof.
  destruct (C5_savings_goal_iff_below_20_percent
              [one_category (Double.of_Z 4500)] (Some (Double.of_Z 5000)))
    as [[_ Hex] Hsize].
  destruct Hex as (s & Hin & Ht); [vm_compute; reflexivity|].
  exists s. repeat split; [exact Hin | exact Ht |].
  rewrite (Hsize s Hin Ht). vm_compute. reflexivity.
Defined.

(** Expenses of 186.60 and 5562.32 against an income of 7186.15: the
    savings of the exact figures are not below 20% of the income, yet the
    rounded subtraction falls below the rounded product and the
    suggestion is made. *)
Lemma C5_rounding_counterexample :
  (exists income food housing,
     Double.value (Double.decimal 718615 100) = Some income /\
     Double.value (Double.decimal 1866 10) = Some food /\
     Double.value (Double.decimal 556232 100) = Some housing /\
     ~ income - (food + housing) < (20 # 100) * income) /\
  exists s,
    In s (Analysis.suggestions
            (Analysis.analysis shortfall_month
               (Some (Double.decimal 718615 100)))) /\
    Analysis.s_type s = "savings_goal".
Proof.
  split.
  - eexists _, _, _. repeat split; try (vm_compute; reflexivity).
    vm_compute. discriminate.
  - eexists. split; [vm_compute; right; left; reflexivity | reflexivity].
Qed.

(* ===================================================================== *)
(** ** Bills: what holds of the CRUD routes, and where it stops *)
(* ===================================================================== *)

Section BillsFacts.
Import Bills.

Lemma update_bills_changes id userId b rows rows' n :
  update_bills id userId b rows = Some (rows', n) ->
  n = List.length (filter (bill_is id userId) rows).
Proof.
  revert rows' n. induction rows as [|r rest IH]; simpl; intros rows' n H.
  - inversion H. reflexivity.
  - destruct (update_bills id userId b rest) as [[rest' m]|]; [|discriminate].
    specialize (IH _ _ eq_refl).
    destruct (bill_is id userId r).
    + destruct (updated_bill b r); [|discriminate].
      inversion H. subst. reflexivity.
    + inversion H. subst. reflexivity.
Qed.

(** PUT on an id with no row of the caller: 404, database untouched. *)
Lemma put_bill_not_found userId id b d :
  filter (bill_is id userId) (bills d) = [] ->
  put_bill userId id b d = (respond 404 (Error "Bill not found"), d).
Proof.
  intros Hnone. unfold put_bill.
  destruct (update_bills id userId b (bills d)) as [[rows n]|] eqn:E.
  - apply update_bills_changes in E. rewrite Hnone in E. subst n.
    reflexivity.
  - exfalso. revert E Hnone. generalize (bills d).
    induction l as [|r rest IH]; simpl; [discriminate|].
    destruct (bill_is id userId r) eqn:Er; [discriminate|].
    intros E Hnone.
    destruct (update_bills id userId b rest) as [[rest' m]|];
      [discriminate | auto].
Qed.

(** DELETE of a payment id with no row of the caller: 404, untouched. *)
Lemma delete_payment_not_found userId payment_id d :
  filter (fun p => String.eqb (p_id p) payment_id
                   && String.eqb (p_user_id p) userId)
    (bill_payments d) = [] ->
  delete_payment userId payment_id d
  = (respond 404 (Error "Payment not found"), d).
Proof.
  intros Hnone. unfold delete_payment.
  assert (E : filter
                (fun p => negb (String.eqb (p_id p) payment_id
                                && String.eqb (p_user_id p) userId))
                (bill_payments d) = bill_payments d).
  { revert Hnone. generalize (bill_payments d).
    induction l as [|p rest IH]; simpl; [reflexivity|].
    destruct (String.eqb (p_id p) payment_id
              && String.eqb (p_user_id p) userId); simpl;
      [discriminate | intros H; f_equal; auto]. }
  rewrite E, Nat.sub_diag. reflexivity.
Qed.

(** A successful PUT writes the submitted values into the first row that
    GET /:id finds. *)
Lemma update_bills_find id userId b rows rows' n :
  update_bills id userId b rows = Some (rows', S n) ->
  exists old new,
    find (bill_is id userId) rows = Some old /\
    updated_bill b old = Some new /\
    find (bill_is id userId) rows' = Some new.
Proof.
  revert rows' n. induction rows as [|r rest IH]; simpl; intros rows' n H.
  - discriminate.
  - destruct (update_bills id userId b rest) as [[rest' m]|] eqn:E;
      [|discriminate].
    destruct (bill_is id userId r) eqn:Er.
    + destruct (updated_bill b r) as [r'|] eqn:Eu; [|discriminate].
      inversion H; subst. exists r, r'. repeat split; auto.
      simpl. unfold updated_bill in Eu.
      destruct (bb_bill_name b), (bb_bill_type b), (bb_target_amount b);
        try discriminate.
      destruct (in_list s0 bill_types); [|discriminate].
      inversion Eu; subst. unfold bill_is in *. simpl. rewrite Er.
      reflexivity.
    + inversion H; subst.
      destruct (IH _ _ eq_refl) as (old & new & H1 & H2 & H3).
      exists old, new. simpl. rewrite Er. auto.
Qed.

Lemma put_then_get userId id b d r d' :
  put_bill userId id b d = (r, d') ->
  status r = 200%Z ->
  exists row history,
    get_bill userId id d' = respond 200 (BillWithHistory row history) /\
    bb_bill_name b = Some (bill_name row) /\
    bb_bill_type b = Some (bill_type row) /\
    option_map number_of (bb_target_amount b) = Some (target_amount row) /\
    bb_due_day b = due_day row /\
    is_active row = Some (if bb_is_active b then 1 else 0)%Z /\
    bb_notes b = notes row.
Proof.
  unfold put_bill. intros H Hs.
  destruct (update_bills id userId b (bills d)) as [[rows n]|] eqn:E.
  - destruct n as [|n]; simpl in H; inversion H; subst; [discriminate|].
    destruct (update_bills_find _ _ _ _ _ _ E) as (old & new & _ & Hu & Hf).
    unfold get_bill. simpl. rewrite Hf.
    eexists _, _. split; [reflexivity|].
    unfold updated_bill in Hu.
    destruct (bb_bill_name b), (bb_bill_type b), (bb_target_amount b);
      try discriminate.
    destruct (in_list s0 bill_types); [|discriminate].
    inversion Hu; subst; simpl. repeat split; reflexivity.
  - inversion H; subst. discriminate.
Qed.

(** The listing routes that do filter on the caller. *)
Lemma get_bills_scoped userId q d rows :
  get_bills userId q d = respond 200 (BillRows rows) ->
  forall b, In b rows -> b_user_id b = userId.
Proof.
  unfold get_bills, respond. intros H b Hb. inversion H as [Hr]. clear H.
  assert (Hsub : forall (l : list bill) x,
             In x (order_by bill_name false l) -> In x l).
  { intros l x. unfold order_by. induction l as [|y l IH]; simpl; [tauto|].
    generalize dependent (fold_right
      (fun x0 acc => insert_by bill_name false x0 acc) [] l).
    intros acc IH Hx.
    assert (Hins : forall a, In x (insert_by bill_name false y a) ->
                             x = y \/ In x a).
    { induction a as [|z a IHa]; simpl.
      - intros [->|[]]; auto.
      - destruct (String.ltb (bill_name y) (bill_name z)); simpl.
        + intros [->|[->|Hin]]; auto.
        + intros [->|Hin]; auto. destruct (IHa Hin); auto. }
    destruct (Hins _ Hx) as [->|Hin]; auto. }
  subst rows. apply Hsub in Hb.
  assert (Ho : In b (filter (owned_by userId) (bills d))).
  { destruct q; [|exact Hb]. apply filter_In in Hb. tauto. }
  apply filter_In in Ho. destruct Ho as [_ Ho].
  unfold owned_by in Ho. apply String.eqb_eq in Ho. exact Ho.
Qed.

(** The statements that carry [user_id = ?] leave the rows of every
    other user alone. *)
Lemma update_bills_others id userId b rows rows' n other :
  update_bills id userId b rows = Some (rows', n) ->
  other <> userId ->
  filter (owned_by other) rows' = filter (owned_by other) rows.
Proof.
  intros H Hother. revert rows' n H.
  induction rows as [|r rest IH]; simpl; intros rows' n H.
  - inversion H. reflexivity.
  - destruct (update_bills id userId b rest) as [[rest' m]|]; [|discriminate].
    specialize (IH _ _ eq_refl).
    destruct (bill_is id userId r) eqn:Er.
    + destruct (updated_bill b r) as [r'|] eqn:Eu; [|discriminate].
      inversion H; subst. simpl.
      unfold bill_is in Er. apply andb_true_iff in Er. destruct Er as [_ Er].
      apply String.eqb_eq in Er.
      assert (Hr' : b_user_id r' = b_user_id r).
      { unfold updated_bill in Eu.
        destruct (bb_bill_name b), (bb_bill_type b), (bb_target_amount b);
          try discriminate.
        destruct (in_list s0 bill_types); [|discriminate].
        inversion Eu. reflexivity. }
      unfold owned_by. rewrite Hr', Er.
      destruct (String.eqb_spec userId other); [congruence|]. exact IH.
    + inversion H; subst. simpl. rewrite IH. reflexivity.
Qed.

Lemma put_bill_scoped userId id b d r d' other :
  put_bill userId id b d = (r, d') ->
  other <> userId ->
  filter (owned_by other) (bills d') = filter (owned_by other) (bills d) /\
  bill_payments d' = bill_payments d.
Proof.
  unfold put_bill. intros H Hother.
  destruct (update_bills id userId b (bills d)) as [[rows n]|] eqn:E.
  - destruct (Nat.eqb n 0); inversion H; subst; simpl; [tauto|].
    split; [|reflexivity]. eapply update_bills_others; eassumption.
  - inversion H; subst. tauto.
Qed.

Lemma filter_filter_others {A} (mine theirs : A -> bool) rows :
  (forall x, theirs x = true -> mine x = false) ->
  filter theirs (filter (fun x => negb (mine x)) rows) = filter theirs rows.
Proof.
  intros H. induction rows as [|x rest IH]; simpl; [reflexivity|].
  destruct (theirs x) eqn:Et.
  - rewrite (H x Et). simpl. rewrite Et, IH. reflexivity.
  - destruct (mine x); simpl; [|rewrite Et]; exact IH.
Qed.

Lemma delete_payment_scoped userId payment_id d r d' other :
  delete_payment userId payment_id d = (r, d') ->
  other <> userId ->
  filter (fun p => String.eqb (p_user_id p) other) (bill_payments d')
  = filter (fun p => String.eqb (p_user_id p) other) (bill_payments d) /\
  bills d' = bills d.
Proof.
  unfold delete_payment. intros H Hother.
  destruct (Nat.eqb _ 0); inversion H; subst; simpl; [tauto|].
  split; [|reflexivity].
  apply (filter_filter_others
           (fun p => String.eqb (p_id p) payment_id
                     && String.eqb (p_user_id p) userId)).
  intros p Hp. apply String.eqb_eq in Hp.
  destruct (String.eqb_spec (p_user_id p) userId); [congruence|].
  apply andb_false_r.
Qed.

(** DELETE /:id is scoped on [bills]; its first statement, on
    [bill_payments], is not (see [bob_db] below). *)
Lemma delete_bill_bills_scoped userId id d other :
  other <> userId ->
  filter (owned_by other) (bills (snd (delete_bill userId id d)))
  = filter (owned_by other) (bills d).
Proof.
  intros Hother. unfold delete_bill.
  destruct (Nat.eqb _ 0); simpl;
    apply (filter_filter_others (bill_is id userId));
    intros x Hx; unfold owned_by in Hx; apply String.eqb_eq in Hx;
    unfold bill_is;
    (destruct (String.eqb_spec (b_user_id x) userId); [congruence|]);
    apply andb_false_r.
Qed.

End BillsFacts.

(** [bob_db] is what two requests of bob leave behind. *)
Lemma bob_db_reachable :
  let d0 := {| Bills.bills := []; Bills.bill_payments := [] |} in
  let (r1, d1) :=
    Bills.post_bill "bob"
      {| Bills.bb_bill_name := Some "Power";
         Bills.bb_bill_type := Some "electric";
         Bills.bb_target_amount := Some (Bills.JsonNumber 120);
         Bills.bb_due_day := Some 5%Z;
         Bills.bb_is_active := true;
         Bills.bb_notes := None |} "b1" "2024-01-01 00:00:00" d0 in
  let (r2, d2) :=
    Bills.post_payment "bob" "b1"
      {| Bills.pb_amount_paid := Some (Bills.JsonNumber 118);
         Bills.pb_payment_date := Some "2024-01-15";
         Bills.pb_notes := None |} "p1" "2024-01-15 09:00:00" d1 in
  (Bills.status r1, Bills.status r2) = (201, 201)%Z /\ d2 = bob_db.
Proof. vm_compute. split; reflexivity. Qed.

(** C7. Rows are scoped to their owner except in the two bill-payment
    paths: with alice authenticated, GET /b1/payments returns bob's payment
    and DELETE /b1 answers 404 after deleting bob's payment. *)
Theorem C7_bill_payments_cross_user :
  Bills.get_bill_payments "alice" "b1" None bob_db
    = Bills.respond 200 (Bills.PaymentRows [bob_payment]) /\
  Bills.p_user_id bob_payment = "bob" /\
  Bills.delete_bill "alice" "b1" bob_db
    = (Bills.respond 404 (Bills.Error "Bill not found"),
       {| Bills.bills := [bob_bill]; Bills.bill_payments := [] |}).
Proof. repeat split. Qed.

(** C8. DELETE of a bill id that has no row for the caller answers 404 and
    leaves [bills] as it was, but the payments recorded for that id are
    gone: the [bill_payments] row count drops from 1 to 0. *)
Theorem C8_delete_missing_bill_removes_payments :
  let (r, d') := Bills.delete_bill "alice" "b1" bob_db in
  Bills.status r = 404%Z /\
  Bills.bills d' = Bills.bills bob_db /\
  List.length (Bills.bill_payments bob_db) = 1%nat /\
  List.length (Bills.bill_payments d') = 0%nat.
Proof. repeat split. Qed.

(** [zero_target_db] is what three requests of alice leave behind. *)
Lemma zero_target_db_reachable :
  let d0 := {| Bills.bills := []; Bills.bill_payments := [] |} in
  let (r1, d1) :=
    Bills.post_bill "alice" (water_body 40) "b2" "2024-01-01 00:00:00" d0 in
  let (r2, d2) := Bills.put_bill "alice" "b2" (water_body 0) d1 in
  let (r3, d3) :=
    Bills.post_payment "alice" "b2"
      {| Bills.pb_amount_paid := Some (Bills.JsonNumber 50);
         Bills.pb_payment_date := Some "2024-01-15";
         Bills.pb_notes := None |} "p2" "2024-01-15 09:00:00" d2 in
  (Bills.status r1, Bills.status r2, Bills.status r3)
    = (201, 200, 201)%Z /\
  d3 = zero_target_db.
Proof. vm_compute. split; reflexivity. Qed.

Lemma guarded_percent_zero_target actual target :
  target <= 0 -> BillAnalytics.guarded_percent actual target = JNum 0.
Proof.
  intros H. unfold BillAnalytics.guarded_percent.
  destruct (Qgtb target 0) eqn:E; [|reflexivity].
  apply Qgtb_lt in E. exfalso. apply (Qlt_not_le _ _ E H).
Qed.

Lemma guarded_percent_formula actual target :
  0 < target ->
  BillAnalytics.guarded_percent actual target
  = JStr (toFixed1_finite ((actual - target) / target * 100)).
Proof.
  intros H. unfold BillAnalytics.guarded_percent.
  apply Qgtb_lt in H. rewrite H. reflexivity.
Qed.

Lemma unguarded_percent_formula actual target :
  ~ target == 0 ->
  BillAnalytics.unguarded_percent actual target
  = JStr (toFixed1_finite ((actual - target) / target * 100)).
Proof.
  intros H. unfold BillAnalytics.unguarded_percent, js_div.
  destruct (Qeq_bool target 0) eqn:E; [|reflexivity].
  apply Qeq_bool_iff in E. contradiction.
Qed.

(** C3. For a bill whose target is 0 the per-bill average reports 0, but
    the per-month trend entry of the summary and the entry of the trends
    endpoint divide by the target unguarded and report "Infinity". *)
Theorem C3_zero_target_trend_percent_unguarded :
  let s := BillAnalytics.analytics_summary "alice" "2023-08" zero_target_db in
  map BillAnalytics.bt_variance_percent (BillAnalytics.bills_with_trends s)
    = [JNum 0] /\
  BillAnalytics.overall_variance_percent s = Some (JNum 0) /\
  map BillAnalytics.t_variance_percent
      (flat_map BillAnalytics.trend_data (BillAnalytics.bills_with_trends s))
    = [JStr "Infinity"] /\
  map BillAnalytics.m_variance_percent
      (BillAnalytics.analytics_trends "alice" "2023-08" zero_target_db)
    = [JStr "Infinity"].
Proof. vm_compute. repeat split. Qed.

Section WealthFacts.
Import Wealth.











End WealthFacts.


(* ===================================================================== *)
(** ** Hex, [split] and UTF-8 *)
(* ===================================================================== *)

Ltac Zify.zify_post_hook ::= Z.to_euclidean_division_equations.

Lemma to_N_byte_of_N n : (n < 256)%N -> Byte.to_N (byte_of_N n) = n.
Proof.
  intros H. unfold byte_of_N.
  destruct (Byte.of_N n) as [b|] eqn:E.
  - apply Byte.to_of_N. exact E.
  - apply Byte.of_N_None_iff in E. lia.
Qed.

Lemma byte_of_N_to_N b : byte_of_N (Byte.to_N b) = b.
Proof. unfold byte_of_N. rewrite Byte.of_to_N. reflexivity. Qed.

Lemma hex_value_digit nibble :
  (nibble < 16)%N -> hex_value (hex_digit nibble) = Some nibble.
Proof.
  intros H. unfold hex_digit, hex_value.
  destruct (N.ltb_spec nibble 10).
  - replace ((48 <=? 48 + nibble) && (48 + nibble <=? 57))%N with true.
    + f_equal. lia.
    + symmetry. apply andb_true_iff. split; apply N.leb_le; lia.
  - replace ((48 <=? 87 + nibble) && (87 + nibble <=? 57))%N with false.
    + replace ((97 <=? 87 + nibble) && (87 + nibble <=? 102))%N with true.
      * f_equal. lia.
      * symmetry. apply andb_true_iff. split; apply N.leb_le; lia.
    + symmetry. apply andb_false_iff. right. apply N.leb_gt. lia.
Qed.

Lemma hex_digit_not_colon nibble : hex_digit nibble <> colon.
Proof.
  unfold hex_digit, colon. destruct (N.ltb_spec nibble 10); lia.
Qed.

Lemma hex_encode_no_colon bytes : ~ In colon (hex_encode bytes).
Proof.
  induction bytes as [|b rest IH]; simpl; [tauto|].
  intros [H|[H|H]]; [| |tauto]; exact (hex_digit_not_colon _ H).
Qed.

(** [Buffer.from(buf.toString('hex'), 'hex')] is [buf]. *)
Lemma hex_decode_encode bytes : hex_decode (hex_encode bytes) = bytes.
Proof.
  induction bytes as [|b rest IH]; [reflexivity|].
  cbn [hex_encode hex_decode].
  pose proof (Byte.to_N_bounded b) as Hb.
  rewrite !hex_value_digit by lia.
  rewrite IH. f_equal.
  rewrite <- (byte_of_N_to_N b) at 3. f_equal. lia.
Qed.

Lemma split_no_separator sep s : ~ In sep s -> split sep s = [s].
Proof.
  induction s as [|c rest IH]; simpl; intros H; [reflexivity|].
  destruct (N.eqb_spec c sep) as [->|Hne]; [tauto|].
  rewrite IH by tauto. reflexivity.
Qed.

Lemma split_app sep s rest :
  ~ In sep s -> split sep (s ++ sep :: rest) = s :: split sep rest.
Proof.
  induction s as [|c s' IH]; simpl; intros H.
  - rewrite N.eqb_refl. reflexivity.
  - destruct (N.eqb_spec c sep) as [->|Hne]; [tauto|].
    rewrite IH by tauto. reflexivity.
Qed.

(** The three parts of [`${a}:${b}:${c}`] come back when none of them holds
    a colon. *)
Lemma split_three a b c :
  ~ In colon a -> ~ In colon b -> ~ In colon c ->
  split colon (a ++ colon :: b ++ colon :: c) = [a; b; c].
Proof.
  intros Ha Hb Hc.
  rewrite (split_app colon a) by exact Ha.
  rewrite (split_app colon b) by exact Hb.
  rewrite split_no_separator by exact Hc. reflexivity.
Qed.

Ltac to_N_bytes :=
  repeat rewrite to_N_byte_of_N by lia.

Ltac decide_tests :=
  repeat match goal with
  | |- context [(?a <? ?b)%N] =>
      first [ rewrite (proj2 (N.ltb_lt a b)) by lia
            | rewrite (proj2 (N.ltb_ge a b)) by lia ]
  | |- context [(?a <=? ?b)%N] =>
      first [ rewrite (proj2 (N.leb_le a b)) by lia
            | rewrite (proj2 (N.leb_gt a b)) by lia ]
  end.

(** The base-64 digits of a code point, which the lead and continuation
    bytes carry. *)
Lemma digits_two cp :
  (cp < 2048)%N ->
  (cp / 64 < 32 /\ cp mod 64 < 64 /\ cp = cp / 64 * 64 + cp mod 64)%N.
Proof. lia. Qed.

Lemma digits_three cp :
  (cp < 65536)%N ->
  (cp / 4096 < 16 /\ (cp / 64) mod 64 < 64 /\ cp mod 64 < 64 /\
   cp = cp / 4096 * 4096 + (cp / 64) mod 64 * 64 + cp mod 64)%N.
Proof. lia. Qed.

Lemma digits_four cp :
  (cp <= 1114111)%N ->
  (cp / 262144 < 5 /\ (cp / 4096) mod 64 < 64 /\ (cp / 64) mod 64 < 64 /\
   cp mod 64 < 64 /\
   cp = cp / 262144 * 262144 + (cp / 4096) mod 64 * 4096
        + (cp / 64) mod 64 * 64 + cp mod 64)%N.
Proof. lia. Qed.

Section DecoderSteps.
Variables (b : Byte.byte) (rest : list Byte.byte).

Lemma step_idle_ascii :
  (Byte.to_N b < 128)%N ->
  utf8_decode_from Idle (b :: rest)
  = Byte.to_N b :: utf8_decode_from Idle rest.
Proof. intros H. cbn [utf8_decode_from]. decide_tests. reflexivity. Qed.

Lemma step_idle_lead st :
  (128 <= Byte.to_N b)%N ->
  utf8_lead (Byte.to_N b) = Some st ->
  utf8_decode_from Idle (b :: rest) = utf8_decode_from st rest.
Proof.
  intros H E. cbn [utf8_decode_from]. decide_tests. rewrite E. reflexivity.
Qed.

Lemma step_pending_more cp k lower upper :
  (lower <= Byte.to_N b <= upper)%N ->
  utf8_decode_from (Pending cp (S (S k)) lower upper) (b :: rest)
  = utf8_decode_from
      (Pending (cp * 64 + (Byte.to_N b - 128)) (S k) 128 191) rest.
Proof. intros H. cbn [utf8_decode_from]. decide_tests. reflexivity. Qed.

Lemma step_pending_last cp lower upper :
  (lower <= Byte.to_N b <= upper)%N ->
  utf8_decode_from (Pending cp 1 lower upper) (b :: rest)
  = units_of_code_point (cp * 64 + (Byte.to_N b - 128))
      ++ utf8_decode_from Idle rest.
Proof. intros H. cbn [utf8_decode_from]. decide_tests. reflexivity. Qed.

End DecoderSteps.

Lemma utf8_lead_two n :
  (194 <= n <= 223)%N -> utf8_lead n = Some (Pending (n - 192) 1 128 191).
Proof. intros H. unfold utf8_lead. decide_tests. reflexivity. Qed.

Lemma utf8_lead_three n :
  (224 <= n <= 239)%N ->
  utf8_lead n
  = Some (Pending (n - 224) 2 (if n =? 224 then 160 else 128)%N
            (if n =? 237 then 159 else 191)%N).
Proof. intros H. unfold utf8_lead. decide_tests. reflexivity. Qed.

Lemma utf8_lead_four n :
  (240 <= n <= 244)%N ->
  utf8_lead n
  = Some (Pending (n - 240) 3 (if n =? 240 then 144 else 128)%N
            (if n =? 244 then 143 else 191)%N).
Proof. intros H. unfold utf8_lead. decide_tests. reflexivity. Qed.

Lemma units_of_bmp cp : (cp < 65536)%N -> units_of_code_point cp = [cp].
Proof. intros H. unfold units_of_code_point. decide_tests. reflexivity. Qed.

Lemma not_surrogate cp :
  is_high_surrogate cp = false -> is_low_surrogate cp = false ->
  (cp < 55296 \/ 57343 < cp)%N.
Proof.
  unfold is_high_surrogate, is_low_surrogate. intros Hh Hl.
  apply andb_false_iff in Hh, Hl.
  destruct Hh as [Hh|Hh], Hl as [Hl|Hl];
    try apply N.leb_gt in Hh; try apply N.leb_gt in Hl; lia.
Qed.

Lemma utf8_decode_ascii cp rest :
  (cp < 128)%N ->
  utf8_decode_from Idle (utf8_of_code_point cp ++ rest)
  = cp :: utf8_decode_from Idle rest.
Proof.
  intros H. unfold utf8_of_code_point. decide_tests. cbn [app].
  rewrite step_idle_ascii; to_N_bytes; [reflexivity | lia].
Qed.

Lemma utf8_decode_two cp rest :
  (128 <= cp < 2048)%N ->
  utf8_decode_from Idle (utf8_of_code_point cp ++ rest)
  = cp :: utf8_decode_from Idle rest.
Proof.
  intros H. unfold utf8_of_code_point. decide_tests.
  destruct (digits_two cp) as (H0 & H1 & Hcp); [lia|].
  set (x0 := (cp / 64)%N) in *. set (x1 := (cp mod 64)%N) in *.
  clearbody x0 x1. cbn [app].
  erewrite step_idle_lead;
    [ | to_N_bytes; lia | to_N_bytes; apply utf8_lead_two; lia ].
  rewrite step_pending_last by (to_N_bytes; lia). to_N_bytes.
  rewrite units_of_bmp by lia. cbn [app]. f_equal. lia.
Qed.

Lemma utf8_decode_three cp rest :
  (2048 <= cp < 65536)%N ->
  is_high_surrogate cp = false -> is_low_surrogate cp = false ->
  utf8_decode_from Idle (utf8_of_code_point cp ++ rest)
  = cp :: utf8_decode_from Idle rest.
Proof.
  intros H Hh Hl. pose proof (not_surrogate cp Hh Hl) as Hs.
  unfold utf8_of_code_point. decide_tests.
  destruct (digits_three cp) as (H0 & H1 & H2 & Hcp); [lia|].
  set (x0 := (cp / 4096)%N) in *. set (x1 := ((cp / 64) mod 64)%N) in *.
  set (x2 := (cp mod 64)%N) in *. clearbody x0 x1 x2. cbn [app].
  erewrite step_idle_lead;
    [ | to_N_bytes; lia | to_N_bytes; apply utf8_lead_three; lia ].
  rewrite step_pending_more.
  - rewrite step_pending_last by (to_N_bytes; lia). to_N_bytes.
    rewrite units_of_bmp by lia. cbn [app]. f_equal. lia.
  - to_N_bytes.
    destruct (N.eqb_spec (224 + x0) 224), (N.eqb_spec (224 + x0) 237); lia.
Qed.

Lemma utf8_decode_four cp rest :
  (65536 <= cp <= 1114111)%N ->
  utf8_decode_from Idle (utf8_of_code_point cp ++ rest)
  = units_of_code_point cp ++ utf8_decode_from Idle rest.
Proof.
  intros H. unfold utf8_of_code_point. decide_tests.
  destruct (digits_four cp) as (H0 & H1 & H2 & H3 & Hcp); [lia|].
  set (x0 := (cp / 262144)%N) in *. set (x1 := ((cp / 4096) mod 64)%N) in *.
  set (x2 := ((cp / 64) mod 64)%N) in *. set (x3 := (cp mod 64)%N) in *.
  clearbody x0 x1 x2 x3. cbn [app].
  erewrite step_idle_lead;
    [ | to_N_bytes; lia | to_N_bytes; apply utf8_lead_four; lia ].
  rewrite step_pending_more.
  - rewrite step_pending_more by (to_N_bytes; lia).
    rewrite step_pending_last by (to_N_bytes; lia). to_N_bytes.
    f_equal. f_equal. lia.
  - to_N_bytes.
    destruct (N.eqb_spec (240 + x0) 240), (N.eqb_spec (240 + x0) 244); lia.
Qed.

Lemma utf8_decode_replacement rest :
  utf8_decode_from Idle (replacement_bytes ++ rest)
  = replacement_character :: utf8_decode_from Idle rest.
Proof. reflexivity. Qed.

Lemma units_of_surrogate_pair c d :
  is_high_surrogate c = true -> is_low_surrogate d = true ->
  let cp := (65536 + (c - 55296) * 1024 + (d - 56320))%N in
  (65536 <= cp <= 1114111)%N /\ units_of_code_point cp = [c; d].
Proof.
  unfold is_high_surrogate, is_low_surrogate. intros Hc Hd.
  apply andb_true_iff in Hc, Hd.
  destruct Hc as [Hc1 Hc2], Hd as [Hd1 Hd2].
  apply N.leb_le in Hc1, Hc2, Hd1, Hd2. cbv zeta.
  split; [lia|]. unfold units_of_code_point.
  destruct (N.ltb_spec (65536 + (c - 55296) * 1024 + (d - 56320)) 65536);
    [lia|].
  f_equal; [lia|]. f_equal. lia.
Qed.

Lemma utf8_decode_unit c rest :
  is_high_surrogate c = false -> is_low_surrogate c = false ->
  (c < 65536)%N ->
  utf8_decode_from Idle (utf8_of_code_point c ++ rest)
  = c :: utf8_decode_from Idle rest.
Proof.
  intros Hh Hl Hc.
  destruct (N.ltb_spec c 128); [apply utf8_decode_ascii; lia|].
  destruct (N.ltb_spec c 2048); [apply utf8_decode_two; lia|].
  apply utf8_decode_three; [lia | assumption | assumption].
Qed.

Lemma utf8_roundtrip_bounded n : forall s,
  (List.length s <= n)%nat ->
  well_formed s = true -> utf8_decode (utf8_encode s) = s.
Proof.
  unfold utf8_decode.
  induction n as [|n IH]; intros s Hlen Hwf.
  - destruct s; [reflexivity | simpl in Hlen |- *; lia].
  - destruct s as [|c rest]; [reflexivity|].
    cbn [well_formed utf8_encode] in *.
    destruct (is_high_surrogate c) eqn:Hh.
    + destruct rest as [|d rest']; [discriminate|].
      apply andb_true_iff in Hwf. destruct Hwf as [Hd Hwf].
      rewrite Hd.
      destruct (units_of_surrogate_pair c d Hh Hd) as [Hr Hu].
      rewrite utf8_decode_four by exact Hr. rewrite Hu.
      rewrite IH; [reflexivity | simpl in Hlen |- *; lia | exact Hwf].
    + apply andb_true_iff in Hwf. destruct Hwf as [Hwf Hrest].
      apply andb_true_iff in Hwf. destruct Hwf as [Hl Hc].
      apply negb_true_iff in Hl. apply N.ltb_lt in Hc.
      rewrite Hl. rewrite utf8_decode_unit by assumption.
      rewrite IH; [reflexivity | simpl in Hlen |- *; lia | exact Hrest].
Qed.

(** Decoding the UTF-8 bytes of a string without unpaired surrogates gives
    the string back. *)
Lemma utf8_roundtrip s :
  well_formed s = true -> utf8_decode (utf8_encode s) = s.
Proof. apply (utf8_roundtrip_bounded (List.length s)). lia. Qed.

(** In general the bytes decode to the well-formed version of the string:
    this is all that UTF-8 keeps of it. *)
Lemma utf8_decode_encode_bounded n : forall s,
  (List.length s <= n)%nat ->
  code_units s -> utf8_decode (utf8_encode s) = toWellFormed s.
Proof.
  unfold utf8_decode, code_units.
  induction n as [|n IH]; intros s Hlen Hu.
  - destruct s; [reflexivity | simpl in Hlen |- *; lia].
  - destruct s as [|c rest]; [reflexivity|].
    inversion Hu as [|? ? Hc Hrest]; subst.
    cbn [toWellFormed utf8_encode].
    destruct (is_high_surrogate c) eqn:Hh.
    + destruct rest as [|d rest']; [reflexivity|].
      inversion Hrest as [|? ? Hd Hrest']; subst.
      destruct (is_low_surrogate d) eqn:Hl.
      * destruct (units_of_surrogate_pair c d Hh Hl) as [Hr Hpair].
        rewrite utf8_decode_four by exact Hr. rewrite Hpair.
        rewrite IH; [reflexivity | simpl in Hlen |- *; lia | exact Hrest'].
      * rewrite utf8_decode_replacement.
        rewrite IH; [reflexivity | simpl in Hlen |- *; lia | exact Hrest].
    + destruct (is_low_surrogate c) eqn:Hl.
      * rewrite utf8_decode_replacement.
        rewrite IH; [reflexivity | simpl in Hlen |- *; lia | exact Hrest].
      * rewrite utf8_decode_unit by assumption.
        rewrite IH; [reflexivity | simpl in Hlen |- *; lia | exact Hrest].
Qed.

Lemma utf8_decode_encode s :
  code_units s -> utf8_decode (utf8_encode s) = toWellFormed s.
Proof. apply (utf8_decode_encode_bounded (List.length s)). lia. Qed.

Lemma well_formed_code_units s : well_formed s = true -> code_units s.
Proof.
  unfold code_units.
  assert (H : forall n s, (List.length s <= n)%nat ->
                well_formed s = true -> Forall (fun c => (c < 65536)%N) s).
  { induction n as [|n IH]; intros t Hlen Hwf.
    - destruct t; [constructor | simpl in Hlen |- *; lia].
    - destruct t as [|c rest]; [constructor|]. cbn [well_formed] in Hwf.
      destruct (is_high_surrogate c) eqn:Hh.
      + destruct rest as [|d rest']; [discriminate|].
        apply andb_true_iff in Hwf. destruct Hwf as [Hd Hwf].
        unfold is_high_surrogate in Hh. unfold is_low_surrogate in Hd.
        apply andb_true_iff in Hh, Hd.
        destruct Hh as [_ Hh], Hd as [_ Hd]. apply N.leb_le in Hh, Hd.
        constructor; [lia|]. constructor; [lia|].
        apply IH; [simpl in Hlen |- *; lia | exact Hwf].
      + apply andb_true_iff in Hwf. destruct Hwf as [Hwf Hrest].
        apply andb_true_iff in Hwf. destruct Hwf as [_ Hc].
        apply N.ltb_lt in Hc. constructor; [exact Hc|].
        apply IH; [simpl in Hlen |- *; lia | exact Hrest]. }
  apply (H (List.length s)). lia.
Qed.

(** A string is its own well-formed version exactly when it has no
    unpaired surrogate. *)
Lemma toWellFormed_fixed s :
  code_units s -> (toWellFormed s = s <-> well_formed s = true).
Proof.
  intros Hu. split.
  - assert (H : forall n t, (List.length t <= n)%nat -> code_units t ->
                  toWellFormed t = t -> well_formed t = true).
    { induction n as [|n IH]; intros t Hlen Ht E.
      - destruct t; [reflexivity | simpl in Hlen |- *; lia].
      - destruct t as [|c rest]; [reflexivity|].
        inversion Ht as [|? ? Hc Hrest]; subst.
        cbn [toWellFormed well_formed] in *.
        destruct (is_high_surrogate c) eqn:Hh.
        + destruct rest as [|d rest'].
          * inversion E as [Ec]. rewrite <- Ec in Hh. discriminate Hh.
          * inversion Hrest as [|? ? Hd Hrest']; subst.
            destruct (is_low_surrogate d) eqn:Hl.
            -- inversion E as [E']. rewrite E'.
               apply IH; [simpl in Hlen |- *; lia | exact Hrest' | exact E'].
            -- inversion E as [[Ec E']]. rewrite <- Ec in Hh.
               discriminate Hh.
        + destruct (is_low_surrogate c) eqn:Hl.
          * inversion E as [[Ec E']]. rewrite <- Ec in Hl. discriminate Hl.
          * inversion E as [E']. rewrite E'. apply N.ltb_lt in Hc.
            rewrite Hc. simpl.
            apply IH; [simpl in Hlen |- *; lia | exact Hrest | exact E']. }
    apply (H (List.length s)); [lia | exact Hu].
  - intros Hwf. rewrite <- (utf8_decode_encode s Hu).
    apply utf8_roundtrip. exact Hwf.
Qed.

(* ===================================================================== *)
(** ** Token encryption *)
(* ===================================================================== *)

Section EncryptionFacts.
Context {crypto : Crypto}.
Import Encryption.

Lemma encrypt_falsy iv v :
  truthy v = false ->
  encrypt iv v = Throw (js "Text to encrypt cannot be empty").
Proof. intros H. unfold encrypt. rewrite H. reflexivity. Qed.

Lemma decrypt_falsy v :
  truthy v = false ->
  decrypt v = Throw (js "Encrypted data cannot be empty").
Proof. intros H. unfold decrypt. rewrite H. reflexivity. Qed.

Lemma decrypt_not_three_parts s :
  List.length (split colon s) <> 3%nat ->
  exists message, decrypt (VString s) = Throw message.
Proof.
  intros H. unfold decrypt.
  destruct (negb (truthy (VString s))); [eexists; reflexivity|].
  destruct (split colon s) as [|p0 [|p1 [|p2 [|p3 ps]]]];
    try (eexists; reflexivity).
  simpl in H. congruence.
Qed.

Lemma encrypt_bad_key iv s :
  s <> [] -> key_accepted getKey = false ->
  encrypt iv (VString s) = Throw (js "Failed to encrypt data").
Proof.
  intros Hs Hk. unfold encrypt. rewrite Hk.
  destruct s; [congruence | reflexivity].
Qed.

Lemma encrypt_returns iv s :
  s <> [] -> key_accepted getKey = true ->
  encrypt iv (VString s)
  = Return (hex_encode iv ++ [colon]
              ++ hex_encode (fst (gcm_seal getKey iv (utf8_encode s)))
              ++ [colon]
              ++ hex_encode (snd (gcm_seal getKey iv (utf8_encode s)))).
Proof.
  intros Hs Hk. unfold encrypt. rewrite Hk.
  destruct s; [congruence | reflexivity].
Qed.

(** What [decrypt] makes of the output of [encrypt]: the UTF-8 decoding of
    the UTF-8 encoding of the text. *)
Lemma decrypt_encrypt_decodes iv s ciphertext :
  key_accepted getKey = true ->
  List.length iv = 16%nat ->
  s <> [] ->
  encrypt iv (VString s) = Return ciphertext ->
  decrypt (VString ciphertext) = Return (utf8_decode (utf8_encode s)).
Proof.
  intros Hk Hiv Hs He.
  rewrite (encrypt_returns iv s Hs Hk) in He. inversion He as [Hc]. clear He.
  clear Hc. unfold decrypt.
  replace (negb (truthy (VString _))) with false
    by (destruct (hex_encode iv); reflexivity).
  rewrite split_three by apply hex_encode_no_colon.
  rewrite Hk, !hex_decode_encode.
  rewrite gcm_open_seal; [reflexivity | | exact Hiv].
  unfold key_accepted in Hk. apply Nat.eqb_eq in Hk. exact Hk.
Qed.

(** Under any cipher [decrypt] gives back the well-formed version of what
    [encrypt] was given, hence the text itself exactly when it has no
    unpaired surrogate. *)
Lemma decrypt_encrypt_toWellFormed iv s ciphertext :
  key_accepted getKey = true ->
  List.length iv = 16%nat ->
  s <> [] -> code_units s ->
  encrypt iv (VString s) = Return ciphertext ->
  decrypt (VString ciphertext) = Return (toWellFormed s) /\
  (decrypt (VString ciphertext) = Return s <-> well_formed s = true).
Proof.
  intros Hk Hiv Hs Hu He.
  rewrite (decrypt_encrypt_decodes iv s ciphertext Hk Hiv Hs He).
  rewrite utf8_decode_encode by exact Hu. split; [reflexivity|].
  rewrite <- (toWellFormed_fixed s Hu).
  split; [intros E; inversion E as [E']; rewrite !E'; reflexivity
         | intros ->; reflexivity].
Qed.

(** A lone high surrogate is encrypted as U+FFFD, under any cipher. *)
Lemma decrypt_encrypt_lone_surrogate iv ciphertext :
  key_accepted getKey = true ->
  List.length iv = 16%nat ->
  encrypt iv (VString [55296%N]) = Return ciphertext ->
  decrypt (VString ciphertext) = Return [replacement_character].
Proof.
  intros Hk Hiv He.
  rewrite (decrypt_encrypt_decodes iv [55296%N] ciphertext Hk Hiv); auto.
  discriminate.
Qed.

(** With a usable key the self-test of the module passes. *)
Lemma validateEncryptionSetup_passes iv stamp :
  key_accepted getKey = true ->
  List.length iv = 16%nat ->
  well_formed stamp = true ->
  validateEncryptionSetup iv stamp = true.
Proof.
  intros Hk Hiv Hwf. unfold validateEncryptionSetup.
  set (testData := js "test-encryption-" ++ stamp).
  assert (Hne : testData <> []) by discriminate.
  assert (Hw : well_formed testData = true) by exact Hwf.
  rewrite (encrypt_returns iv testData Hne Hk).
  erewrite decrypt_encrypt_decodes;
    [ | exact Hk | exact Hiv | exact Hne | apply encrypt_returns; assumption ].
  rewrite utf8_roundtrip by exact Hw.
  destruct (list_eq_dec N.eq_dec testData testData); congruence.
Qed.

End EncryptionFacts.

(** C10 as stated fails twice: under a usable key a lone surrogate does
    not come back from [decrypt (encrypt s)] (whatever the cipher, by
    [decrypt_encrypt_lone_surrogate]), and under a 64-character key that is
    not hex [encrypt] throws on every text (by [encrypt_bad_key]). *)
Lemma C10_roundtrip_counterexample :
  (let iv := zero_bytes 16 in
   let s := [55296%N] in
   exists ciphertext,
     @Encryption.encrypt hex_key_crypto iv (VString s) = Return ciphertext /\
     @Encryption.decrypt hex_key_crypto (VString ciphertext)
       = Return [65533%N] /\
     [65533%N] <> s) /\
  @Encryption.encrypt non_hex_key_crypto (zero_bytes 16) (VString (js "a"))
    = Throw (js "Failed to encrypt data").
Proof.
  split.
  - eexists. split; [vm_compute; reflexivity|].
    split; [vm_compute; reflexivity | discriminate].
  - vm_compute. reflexivity.
Qed.

(** C10. Under a key from which [getKey] derives 32 bytes, for every
    non-empty string [s] without unpaired surrogates [encrypt] returns a
    ciphertext that [decrypt] turns back into [s]; [encrypt] throws on the
    empty string and on every other falsy value; [decrypt] throws on every
    string that does not split into exactly three parts at the colons. *)
Theorem C10_encrypt_decrypt_roundtrip
    (crypto : Crypto) (iv : list Byte.byte) (s : jsstring) :
  List.length Encryption.getKey = 32%nat ->
  List.length iv = 16%nat ->
  s <> [] ->
  well_formed s = true ->
  (exists ciphertext,
     Encryption.encrypt iv (VString s) = Return ciphertext /\
     Encryption.decrypt (VString ciphertext) = Return s) /\
  (forall iv' v, truthy v = false ->
     exists message, Encryption.encrypt iv' v = Throw message) /\
  (forall t, List.length (split colon t) <> 3%nat ->
     exists message, Encryption.decrypt (VString t) = Throw message).
Proof.
  intros Hkey Hiv Hs Hwf.
  assert (Hk : Encryption.key_accepted Encryption.getKey = true)
    by (unfold Encryption.key_accepted; rewrite Hkey; reflexivity).
  split; [|split].
  - eexists. split; [apply encrypt_returns; assumption|].
    erewrite decrypt_encrypt_decodes;
      [ | exact Hk | exact Hiv | exact Hs | apply encrypt_returns; assumption].
    rewrite utf8_roundtrip by exact Hwf. reflexivity.
  - intros iv' v Hv. eexists. apply encrypt_falsy. exact Hv.
  - intros t Ht. apply decrypt_not_three_parts. exact Ht.
Qed.

Lemma C10_encrypt_decrypt_roundtrip_witness :
  exists ciphertext,
    @Encryption.encrypt hex_key_crypto (zero_bytes 16)
       (VString (js "gsk_live_token")) = Return ciphertext /\
    @Encryption.decrypt hex_key_crypto (VString ciphertext)
      = Return (js "gsk_live_token").
Proof.
  refine (proj1 (C10_encrypt_decrypt_roundtrip hex_key_crypto (zero_bytes 16)
                   (js "gsk_live_token") _ _ _ _)).
  - reflexivity.
  - reflexivity.
  - discriminate.
  - reflexivity.
Defined.

(* ===================================================================== *)
(** ** LLM provider fallback *)
(* ===================================================================== *)

Section LLMFacts.
Context {crypto : Crypto} {platform : LLMPlatform}.
Import LLM.

Lemma object_get_set o key value key' :
  object_get (object_set o key value) key'
  = if String.eqb key key' then Some value else object_get o key'.
Proof.
  unfold object_get, object_set. simpl.
  destruct (String.eqb_spec key key') as [->|Hne]; [reflexivity|].
  induction o as [|[k v] rest IH]; simpl; [reflexivity|].
  destruct (String.eqb_spec k key) as [->|Hk]; simpl.
  - destruct (String.eqb_spec key key'); [contradiction | exact IH].
  - destruct (String.eqb_spec k key'); [reflexivity | exact IH].
Qed.

(** A token is in the object only for a service of which the user has an
    active row that decrypts to it. *)
Lemma getUserTokens_active userId d svc token :
  object_get (getUserTokens userId d) svc = Some token ->
  exists row,
    In row d /\ t_user_id row = userId /\ t_is_active row = Some 1%Z /\
    service row = svc /\
    Encryption.decrypt (token_encrypted row) = Return token.
Proof.
  unfold getUserTokens.
  set (active := filter _ d).
  assert (Hactive : forall row, In row active ->
            In row d /\ t_user_id row = userId /\ t_is_active row = Some 1%Z).
  { intros row Hin. apply filter_In in Hin. destruct Hin as [Hin Hc].
    apply andb_true_iff in Hc. destruct Hc as [Hu Ha].
    apply String.eqb_eq in Hu.
    destruct (t_is_active row) as [a|]; [|discriminate].
    apply Z.eqb_eq in Ha. subst a. auto. }
  clearbody active.
  assert (Hgen : forall acc,
            object_get
              (fold_left
                 (fun tokens row =>
                    match Encryption.decrypt (token_encrypted row) with
                    | Return t => object_set tokens (service row) t
                    | Throw _ => tokens
                    end) active acc) svc = Some token ->
            object_get acc svc = Some token \/
            exists row, In row active /\ service row = svc /\
              Encryption.decrypt (token_encrypted row) = Return token).
  { induction active as [|row rest IH]; simpl; intros acc H; [auto|].
    destruct (IH (fun r Hr => Hactive r (or_intror Hr)) _ H)
      as [Hacc|(r & Hr & Hs & Hd)].
    - destruct (Encryption.decrypt (token_encrypted row)) as [t|m] eqn:E;
        [|auto].
      rewrite object_get_set in Hacc.
      destruct (String.eqb_spec (service row) svc) as [Hsvc|Hne]; [|auto].
      inversion Hacc; subst. right. exists row. auto.
    - right. exists r. auto. }
  intros H. destruct (Hgen [] H) as [Hnil|(row & Hin & Hs & Hd)];
    [discriminate|].
  destruct (Hactive row Hin) as (Hd' & Hu & Ha).
  exists row. auto 6.
Qed.

Lemma fold_tokens_lookup svc rows : forall acc,
  object_get
    (fold_left
       (fun tokens row =>
          match Encryption.decrypt (token_encrypted row) with
          | Return token => object_set tokens (service row) token
          | Throw _ => tokens
          end) rows acc) svc
  = match latest_token svc rows with
    | Some t => Some t
    | None => object_get acc svc
    end.
Proof.
  induction rows as [|row rest IH]; intros acc; simpl; [reflexivity|].
  rewrite IH. destruct (latest_token svc rest); [reflexivity|].
  destruct (Encryption.decrypt (token_encrypted row)) as [t|m].
  - rewrite object_get_set. destruct (String.eqb (service row) svc);
      reflexivity.
  - destruct (String.eqb (service row) svc); reflexivity.
Qed.

(** What [getUserTokens] holds for a service: the token of the last active
    row of the user for it that decrypts. *)
Lemma getUserTokens_lookup userId d svc :
  object_get (getUserTokens userId d) svc
  = latest_token svc (filter (active_of userId) d).
Proof.
  unfold getUserTokens.
  change (filter _ d) with (filter (active_of userId) d).
  rewrite fold_tokens_lookup.
  destruct (latest_token svc _); reflexivity.
Qed.

(** The lookup in the object of tokens is the token of the specification. *)
Lemma latest_active_token userId svc d :
  latest_token svc (filter (active_of userId) d)
  = spec_active_token userId svc d.
Proof.
  induction d as [|row rest IH]; [reflexivity|].
  cbn [filter spec_active_token]. unfold active_of at 1.
  destruct (String.eqb_spec (t_user_id row) userId) as [Eu|Nu];
    destruct (string_dec (t_user_id row) userId) as [Eu'|Nu'];
    try contradiction; cbn [andb].
  - destruct (t_is_active row) as [a|].
    + destruct (Z.eqb_spec a 1) as [->|Na].
      * cbn [latest_token]. rewrite IH.
        destruct (spec_active_token userId svc rest); [reflexivity|].
        destruct (String.eqb_spec (service row) svc);
          destruct (string_dec (service row) svc); try contradiction;
          reflexivity.
      * rewrite IH.
        destruct (spec_active_token userId svc rest); [reflexivity|].
        destruct (string_dec (service row) svc); [|reflexivity].
        destruct a as [|[p|p|]|p]; try reflexivity. contradiction Na.
        reflexivity.
    + rewrite IH.
      destruct (spec_active_token userId svc rest); [reflexivity|].
      destruct (string_dec (service row) svc); reflexivity.
  - rewrite IH. destruct (spec_active_token userId svc rest); reflexivity.
Qed.

Lemma configured_usable userId d p :
  configured (getUserTokens userId d) p
  = spec_usable_token userId (name p) d.
Proof.
  unfold configured, spec_usable_token.
  rewrite getUserTokens_lookup, latest_active_token. reflexivity.
Qed.

Lemma attempted_calls_spec userId prompt o d :
  attempted_calls (getUserTokens userId d) prompt o providers
  = spec_attempts userId prompt o d.
Proof.
  unfold attempted_calls, spec_attempts, providers, spec_order.
  cbn [flat_map]. rewrite !configured_usable. reflexivity.
Qed.

Lemma updateLastUsed_stamp userId svc now d :
  updateLastUsed userId svc now d = spec_stamp userId svc now d.
Proof.
  induction d as [|row rest IH]; [reflexivity|].
  cbn [updateLastUsed map spec_stamp]. fold (updateLastUsed userId svc now rest).
  rewrite IH. f_equal.
  destruct (String.eqb_spec (t_user_id row) userId);
    destruct (string_dec (t_user_id row) userId); try contradiction;
    [|reflexivity].
  destruct (String.eqb_spec (service row) svc);
    destruct (string_dec (service row) svc); try contradiction;
    reflexivity.
Qed.

(** A token of the specification comes from an active row of the user for
    the provider, and there is none without such a row. *)
Lemma spec_active_token_row userId svc d token :
  spec_active_token userId svc d = Some token ->
  exists row,
    In row d /\ t_user_id row = userId /\ service row = svc /\
    t_is_active row = Some 1%Z /\
    Encryption.decrypt (token_encrypted row) = Return token.
Proof.
  induction d as [|row rest IH]; [discriminate|].
  cbn [spec_active_token].
  destruct (spec_active_token userId svc rest) as [t|].
  - intros H. destruct (IH H) as (r & Hr & Hrest). exists r.
    split; [right; exact Hr | exact Hrest].
  - destruct (string_dec (t_user_id row) userId) as [Eu|]; [|discriminate].
    destruct (string_dec (service row) svc) as [Es|]; [|discriminate].
    destruct (t_is_active row) as [[|[p|p|]|p]|] eqn:Ea; try discriminate.
    destruct (Encryption.decrypt (token_encrypted row)) as [t|m] eqn:Ed;
      [|discriminate].
    intros H. inversion H; subst t. exists row. simpl. auto 10.
Qed.

Lemma spec_usable_token_row userId svc d token :
  spec_usable_token userId svc d = Some token ->
  token <> [] /\ spec_active_token userId svc d = Some token.
Proof.
  unfold spec_usable_token.
  destruct (spec_active_token userId svc d) as [[|c rest]|];
    try discriminate.
  intros H. inversion H. split; [discriminate | reflexivity].
Qed.

Lemma in_spec_attempts userId prompt o d svc outcome :
  In (svc, outcome) (spec_attempts userId prompt o d) ->
  In svc spec_order /\
  exists token,
    spec_usable_token userId svc d = Some token /\
    outcome = spec_call svc token prompt o.
Proof.
  unfold spec_attempts. intros H. apply in_flat_map in H as (s & Hs & H).
  destruct (spec_usable_token userId s d) as [token|] eqn:E; [|destruct H].
  destruct H as [H|[]]. inversion H; subst. eauto.
Qed.

Lemma spec_attempts_order userId prompt o d :
  map fst (spec_attempts userId prompt o d)
  = filter (fun svc => match spec_usable_token userId svc d with
                       | Some _ => true
                       | None => false
                       end)
      ["groq"; "huggingface"; "together"; "openrouter"].
Proof.
  unfold spec_attempts, spec_order. cbn [flat_map filter].
  repeat match goal with
  | |- context [spec_usable_token userId ?k d] =>
      destruct (spec_usable_token userId k d)
  end; reflexivity.
Qed.

Lemma attempt_spec ps tokens userId prompt o now lastError d :
  attempt ps tokens userId prompt o now lastError d
  = match first_success (attempted_calls tokens prompt o ps) with
    | Some (svc, t) =>
        (Return {| text := trim t;
                   c_provider := svc;
                   c_model := model_or_default o;
                   tokenCount := inject_Z (Z.of_nat (List.length t)) / 4 |},
         updateLastUsed userId svc now d)
    | None =>
        (Throw (aggregated_error
                  (last_failure (attempted_calls tokens prompt o ps)
                     lastError)), d)
    end.
Proof.
  revert lastError. induction ps as [|p rest IH]; intros lastError.
  - reflexivity.
  - cbn [attempt attempted_calls flat_map].
    destruct (configured tokens p) as [token|].
    + cbn [app first_success last_failure].
      destruct (method p token prompt o) as [t|message].
      * reflexivity.
      * rewrite IH. reflexivity.
    + cbn [app]. rewrite IH. reflexivity.
Qed.

(** The first success is preceded by failures only. *)
Lemma first_success_split calls svc t :
  first_success calls = Some (svc, t) ->
  exists before after,
    calls = before ++ (svc, Return t) :: after /\
    Forall (fun c => exists message, snd c = Throw message) before.
Proof.
  induction calls as [|[s [t'|m]] rest IH]; simpl; intros H.
  - discriminate.
  - inversion H; subst. exists [], rest. split; [reflexivity | constructor].
  - destruct (IH H) as (before & after & -> & Hall).
    exists ((s, Throw m) :: before), after. split; [reflexivity|].
    constructor; [eexists; reflexivity | exact Hall].
Qed.

Lemma first_success_none calls :
  first_success calls = None ->
  Forall (fun c => exists message, snd c = Throw message) calls.
Proof.
  induction calls as [|[s [t'|m]] rest IH]; simpl; intros H.
  - constructor.
  - discriminate.
  - constructor; [eexists; reflexivity | auto].
Qed.

(** The calls are made in the order groq, huggingface, together,
    openrouter. *)
Lemma attempted_calls_order tokens prompt o :
  exists keep,
    map fst (attempted_calls tokens prompt o providers)
    = filter keep ["groq"; "huggingface"; "together"; "openrouter"].
Proof.
  exists (fun svc =>
            match configured tokens {| name := svc; method := callGroq |} with
            | Some _ => true
            | None => false
            end).
  unfold attempted_calls, providers, configured. simpl.
  repeat match goal with
  | |- context [object_get tokens ?k] =>
      destruct (object_get tokens k) as [[|? ?]|]
  end; reflexivity.
Qed.

(** [updateLastUsed] stamps the rows of that user and service and leaves
    every other row as it is. *)
Lemma updateLastUsed_rows userId svc now d :
  Forall2
    (fun before after =>
       if String.eqb (t_user_id before) userId
          && String.eqb (service before) svc
       then last_used after = Some now /\
            t_id after = t_id before /\
            t_user_id after = t_user_id before /\
            service after = service before /\
            token_encrypted after = token_encrypted before /\
            t_is_active after = t_is_active before /\
            updated_at after = updated_at before
       else after = before)
    d (updateLastUsed userId svc now d).
Proof.
  induction d as [|row rest IH]; simpl; constructor; [|exact IH].
  destruct (String.eqb (t_user_id row) userId && String.eqb (service row) svc);
    simpl; auto 10.
Qed.

Lemma through_last_none c s : through_last c s = None -> ~ In c s.
Proof.
  induction s as [|x rest IH]; simpl; [tauto|].
  destruct (through_last c rest); [discriminate|].
  destruct (N.eqb_spec x c) as [Heq|Hne]; [discriminate|].
  intros _ [Hx|Hin]; [congruence | exact (IH eq_refl Hin)].
Qed.

Lemma through_last_spec c s prefix :
  through_last c s = Some prefix ->
  exists inner post,
    prefix = inner ++ [c] /\ s = prefix ++ post /\ ~ In c post.
Proof.
  revert prefix. induction s as [|x rest IH]; simpl; intros prefix H.
  - discriminate.
  - destruct (through_last c rest) as [p|] eqn:E.
    + inversion H; subst.
      destruct (IH p eq_refl) as (inner & post & -> & -> & Hpost).
      exists (x :: inner), post. repeat split; auto.
    + destruct (N.eqb_spec x c) as [->|Hne]; [|discriminate].
      inversion H; subst. exists [], rest. repeat split; auto.
      apply through_last_none. exact E.
Qed.

(** What the regular expression extracts: the stretch from the first
    opening bracket to the last closing bracket behind it. *)
Lemma match_bracketed_some s m :
  match_bracketed s = Some m ->
  exists pre inner post,
    s = pre ++ m ++ post /\
    m = open_bracket :: inner ++ [close_bracket] /\
    ~ In open_bracket pre /\ ~ In close_bracket post.
Proof.
  revert m. induction s as [|x rest IH]; simpl; intros m H.
  - discriminate.
  - destruct (N.eqb_spec x open_bracket) as [->|Hne].
    + destruct (through_last close_bracket rest) as [p|] eqn:E;
        [|discriminate].
      inversion H; subst.
      destruct (through_last_spec _ _ _ E) as (inner & post & -> & -> & Hp).
      exists [], inner, post. simpl. repeat split; auto.
    + destruct (IH m H) as (pre & inner & post & -> & -> & Hpre & Hpost).
      exists (x :: pre), inner, post. simpl. repeat split; auto.
      intros [Hx|Hin]; [congruence | auto].
Qed.

(** No match: no closing bracket follows an opening one. *)
Lemma match_bracketed_none s :
  match_bracketed s = None ->
  forall pre post, s = pre ++ open_bracket :: post ->
                   ~ In close_bracket post.
Proof.
  induction s as [|x rest IH]; simpl; intros H pre post E.
  - destruct pre; discriminate.
  - destruct (N.eqb_spec x open_bracket) as [->|Hne].
    + destruct (through_last close_bracket rest) eqn:Et; [discriminate|].
      apply through_last_none in Et.
      destruct pre as [|y pre]; simpl in E; inversion E; subst.
      * exact Et.
      * intros Hin. apply Et. apply in_or_app. right. right. exact Hin.
    + destruct pre as [|y pre]; simpl in E; inversion E; subst.
      * congruence.
      * eapply IH; eauto.
Qed.

Lemma through_last_absent c s : ~ In c s -> through_last c s = None.
Proof.
  induction s as [|x rest IH]; simpl; intros H; [reflexivity|].
  rewrite IH by tauto.
  destruct (N.eqb_spec x c) as [E|_]; [|reflexivity].
  exfalso. apply H. left. exact E.
Qed.

Lemma through_last_found c inner post :
  ~ In c post -> through_last c (inner ++ c :: post) = Some (inner ++ [c]).
Proof.
  intros H. induction inner as [|x rest IH]; simpl.
  - rewrite (through_last_absent c post H), N.eqb_refl. reflexivity.
  - rewrite IH. reflexivity.
Qed.

(** A text that holds a bracketed stretch is matched, and the match is
    that stretch with its brackets. *)
Lemma match_bracketed_found t pre inner post :
  bracketed_stretch t pre inner post ->
  match_bracketed t = Some (open_bracket :: inner ++ [close_bracket]).
Proof.
  intros (-> & Hpre & Hpost).
  induction pre as [|x rest IH]; cbn [app match_bracketed].
  - rewrite N.eqb_refl.
    rewrite (through_last_found close_bracket inner post Hpost).
    reflexivity.
  - destruct (N.eqb_spec x open_bracket) as [E|_].
    + exfalso. apply Hpre. left. exact E.
    + apply IH. intros H. apply Hpre. right. exact H.
Qed.

Lemma bracketed_or_not t :
  (exists pre inner post, bracketed_stretch t pre inner post) \/
  no_bracketed_stretch t.
Proof.
  destruct (match_bracketed t) as [m|] eqn:E.
  - left. destruct (match_bracketed_some t m E)
      as (pre & inner & post & Ht & Hm & Hpre & Hpost).
    exists pre, inner, post. split; [|split; assumption].
    rewrite Ht, Hm. cbn [app]. rewrite <- app_assoc. reflexivity.
  - right. exact (match_bracketed_none t E).
Qed.

Lemma no_stretch_no_match t :
  no_bracketed_stretch t -> match_bracketed t = None.
Proof.
  intros H. destruct (match_bracketed t) as [m|] eqn:E; [|reflexivity].
  destruct (match_bracketed_some t m E)
    as (pre & inner & post & Ht & Hm & _ & _).
  exfalso. apply (H pre (inner ++ [close_bracket] ++ post)).
  - rewrite Ht, Hm. cbn [app]. rewrite <- app_assoc. reflexivity.
  - apply in_or_app. right. left. reflexivity.
Qed.

Lemma parse_natural_language_nonempty t :
  parseNaturalLanguageInsights t <> [].
Proof.
  unfold parseNaturalLanguageInsights.
  destruct (fold_left item_step _ _) as [found [current|]].
  - destruct (found ++ [current]) eqn:E; [|discriminate].
    destruct found; discriminate.
  - destruct found; discriminate.
Qed.

Lemma fold_item_step_no_items lines :
  Forall (fun line => starts_item line = false) lines ->
  fold_left item_step lines ([], None) = ([], None).
Proof.
  induction 1 as [|line rest Hline Hrest IH]; [reflexivity|].
  simpl. rewrite Hline. exact IH.
Qed.

(** Without a line that starts with a digit, [*], [-] or a bullet the
    answer is the one free-form insight that carries the text. *)
Lemma parse_natural_language_fallback t :
  Forall (fun line => starts_item line = false) (split newline t) ->
  parseNaturalLanguageInsights t
  = [raw_insight "AI Analysis" "Review the analysis for financial guidance."
       t].
Proof.
  intros H. unfold parseNaturalLanguageInsights.
  rewrite fold_item_step_no_items; [reflexivity|].
  apply Forall_forall. intros line Hin. apply filter_In in Hin.
  rewrite Forall_forall in H. apply H. tauto.
Qed.

End LLMFacts.

(** C6. [generateCompletion] tries the providers for which the user has
    an active row with a token that decrypts and is not empty (the last
    such row counts), in the order groq, huggingface, together,
    openrouter, and no other; it returns the trimmed text of the first
    call that succeeds and stamps [last_used] on the rows of that user
    and provider; when no call succeeds, or none is made, it throws one
    error built from the last failure and the table is as it was. *)
Theorem C6_generateCompletion_first_success
    (crypto : Crypto) (platform : LLMPlatform)
    (userId : string) (prompt : jsstring) (o : options) (now : string)
    (d : LLM.db) :
  let calls := spec_attempts userId prompt o d in
  LLM.generateCompletion userId prompt o now d
    = spec_generateCompletion userId prompt o now d /\
  map fst calls
  = filter (fun svc => match spec_usable_token userId svc d with
                       | Some _ => true
                       | None => false
                       end)
      ["groq"; "huggingface"; "together"; "openrouter"] /\
  (forall svc outcome,
     In (svc, outcome) calls ->
     exists row token,
       In row d /\ LLM.t_user_id row = userId /\ LLM.service row = svc /\
       LLM.t_is_active row = Some 1%Z /\
       Encryption.decrypt (LLM.token_encrypted row) = Return token /\
       token <> [] /\
       outcome = spec_call svc token prompt o) /\
  (forall svc,
     (forall row, In row d -> LLM.t_user_id row = userId ->
                  LLM.service row = svc ->
                  LLM.t_is_active row <> Some 1%Z) ->
     ~ In svc (map fst calls)) /\
  match first_success calls with
  | Some (svc, t) =>
      (exists before after,
         calls = before ++ (svc, Return t) :: after /\
         Forall (fun c => exists message, snd c = Throw message) before) /\
      exists r,
        LLM.generateCompletion userId prompt o now d
          = (Return r, spec_stamp userId svc now d) /\
        LLM.text r = trim t /\ LLM.c_provider r = svc
  | None =>
      Forall (fun c => exists message, snd c = Throw message) calls /\
      LLM.generateCompletion userId prompt o now d
        = (Throw (aggregated_error (last_failure calls None)), d)
  end.
Proof.
  cbv zeta.
  assert (E : LLM.generateCompletion userId prompt o now d
              = spec_generateCompletion userId prompt o now d).
  { unfold LLM.generateCompletion, spec_generateCompletion.
    rewrite attempt_spec, attempted_calls_spec.
    destruct (first_success _) as [[svc t]|]; [|reflexivity].
    rewrite updateLastUsed_stamp. reflexivity. }
  assert (Hrow : forall svc outcome,
            In (svc, outcome) (spec_attempts userId prompt o d) ->
            exists row token,
              In row d /\ LLM.t_user_id row = userId /\
              LLM.service row = svc /\
              LLM.t_is_active row = Some 1%Z /\
              Encryption.decrypt (LLM.token_encrypted row) = Return token /\
              token <> [] /\
              outcome = spec_call svc token prompt o).
  { intros svc outcome H.
    apply in_spec_attempts in H as (_ & token & Hu & ->).
    apply spec_usable_token_row in Hu as (Hne & Ha).
    apply spec_active_token_row in Ha as (row & Hin & H1 & H2 & H3 & H4).
    exists row, token. auto 10. }
  split; [exact E|]. split; [apply spec_attempts_order|].
  split; [exact Hrow|]. split.
  { intros svc Hnone Hin. apply in_map_iff in Hin as ([s outcome] & <- & Hin).
    destruct (Hrow s outcome Hin) as (row & token & Hr & Hu & Hs & Ha & _).
    exact (Hnone row Hr Hu Hs Ha). }
  rewrite E. unfold spec_generateCompletion.
  destruct (first_success _) as [[svc t]|] eqn:F.
  - split; [apply first_success_split; exact F|].
    eexists. split; [reflexivity|]. split; reflexivity.
  - split; [apply first_success_none; exact F | reflexivity].
Qed.

(** Groq fails, Hugging Face succeeds: the result is Hugging Face's and
    only the caller's Hugging Face row is stamped.  With every provider
    answering, a caller whose Groq token is switched off gets the answer
    of Together, whatever the order of the rows and the tokens of other
    users. *)
Lemma C6_generateCompletion_first_success_witness :
  let now := "2024-02-01 10:00:00" in
  (exists r d',
     @LLM.generateCompletion hex_key_crypto
        (example_platform (js " [1, 2] ")) "u1" (js "How am I doing?")
        no_options now example_tokens_db = (Return r, d') /\
     LLM.c_provider r = "huggingface" /\
     LLM.text r = js "[1, 2]" /\
     map LLM.last_used d' = [None; Some now; None]) /\
  (exists r d',
     @LLM.generateCompletion hex_key_crypto answering_platform "u1"
        (js "How am I doing?") no_options now inactive_groq_db
     = (Return r, d') /\
     LLM.c_provider r = "together" /\
     LLM.text r = js "from together" /\
     map LLM.last_used d' = [None; None; None; Some now]).
Proof.
  cbv zeta. split.
  - destruct (C6_generateCompletion_first_success hex_key_crypto
                (example_platform (js " [1, 2] ")) "u1"
                (js "How am I doing?") no_options "2024-02-01 10:00:00"
                example_tokens_db) as (E & _).
    rewrite E. eexists _, _. split; [vm_compute; reflexivity|].
    repeat split.
  - destruct (C6_generateCompletion_first_success hex_key_crypto
                answering_platform "u1" (js "How am I doing?") no_options
                "2024-02-01 10:00:00" inactive_groq_db) as (E & _).
    rewrite E. eexists _, _. split; [vm_compute; reflexivity|].
    repeat split.
Defined.

(** C9. On the text of a completion.  When the text holds a bracketed
    stretch, from its first opening bracket to the last closing bracket
    behind it, and [JSON.parse] accepts that stretch, the parsed value is
    the insights; when [JSON.parse] rejects it, the insights are the
    single free-form insight with the text as message.  When the text
    holds no such stretch, the insights are the list of
    [parseNaturalLanguageInsights], which is never empty and is the single
    free-form insight with the text as message unless some line starts a
    list item.  Every text is of one of the two kinds, and
    [generateFinancialInsights] returns whenever [generateCompletion]
    does. *)
Theorem C9_insights_parse_or_fallback
    (crypto : Crypto) (platform : LLMPlatform)
    (r : LLM.completion) (now : string) :
  let out := LLM.insights_of_completion r now in
  (forall pre inner post,
     bracketed_stretch (LLM.text r) pre inner post ->
     match JSON_parse (LLM.open_bracket :: inner ++ [LLM.close_bracket]) with
     | Some v => LLM.insights out = LLM.ParsedInsights v
     | None =>
         LLM.insights out
         = LLM.InsightRecords
             [raw_insight "AI Financial Analysis"
                "Review the analysis above for financial guidance."
                (LLM.text r)]
     end) /\
  (no_bracketed_stretch (LLM.text r) ->
   exists l,
     LLM.insights out = LLM.InsightRecords l /\
     l = LLM.parseNaturalLanguageInsights (LLM.text r) /\
     l <> [] /\
     (Forall (fun line => LLM.starts_item line = false)
        (split newline (LLM.text r)) ->
      l = [raw_insight "AI Analysis"
             "Review the analysis for financial guidance." (LLM.text r)])) /\
  ((exists pre inner post, bracketed_stretch (LLM.text r) pre inner post) \/
   no_bracketed_stretch (LLM.text r)) /\
  LLM.r_provider out = LLM.c_provider r /\
  (forall userId data d res d',
     LLM.generateCompletion userId (buildFinancialPrompt data)
       LLM.insights_options now d = (Return res, d') ->
     LLM.generateFinancialInsights userId data now d
     = (Return (LLM.insights_of_completion res now), d')).
Proof.
  cbv zeta. split; [|split; [|split; [|split]]].
  - intros pre inner post H. unfold LLM.insights_of_completion.
    rewrite (match_bracketed_found _ _ _ _ H).
    destruct (JSON_parse _); reflexivity.
  - intros H. unfold LLM.insights_of_completion.
    rewrite (no_stretch_no_match _ H).
    eexists. split; [reflexivity|]. split; [reflexivity|].
    split; [apply parse_natural_language_nonempty|].
    apply parse_natural_language_fallback.
  - apply bracketed_or_not.
  - unfold LLM.insights_of_completion.
    destruct (LLM.match_bracketed (LLM.text r)) as [m|];
      [destruct (JSON_parse m)|]; reflexivity.
  - intros userId data d res d' H.
    unfold LLM.generateFinancialInsights. rewrite H. reflexivity.
Qed.

(** Three answers of the model: an array in prose, a bracketed stretch
    that is not JSON, and plain prose. *)
Lemma C9_insights_parse_or_fallback_witness :
  let completion t :=
    {| LLM.text := js t; LLM.c_provider := "huggingface";
       LLM.c_model := js "default"; LLM.tokenCount := 4 |} in
  let insights_of t :=
    LLM.insights
      (@LLM.insights_of_completion (example_platform [])
         (completion t) "2024-02-01") in
  insights_of "Here you go: [1, 2] - enjoy"
    = LLM.ParsedInsights (js "[1, 2]" : @json_value (example_platform [])) /\
  insights_of "Save [more] and spend [less]"
    = LLM.InsightRecords
        [raw_insight "AI Financial Analysis"
           "Review the analysis above for financial guidance."
           (js "Save [more] and spend [less]")] /\
  insights_of "Spend less than you earn."
    = LLM.InsightRecords
        [raw_insight "AI Analysis"
           "Review the analysis for financial guidance."
           (js "Spend less than you earn.")].
Proof.
  cbv zeta. split; [|split].
  - assert (H : bracketed_stretch (js "Here you go: [1, 2] - enjoy")
                  (js "Here you go: ") (js "1, 2") (js " - enjoy")).
    { split; [vm_compute; reflexivity|].
      split; vm_compute; intuition discriminate. }
    pose proof (proj1 (C9_insights_parse_or_fallback hex_key_crypto
                         (example_platform [])
                         {| LLM.text := js "Here you go: [1, 2] - enjoy";
                            LLM.c_provider := "huggingface";
                            LLM.c_model := js "default";
                            LLM.tokenCount := 4 |} "2024-02-01")
                  _ _ _ H) as P.
    vm_compute in P. vm_compute. exact P.
  - assert (H : bracketed_stretch (js "Save [more] and spend [less]")
                  (js "Save ") (js "more] and spend [less") []).
    { split; [vm_compute; reflexivity|].
      split; vm_compute; intuition discriminate. }
    pose proof (proj1 (C9_insights_parse_or_fallback hex_key_crypto
                         (example_platform [])
                         {| LLM.text := js "Save [more] and spend [less]";
                            LLM.c_provider := "huggingface";
                            LLM.c_model := js "default";
                            LLM.tokenCount := 4 |} "2024-02-01")
                  _ _ _ H) as P.
    vm_compute in P. vm_compute. exact P.
  - destruct (proj1 (proj2 (C9_insights_parse_or_fallback hex_key_crypto
                       (example_platform [])
                       {| LLM.text := js "Spend less than you earn.";
                          LLM.c_provider := "huggingface";
                          LLM.c_model := js "default";
                          LLM.tokenCount := 4 |} "2024-02-01")))
      as (l & El & _ & _ & Hl).
    + unfold no_bracketed_stretch. cbn [LLM.text].
      apply match_bracketed_none. vm_compute. reflexivity.
    + rewrite El, Hl; [reflexivity|].
      repeat constructor.
Defined.

(* ===================================================================== *)
(** ** Token encryption: format, keys, self-test and masking *)
(* ===================================================================== *)

Lemma hex_digit_class nibble :
  (nibble < 16)%N -> is_hex_or_colon (hex_digit nibble) = true.
Proof.
  intros H. unfold is_hex_or_colon, hex_digit.
  destruct (N.ltb_spec nibble 10); decide_tests; reflexivity.
Qed.

Lemma hex_encode_class bytes :
  Forall (fun c => is_hex_or_colon c = true) (hex_encode bytes).
Proof.
  induction bytes as [|b rest IH]; simpl; [constructor|].
  pose proof (Byte.to_N_bounded b) as Hb.
  constructor; [apply hex_digit_class; lia|].
  constructor; [apply hex_digit_class; lia | exact IH].
Qed.

Lemma hex_encode_length bytes :
  List.length (hex_encode bytes) = (2 * List.length bytes)%nat.
Proof. induction bytes as [|b rest IH]; simpl; [reflexivity | lia]. Qed.

Lemma utf8_encode_ascii s :
  ascii_only s -> List.length (utf8_encode s) = List.length s.
Proof.
  induction 1 as [|c rest Hc Hrest IH]; [reflexivity|].
  cbn [utf8_encode].
  unfold is_high_surrogate, is_low_surrogate, utf8_of_code_point.
  decide_tests. cbn [andb app List.length]. rewrite IH. reflexivity.
Qed.

(** X1. [encrypt] returns only for a string that is not empty, and what it
    returns is the hex of the nonce, of the sealed text and of the tag,
    joined by two colons: it splits into exactly these three parts and
    holds nothing but lower-case hex digits and colons. *)
Theorem X1_encrypt_output_format
    (crypto : Crypto) (iv : list Byte.byte) (text : jsvalue)
    (ciphertext : jsstring) :
  Encryption.encrypt iv text = Return ciphertext ->
  exists s,
    text = VString s /\
    s <> [] /\
    split colon ciphertext
    = [ hex_encode iv;
        hex_encode (fst (gcm_seal Encryption.getKey iv (utf8_encode s)));
        hex_encode (snd (gcm_seal Encryption.getKey iv (utf8_encode s))) ] /\
    Forall (fun c => is_hex_or_colon c = true) ciphertext.
Proof.
  unfold Encryption.encrypt. intros H.
  destruct (negb (truthy text)) eqn:T; [discriminate|].
  destruct text as [| |b|x|s]; try discriminate.
  destruct (Encryption.key_accepted Encryption.getKey); [|discriminate].
  inversion H; subst. exists s. split; [reflexivity|].
  split; [intros ->; discriminate T|]. split.
  - apply split_three; apply hex_encode_no_colon.
  - simpl. apply Forall_app; split; [apply hex_encode_class|].
    constructor; [reflexivity|].
    apply Forall_app; split; [apply hex_encode_class|].
    constructor; [reflexivity | apply hex_encode_class].
Qed.

Lemma X1_encrypt_output_format_witness :
  exists s,
    VString (js "gsk_live_token") = VString s /\
    s <> [] /\
    split colon
      (js "00000000000000000000000000000000:67736b5f6c6976655f746f6b656e:00000000000000000000000000000000")
    = [ hex_encode (zero_bytes 16);
        hex_encode
          (fst (@gcm_seal hex_key_crypto (@Encryption.getKey hex_key_crypto)
                  (zero_bytes 16) (utf8_encode s)));
        hex_encode
          (snd (@gcm_seal hex_key_crypto (@Encryption.getKey hex_key_crypto)
                  (zero_bytes 16) (utf8_encode s))) ] /\
    Forall (fun c => is_hex_or_colon c = true)
      (js "00000000000000000000000000000000:67736b5f6c6976655f746f6b656e:00000000000000000000000000000000").
Proof.
  apply (X1_encrypt_output_format hex_key_crypto (zero_bytes 16)
           (VString (js "gsk_live_token"))).
  vm_compute. reflexivity.
Defined.

Section KeyFacts.
Context {crypto : Crypto}.
Import Encryption.

Lemma getKey_generated key :
  ENCRYPTION_KEY = hex_encode key -> List.length key = 32%nat ->
  getKey = key.
Proof.
  intros E Hlen. unfold getKey. rewrite E, hex_encode_length, Hlen.
  simpl. apply hex_decode_encode.
Qed.

Lemma getKey_passphrase :
  List.length ENCRYPTION_KEY <> 64%nat ->
  List.length ENCRYPTION_KEY <> 32%nat ->
  getKey = scryptSync ENCRYPTION_KEY.
Proof.
  intros H64 H32. unfold getKey.
  destruct (Nat.eqb_spec (List.length ENCRYPTION_KEY) 64); [contradiction|].
  destruct (Nat.eqb_spec (List.length ENCRYPTION_KEY) 32); [contradiction|].
  reflexivity.
Qed.

Lemma getKey_ascii :
  List.length ENCRYPTION_KEY = 32%nat -> ascii_only ENCRYPTION_KEY ->
  getKey = utf8_encode ENCRYPTION_KEY /\ List.length getKey = 32%nat.
Proof.
  intros H32 Hascii. unfold getKey. rewrite H32. simpl.
  split; [reflexivity|]. rewrite utf8_encode_ascii by exact Hascii.
  exact H32.
Qed.

End KeyFacts.

(** X2. [getKey] yields the 32 bytes that AES-256 needs in each of these
    cases: the key string is the hex of 32 bytes (then these bytes are the
    key), it is 32 ASCII characters, or its length is neither 64 nor 32
    (then scrypt derives the key). *)
Theorem X2_getKey_usable (crypto : Crypto) :
  (exists key, ENCRYPTION_KEY = hex_encode key /\ List.length key = 32%nat) \/
  (List.length ENCRYPTION_KEY = 32%nat /\ ascii_only ENCRYPTION_KEY) \/
  (List.length ENCRYPTION_KEY <> 64%nat /\
   List.length ENCRYPTION_KEY <> 32%nat) ->
  Encryption.key_accepted Encryption.getKey = true /\
  (forall key, ENCRYPTION_KEY = hex_encode key -> List.length key = 32%nat ->
     Encryption.getKey = key).
Proof.
  intros H. split; [|intros key E Hlen; apply getKey_generated; assumption].
  unfold Encryption.key_accepted. apply Nat.eqb_eq.
  destruct H as [(key & E & Hlen)|[[H32 Hascii]|[H64 H32]]].
  - rewrite (getKey_generated key E Hlen). exact Hlen.
  - apply getKey_ascii; assumption.
  - rewrite getKey_passphrase by assumption. apply scryptSync_length.
Qed.

Lemma X2_getKey_usable_witness :
  @Encryption.key_accepted (@Encryption.getKey hex_key_crypto) = true /\
  (forall key,
     @ENCRYPTION_KEY hex_key_crypto = hex_encode key ->
     List.length key = 32%nat ->
     @Encryption.getKey hex_key_crypto = key).
Proof.
  apply (X2_getKey_usable hex_key_crypto).
  left. exists (zero_bytes 32). split; reflexivity.
Defined.

(** X3. The self-test of the module decides whether the key is usable:
    with a 16-byte nonce and a well-formed time stamp it answers [true]
    exactly when [getKey] has the 32 bytes the cipher accepts. *)
Theorem X3_validateEncryptionSetup_decides_key
    (crypto : Crypto) (iv : list Byte.byte) (stamp : jsstring) :
  List.length iv = 16%nat ->
  well_formed stamp = true ->
  Encryption.validateEncryptionSetup iv stamp
  = Encryption.key_accepted Encryption.getKey.
Proof.
  intros Hiv Hwf.
  destruct (Encryption.key_accepted Encryption.getKey) eqn:Hk.
  - apply validateEncryptionSetup_passes; assumption.
  - unfold Encryption.validateEncryptionSetup.
    rewrite encrypt_bad_key; [reflexivity | discriminate | exact Hk].
Qed.

Lemma X3_validateEncryptionSetup_decides_key_witness :
  @Encryption.validateEncryptionSetup hex_key_crypto (zero_bytes 16)
     (js "1706781600000") = true /\
  @Encryption.validateEncryptionSetup non_hex_key_crypto (zero_bytes 16)
     (js "1706781600000") = false.
Proof.
  split.
  - rewrite (X3_validateEncryptionSetup_decides_key hex_key_crypto
               (zero_bytes 16) (js "1706781600000") eq_refl eq_refl).
    reflexivity.
  - rewrite (X3_validateEncryptionSetup_decides_key non_hex_key_crypto
               (zero_bytes 16) (js "1706781600000") eq_refl eq_refl).
    reflexivity.
Defined.

(** X4. [maskToken] shows of a token of 13 or more code units its first 8
    and its last 4 and nothing of what lies between, and of a shorter token
    nothing at all: two tokens that differ only in the middle have the same
    mask, of 15 code units, and every shorter one has the same 11 stars. *)
Theorem X4_maskToken_hides_middle
    (first middle middle' last short : jsstring) :
  List.length first = 8%nat ->
  List.length last = 4%nat ->
  middle <> [] -> middle' <> [] ->
  (List.length short < 13)%nat ->
  maskToken (VString (first ++ middle ++ last))
    = Return (first ++ js "..." ++ last) /\
  maskToken (VString (first ++ middle' ++ last))
    = maskToken (VString (first ++ middle ++ last)) /\
  List.length (first ++ js "..." ++ last) = 15%nat /\
  maskToken (VString short) = Return mask_stars.
Proof.
  intros Hf Hl Hm Hm' Hs.
  assert (Hmask : forall m, m <> [] ->
            maskToken (VString (first ++ m ++ last))
            = Return (first ++ js "..." ++ last)).
  { intros m Hne. unfold maskToken.
    assert (Hlen : List.length (first ++ m ++ last)
                   = (12 + List.length m)%nat)
      by (rewrite !length_app; lia).
    assert (Hpos : (0 < List.length m)%nat)
      by (destruct m; [congruence | simpl; lia]).
    replace (negb (truthy (VString (first ++ m ++ last)))) with false
      by (destruct first; [discriminate Hf | reflexivity]).
    rewrite Hlen.
    destruct (Nat.ltb_spec (12 + List.length m) 13); [lia|].
    f_equal. f_equal.
    - rewrite firstn_app.
      replace (8 - List.length first)%nat with 0%nat by lia.
      rewrite firstn_O, app_nil_r. apply firstn_all2. lia.
    - f_equal. rewrite app_assoc.
      rewrite skipn_app.
      replace (12 + List.length m - 4)%nat
        with (List.length (first ++ m)) by (rewrite length_app; lia).
      rewrite skipn_all, Nat.sub_diag. reflexivity. }
  split; [apply Hmask; exact Hm|].
  split; [rewrite !Hmask by assumption; reflexivity|].
  split; [rewrite !length_app, Hf, Hl; reflexivity|].
  unfold maskToken.
  destruct (negb (truthy (VString short))); [reflexivity|].
  destruct (Nat.ltb_spec (List.length short) 13); [reflexivity | lia].
Qed.

Lemma X4_maskToken_hides_middle_witness :
  maskToken (VString (js "gsk_live" ++ js "SECRETSECRET" ++ js "9f3a"))
    = Return (js "gsk_live...9f3a") /\
  maskToken (VString (js "gsk_live" ++ js "x" ++ js "9f3a"))
    = maskToken (VString (js "gsk_live" ++ js "SECRETSECRET" ++ js "9f3a")) /\
  List.length (js "gsk_live...9f3a") = 15%nat /\
  maskToken (VString (js "hf_short12")) = Return mask_stars.
Proof.
  apply (X4_maskToken_hides_middle (js "gsk_live") (js "SECRETSECRET")
           (js "x") (js "9f3a") (js "hf_short12"));
    try reflexivity; try discriminate.
  vm_compute. lia.
Defined.

(* ===================================================================== *)
(** ** AI token routes and the tokens a completion uses *)
(* ===================================================================== *)

Lemma filter_map_fixed {A} (p : A -> bool) (f : A -> A) (l : list A) :
  (forall x, In x l -> p (f x) = p x) ->
  (forall x, In x l -> p x = true -> f x = x) ->
  filter p (map f l) = filter p l.
Proof.
  induction l as [|x rest IH]; simpl; intros Hp Hf; [reflexivity|].
  rewrite (Hp x) by auto.
  destruct (p x) eqn:E.
  - rewrite (Hf x) by auto. f_equal. apply IH; auto.
  - apply IH; auto.
Qed.

Lemma filter_filter_implied {A} (p q : A -> bool) (l : list A) :
  (forall x, p x = true -> q x = true) ->
  filter p (filter q l) = filter p l.
Proof.
  intros H. induction l as [|x rest IH]; simpl; [reflexivity|].
  destruct (q x) eqn:Q; simpl.
  - rewrite IH. reflexivity.
  - destruct (p x) eqn:P; [|exact IH].
    rewrite (H x P) in Q. discriminate.
Qed.

Lemma find_map_same {A} (p : A -> bool) (f : A -> A) (l : list A) :
  (forall x, p (f x) = p x) ->
  find p (map f l) = option_map f (find p l).
Proof.
  intros H. induction l as [|x rest IH]; simpl; [reflexivity|].
  rewrite H. destruct (p x); [reflexivity | exact IH].
Qed.

Section TokenFacts.
Context {crypto : Crypto}.
Import LLM.

Lemma latest_token_among svc t rows :
  (forall row, In row rows -> service row = svc ->
     Encryption.decrypt (token_encrypted row) = Return t) ->
  forall t', latest_token svc rows = Some t' -> t' = t.
Proof.
  induction rows as [|row rest IH]; simpl; intros Hall t' H; [discriminate|].
  destruct (latest_token svc rest) as [u|].
  - inversion H; subst. apply IH; auto.
  - destruct (String.eqb_spec (service row) svc) as [E|N]; [|discriminate].
    rewrite (Hall row) in H by auto. inversion H. reflexivity.
Qed.

Lemma latest_token_all svc t rows :
  (forall row, In row rows -> service row = svc ->
     Encryption.decrypt (token_encrypted row) = Return t) ->
  (exists row, In row rows /\ service row = svc) ->
  latest_token svc rows = Some t.
Proof.
  intros Hall Hex.
  destruct (latest_token svc rows) as [t'|] eqn:L.
  - f_equal. exact (latest_token_among svc t rows Hall t' L).
  - exfalso. destruct Hex as (r & Hin & Hs).
    induction rows as [|row rest IH]; simpl in *; [contradiction|].
    destruct (latest_token svc rest) as [u|]; [discriminate|].
    destruct Hin as [->|Hin].
    + rewrite Hs, String.eqb_refl, (Hall r) in L by auto. discriminate.
    + apply IH; auto.
Qed.

Lemma latest_token_none svc rows :
  (forall row, In row rows -> service row <> svc) ->
  latest_token svc rows = None.
Proof.
  induction rows as [|row rest IH]; simpl; intros H; [reflexivity|].
  rewrite IH by auto.
  destruct (String.eqb_spec (service row) svc) as [E|N]; [|reflexivity].
  destruct (H row); auto.
Qed.

(** Only the rows of the service count. *)
Lemma latest_token_of_service svc rows :
  latest_token svc rows
  = latest_token svc
      (filter (fun row => String.eqb (service row) svc) rows).
Proof.
  induction rows as [|row rest IH]; simpl; [reflexivity|].
  destruct (String.eqb (service row) svc) eqn:E; simpl.
  - rewrite <- IH, E. reflexivity.
  - rewrite <- IH. destruct (latest_token svc rest); reflexivity.
Qed.

Lemma active_of_user userId row :
  active_of userId row = true ->
  t_user_id row = userId /\ t_is_active row = Some 1%Z.
Proof.
  unfold active_of. intros H. apply andb_true_iff in H as [Hu Ha].
  apply String.eqb_eq in Hu.
  destruct (t_is_active row) as [a|]; [|discriminate].
  apply Z.eqb_eq in Ha. subst. auto.
Qed.

(** The tokens of a user depend on the rows of that user only. *)
Lemma getUserTokens_rows_of userId d d' :
  rows_of userId d' = rows_of userId d ->
  getUserTokens userId d' = getUserTokens userId d.
Proof.
  intros H. unfold getUserTokens.
  change (filter _ d') with (filter (active_of userId) d').
  change (filter _ d) with (filter (active_of userId) d).
  rewrite <- (filter_filter_implied (active_of userId)
                (fun row => String.eqb (t_user_id row) userId) d').
  - rewrite <- (filter_filter_implied (active_of userId)
                  (fun row => String.eqb (t_user_id row) userId) d).
    + unfold rows_of in H. rewrite H. reflexivity.
    + intros x Hx. apply andb_true_iff in Hx. tauto.
  - intros x Hx. apply andb_true_iff in Hx. tauto.
Qed.

(** An update that keeps the four columns [getUserTokens] reads keeps its
    result. *)
Lemma getUserTokens_map userId (f : ai_token -> ai_token) d :
  (forall row,
     t_user_id (f row) = t_user_id row /\
     t_is_active (f row) = t_is_active row /\
     service (f row) = service row /\
     token_encrypted (f row) = token_encrypted row) ->
  getUserTokens userId (map f d) = getUserTokens userId d.
Proof.
  intros H. unfold getUserTokens. generalize (@nil (string * jsstring)).
  induction d as [|row rest IH]; intros acc; simpl; [reflexivity|].
  destruct (H row) as (Hu & Ha & Hs & Ht). rewrite Hu, Ha.
  destruct (String.eqb (t_user_id row) userId
            && match t_is_active row with
               | Some a => (a =? 1)%Z
               | None => false
               end); simpl.
  - rewrite Hs, Ht. apply IH.
  - apply IH.
Qed.

Lemma unique_id (d : db) r r' :
  NoDup (map t_id d) -> In r d -> In r' d -> t_id r = t_id r' -> r = r'.
Proof.
  induction d as [|x rest IH]; simpl; intros Hnd Hr Hr' E; [contradiction|].
  inversion Hnd as [|? ? Hnot Hrest]; subst.
  destruct Hr as [->|Hr], Hr' as [->|Hr']; auto.
  - exfalso. apply Hnot. rewrite E. apply in_map. exact Hr'.
  - exfalso. apply Hnot. rewrite <- E. apply in_map. exact Hr.
Qed.

End TokenFacts.

Section CompletionFacts.
Context {crypto : Crypto} {platform : LLMPlatform}.
Import LLM.

(** A provider is called only with a token that the object holds. *)
Lemma attempted_configured tokens prompt o ps svc :
  In svc (map fst (attempted_calls tokens prompt o ps)) ->
  In svc (map name ps) /\ object_get tokens svc <> None.
Proof.
  unfold attempted_calls. intros H.
  apply in_map_iff in H as ([s r] & Hs & Hin). simpl in Hs. subst s.
  apply in_flat_map in Hin as (p & Hp & Hin).
  unfold configured in Hin.
  destruct (object_get tokens (name p)) as [[|c rest]|] eqn:G;
    simpl in Hin; try contradiction.
  destruct Hin as [E|[]]. inversion E; subst.
  split; [apply in_map; exact Hp | congruence].
Qed.

Lemma attempted_calls_none tokens prompt o ps :
  (forall svc, object_get tokens svc = None) ->
  attempted_calls tokens prompt o ps = [].
Proof.
  intros H. unfold attempted_calls.
  induction ps as [|p rest IH]; simpl; [reflexivity|].
  unfold configured at 1. rewrite H. exact IH.
Qed.

Lemma updateLastUsed_forget userId svc now d :
  map forget_last_used (updateLastUsed userId svc now d)
  = map forget_last_used d.
Proof.
  unfold updateLastUsed. rewrite map_map. apply map_ext. intros row.
  destruct (String.eqb (t_user_id row) userId
            && String.eqb (service row) svc); reflexivity.
Qed.

Lemma updateLastUsed_tokens userId svc now u d :
  getUserTokens u (updateLastUsed userId svc now d) = getUserTokens u d.
Proof.
  unfold updateLastUsed. apply getUserTokens_map. intros row.
  destruct (String.eqb (t_user_id row) userId
            && String.eqb (service row) svc); simpl; auto.
Qed.

(** The table after a completion: as before, or stamped for one service. *)
Lemma generateCompletion_table userId prompt o now d :
  snd (generateCompletion userId prompt o now d) = d \/
  exists svc,
    snd (generateCompletion userId prompt o now d)
    = updateLastUsed userId svc now d.
Proof.
  unfold generateCompletion. rewrite attempt_spec.
  destruct (first_success _) as [[svc t]|]; simpl; eauto.
Qed.

End CompletionFacts.

(** X5. A token that POST /api/ai-tokens accepted is the token that
    [getUserTokens] hands to the provider calls: with a usable key, a
    16-byte nonce and a well-formed token of at least ten units for one of
    the five services, the route answers 200 or 201 and the user's object
    of tokens then holds exactly this token for the service, whatever was
    stored for it before. *)
Theorem X5_post_token_then_getUserTokens
    (crypto : Crypto) (userId svc : string) (token : jsstring)
    (iv : list Byte.byte) (id now : string)
    (default_updated_at : option string) (d : LLM.db) :
  Encryption.key_accepted Encryption.getKey = true ->
  List.length iv = 16%nat ->
  well_formed token = true ->
  (10 <= List.length token)%nat ->
  In svc TokenRoutes.validServices ->
  exists r d',
    TokenRoutes.post_token userId (Some svc) (VString token) iv id now
      default_updated_at d
    = (r, d') /\
    (TokenRoutes.status r = 200%Z \/ TokenRoutes.status r = 201%Z) /\
    LLM.object_get (LLM.getUserTokens userId d') svc = Some token.
Proof.
  intros Hk Hiv Hwf Hlen Hsvc.
  assert (Hne : token <> []) by (destruct token; simpl in Hlen; [lia | discriminate]).
  assert (E1 : String.eqb svc "" = false).
  { simpl in Hsvc. intuition subst; reflexivity. }
  assert (E2 : existsb (String.eqb svc) TokenRoutes.validServices = true).
  { apply existsb_exists. exists svc. split; [exact Hsvc|].
    apply String.eqb_refl. }
  assert (E3 : truthy (VString token) = true)
    by (destruct token; [congruence | reflexivity]).
  assert (E4 : TokenRoutes.too_short (VString token) = false)
    by (apply Nat.ltb_ge; exact Hlen).
  unfold TokenRoutes.post_token. rewrite E1, E2, E3, E4. cbn [orb negb].
  rewrite (encrypt_returns iv token Hne Hk).
  set (c := hex_encode iv ++ _).
  assert (Hd : Encryption.decrypt (VString c) = Return token).
  { erewrite decrypt_encrypt_decodes;
      [ rewrite utf8_roundtrip by exact Hwf; reflexivity
      | exact Hk | exact Hiv | exact Hne
      | apply encrypt_returns; assumption ]. }
  destruct (find (TokenRoutes.of_user_service userId svc) d) as [found|] eqn:F.
  - eexists _, _. split; [reflexivity|]. split; [left; reflexivity|].
    rewrite getUserTokens_lookup. apply latest_token_all.
    + intros row Hin Hs. apply filter_In in Hin as [Hin Hact].
      apply in_map_iff in Hin as (r0 & Hr0 & Hin0).
      destruct (TokenRoutes.of_user_service userId svc r0) eqn:O.
      * subst row. exact Hd.
      * subst row. apply active_of_user in Hact as [Hu _].
        unfold TokenRoutes.of_user_service in O.
        rewrite Hu, Hs, !String.eqb_refl in O. discriminate.
    + apply find_some in F as [Hin O].
      pose proof O as O'. unfold TokenRoutes.of_user_service in O'.
      apply andb_true_iff in O' as [Hu Hs].
      apply String.eqb_eq in Hu. apply String.eqb_eq in Hs.
      eexists. split.
      * apply filter_In. split.
        -- apply in_map_iff. exists found. split; [reflexivity | exact Hin].
        -- rewrite O. unfold active_of. simpl. rewrite Hu, String.eqb_refl.
           reflexivity.
      * rewrite O. exact Hs.
  - eexists _, _. split; [reflexivity|]. split; [right; reflexivity|].
    rewrite getUserTokens_lookup, filter_app. apply latest_token_all.
    + intros row Hin Hs. apply in_app_or in Hin as [Hin|Hin].
      * apply filter_In in Hin as [Hin Hact].
        apply active_of_user in Hact as [Hu _].
        pose proof (find_none _ _ F row Hin) as O.
        unfold TokenRoutes.of_user_service in O.
        rewrite Hu, Hs, !String.eqb_refl in O. discriminate.
      * simpl in Hin. unfold active_of in Hin. simpl in Hin.
        rewrite String.eqb_refl in Hin. simpl in Hin.
        destruct Hin as [<-|[]]. exact Hd.
    + eexists. split.
      * apply in_or_app. right. simpl. unfold active_of. simpl.
        rewrite String.eqb_refl. simpl. left. reflexivity.
      * reflexivity.
Qed.

Lemma X5_post_token_then_getUserTokens_witness :
  exists r d',
    @TokenRoutes.post_token hex_key_crypto "u1" (Some "together")
      (VString (js "tgp_v1_secret_token")) (zero_bytes 16) "t4"
      "2024-02-01 10:00:00" None example_tokens_db = (r, d') /\
    (TokenRoutes.status r = 200%Z \/ TokenRoutes.status r = 201%Z) /\
    LLM.object_get (@LLM.getUserTokens hex_key_crypto "u1" d') "together"
    = Some (js "tgp_v1_secret_token").
Proof.
  apply (X5_post_token_then_getUserTokens hex_key_crypto "u1" "together"
           (js "tgp_v1_secret_token") (zero_bytes 16) "t4"
           "2024-02-01 10:00:00" None example_tokens_db).
  - reflexivity.
  - reflexivity.
  - vm_compute. reflexivity.
  - simpl. lia.
  - simpl. tauto.
Defined.

Section RouteFacts.
Context {crypto : Crypto}.
Import LLM.

Lemma rows_of_app other d extra :
  Forall (fun row => t_user_id row <> other) extra ->
  rows_of other (d ++ extra) = rows_of other d.
Proof.
  intros H. unfold rows_of. rewrite filter_app.
  replace (filter _ extra) with (@nil ai_token); [apply app_nil_r|].
  induction H as [|row rest Hrow _ IH]; simpl; [reflexivity|].
  destruct (String.eqb_spec (t_user_id row) other); [contradiction | exact IH].
Qed.

Lemma rows_of_update other (touched : ai_token -> bool)
    (f : ai_token -> ai_token) d :
  (forall row, t_user_id (f row) = t_user_id row) ->
  (forall row, touched row = true -> t_user_id row <> other) ->
  rows_of other (map (fun row => if touched row then f row else row) d)
  = rows_of other d.
Proof.
  intros Hf Ht. unfold rows_of. apply filter_map_fixed.
  - intros row _. destruct (touched row); [rewrite Hf|]; reflexivity.
  - intros row _ Hu. apply String.eqb_eq in Hu.
    destruct (touched row) eqn:T; [|reflexivity].
    destruct (Ht row T Hu).
Qed.

Lemma rows_of_delete other (gone : ai_token -> bool) d :
  (forall row, gone row = true -> t_user_id row <> other) ->
  rows_of other (filter (fun row => negb (gone row)) d) = rows_of other d.
Proof.
  intros H. unfold rows_of. apply filter_filter_implied.
  intros row Hu. apply String.eqb_eq in Hu.
  destruct (gone row) eqn:G; [destruct (H row G Hu) | reflexivity].
Qed.

Lemma of_user_service_user userId svc row :
  TokenRoutes.of_user_service userId svc row = true ->
  t_user_id row = userId /\ service row = svc.
Proof.
  unfold TokenRoutes.of_user_service. intros H.
  apply andb_true_iff in H as [Hu Hs].
  apply String.eqb_eq in Hu. apply String.eqb_eq in Hs. auto.
Qed.

Lemma of_user_id_user userId id row :
  TokenRoutes.of_user_id userId id row = true ->
  t_id row = id /\ t_user_id row = userId.
Proof.
  unfold TokenRoutes.of_user_id. intros H.
  apply andb_true_iff in H as [Hi Hu].
  apply String.eqb_eq in Hu. apply String.eqb_eq in Hi. auto.
Qed.

Lemma post_token_rows_of userId other service token iv id now dflt d :
  other <> userId ->
  rows_of other
    (snd (TokenRoutes.post_token userId service token iv id now dflt d))
  = rows_of other d.
Proof.
  intros Hne. unfold TokenRoutes.post_token.
  destruct service as [svc|]; [|reflexivity].
  destruct (String.eqb svc "" || negb (truthy token)); [reflexivity|].
  destruct (negb (existsb _ _)); [reflexivity|].
  destruct (TokenRoutes.too_short token); [reflexivity|].
  destruct (Encryption.encrypt iv token) as [c|m]; [|reflexivity].
  destruct (find _ d); cbn [snd].
  - apply rows_of_update; [reflexivity|].
    intros row O. apply of_user_service_user in O as [Hu _]. congruence.
  - apply rows_of_app. constructor; [simpl; congruence | constructor].
Qed.

Lemma toggle_token_rows_of userId other id now d :
  other <> userId ->
  rows_of other (snd (TokenRoutes.toggle_token userId id now d))
  = rows_of other d.
Proof.
  intros Hne. unfold TokenRoutes.toggle_token.
  destruct (find _ d); [|reflexivity]. cbn [snd].
  apply rows_of_update; [reflexivity|].
  intros row O. apply of_user_id_user in O as [_ Hu]. congruence.
Qed.

Lemma delete_token_rows_of userId other id d :
  other <> userId ->
  rows_of other (snd (TokenRoutes.delete_token userId id d))
  = rows_of other d.
Proof.
  intros Hne. unfold TokenRoutes.delete_token.
  destruct (Nat.eqb _ 0); [reflexivity|]. cbn [snd].
  apply rows_of_delete.
  intros row O. apply of_user_id_user in O as [_ Hu]. congruence.
Qed.

Lemma toggle_token_found userId id now d row :
  find (TokenRoutes.of_user_id userId id) d = Some row ->
  TokenRoutes.toggle_token userId id now d
  = let newStatus :=
      match t_is_active row with
      | Some 1%Z => 0%Z
      | _ => 1%Z
      end in
    (TokenRoutes.respond 200
       (TokenRoutes.Toggled
          (if (newStatus =? 1)%Z
           then "Token activated successfully"
           else "Token deactivated successfully")
          (newStatus =? 1)%Z),
     map (fun r =>
            if TokenRoutes.of_user_id userId id r
            then {| t_id := t_id r;
                    t_user_id := t_user_id r;
                    service := service r;
                    token_encrypted := token_encrypted r;
                    t_is_active := Some newStatus;
                    last_used := last_used r;
                    updated_at := Some now |}
            else r) d).
Proof.
  intros F. unfold TokenRoutes.toggle_token. rewrite F. reflexivity.
Qed.

End RouteFacts.

(** X6. The three writing routes of /api/ai-tokens (add or update, toggle,
    delete) never touch another user's rows, whatever the request holds:
    the rows of every other user, and with them the tokens that user's
    completions are given, are the same before and after. *)
Theorem X6_token_routes_scoped_to_user
    (crypto : Crypto) (userId other : string) (service : option string)
    (token : jsvalue) (iv : list Byte.byte) (id now : string)
    (default_updated_at : option string) (d : LLM.db) :
  other <> userId ->
  let untouched d' :=
    rows_of other d' = rows_of other d /\
    LLM.getUserTokens other d' = LLM.getUserTokens other d in
  untouched
    (snd (TokenRoutes.post_token userId service token iv id now
            default_updated_at d)) /\
  untouched (snd (TokenRoutes.toggle_token userId id now d)) /\
  untouched (snd (TokenRoutes.delete_token userId id d)).
Proof.
  intros Hne. cbv zeta.
  pose proof (post_token_rows_of userId other service token iv id now
                default_updated_at d Hne).
  pose proof (toggle_token_rows_of userId other id now d Hne).
  pose proof (delete_token_rows_of userId other id d Hne).
  repeat split; auto using getUserTokens_rows_of.
Qed.

Lemma X6_token_routes_scoped_to_user_witness :
  let untouched d' :=
    rows_of "u2" d' = rows_of "u2" example_tokens_db /\
    @LLM.getUserTokens hex_key_crypto "u2" d'
    = @LLM.getUserTokens hex_key_crypto "u2" example_tokens_db in
  untouched
    (snd (@TokenRoutes.post_token hex_key_crypto "u1" (Some "huggingface")
            (VString (js "hf_replacement_token")) (zero_bytes 16) "t3"
            "2024-02-01 10:00:00" None example_tokens_db)) /\
  untouched
    (snd (TokenRoutes.toggle_token "u1" "t3" "2024-02-01 10:00:00"
            example_tokens_db)) /\
  untouched (snd (TokenRoutes.delete_token "u1" "t3" example_tokens_db)).
Proof.
  apply (X6_token_routes_scoped_to_user hex_key_crypto "u1" "u2"
           (Some "huggingface") (VString (js "hf_replacement_token"))
           (zero_bytes 16) "t3" "2024-02-01 10:00:00" None
           example_tokens_db).
  discriminate.
Defined.

(** X7. POST /api/ai-tokens writes only for valid input: either it answers
    400 or 500 and the table is as it was, or it answers 200 or 201 and
    then the service is one of the five, the token is a string of at least
    ten code units and [encrypt] returned. *)
Theorem X7_post_token_stores_only_valid_input
    (crypto : Crypto) (userId : string) (service : option string)
    (token : jsvalue) (iv : list Byte.byte) (id now : string)
    (default_updated_at : option string) (d : LLM.db) :
  let r :=
    fst (TokenRoutes.post_token userId service token iv id now
           default_updated_at d) in
  let d' :=
    snd (TokenRoutes.post_token userId service token iv id now
           default_updated_at d) in
  ((TokenRoutes.status r = 400%Z \/ TokenRoutes.status r = 500%Z) /\ d' = d)
  \/
  ((TokenRoutes.status r = 200%Z \/ TokenRoutes.status r = 201%Z) /\
   exists svc t ciphertext,
     service = Some svc /\ In svc TokenRoutes.validServices /\
     token = VString t /\ (10 <= List.length t)%nat /\
     Encryption.encrypt iv token = Return ciphertext).
Proof.
  cbv zeta. unfold TokenRoutes.post_token.
  destruct service as [svc|]; [|left; simpl; auto].
  destruct (String.eqb svc "" || negb (truthy token)) eqn:E1;
    [left; simpl; auto|].
  destruct (existsb (String.eqb svc) TokenRoutes.validServices) eqn:E2;
    cbn [negb]; [|left; simpl; auto].
  destruct (TokenRoutes.too_short token) eqn:E3; [left; simpl; auto|].
  destruct (Encryption.encrypt iv token) as [c|m] eqn:E4;
    [|left; simpl; auto].
  right.
  assert (Hvalid : In svc TokenRoutes.validServices).
  { apply existsb_exists in E2 as (x & Hin & Hx).
    apply String.eqb_eq in Hx. subst x. exact Hin. }
  assert (Hstr : exists t, token = VString t /\ (10 <= List.length t)%nat).
  { unfold Encryption.encrypt in E4.
    destruct (negb (truthy token)); [discriminate|].
    destruct token as [| |b|x|t]; try discriminate.
    exists t. split; [reflexivity|].
    simpl in E3. apply Nat.ltb_ge in E3. exact E3. }
  destruct Hstr as (t & -> & Hlen).
  split.
  - destruct (find _ d); simpl; auto.
  - exists svc, t, c. auto.
Qed.

(** X8. Deactivating a token takes its provider out of the fallback: when
    the ids of the table are distinct and the toggled row is the user's
    only row for its service and is active, PUT /:id/toggle answers 200
    with [is_active] false, afterwards the user's tokens hold nothing for
    that service and every other service as before, and
    [generateCompletion] no longer calls that provider. *)
Theorem X8_toggle_deactivates_provider
    (crypto : Crypto) (platform : LLMPlatform)
    (userId id svc now : string) (row : LLM.ai_token) (d : LLM.db)
    (prompt : jsstring) (o : options) :
  NoDup (map LLM.t_id d) ->
  In row d ->
  LLM.t_id row = id -> LLM.t_user_id row = userId ->
  LLM.service row = svc -> LLM.t_is_active row = Some 1%Z ->
  (forall r, In r d -> LLM.t_user_id r = userId -> LLM.service r = svc ->
     LLM.t_id r = id) ->
  exists d',
    TokenRoutes.toggle_token userId id now d
    = (TokenRoutes.respond 200
         (TokenRoutes.Toggled "Token deactivated successfully" false), d') /\
    LLM.object_get (LLM.getUserTokens userId d') svc = None /\
    (forall svc', svc' <> svc ->
       LLM.object_get (LLM.getUserTokens userId d') svc'
       = LLM.object_get (LLM.getUserTokens userId d) svc') /\
    ~ In svc
        (map fst
           (attempted_calls (LLM.getUserTokens userId d') prompt o
              LLM.providers)).
Proof.
  intros Hnd Hin Hid Hu Hs Ha Hone.
  assert (Hrow : TokenRoutes.of_user_id userId id row = true).
  { unfold TokenRoutes.of_user_id. rewrite Hid, Hu, !String.eqb_refl.
    reflexivity. }
  assert (Honly : forall r, In r d ->
            TokenRoutes.of_user_id userId id r = true -> r = row).
  { intros r Hr O. apply of_user_id_user in O as [Hi _].
    apply (unique_id d); auto. congruence. }
  unfold TokenRoutes.toggle_token.
  destruct (find (TokenRoutes.of_user_id userId id) d) as [found|] eqn:F.
  2:{ rewrite (find_none _ _ F row Hin) in Hrow. discriminate. }
  apply find_some in F as [Hf Of].
  rewrite (Honly found Hf Of), Ha. cbn [Z.eqb].
  eexists. split; [reflexivity|].
  set (d' := map _ d).
  assert (Hgone : LLM.object_get (LLM.getUserTokens userId d') svc = None).
  { rewrite getUserTokens_lookup. apply latest_token_none.
    intros r Hr Hsvc. apply filter_In in Hr as [Hr Hact].
    apply active_of_user in Hact as [Hur Har].
    apply in_map_iff in Hr as (r0 & Hr0 & Hin0).
    destruct (TokenRoutes.of_user_id userId id r0) eqn:O.
    - subst r. simpl in Har. discriminate.
    - subst r. assert (Hi : LLM.t_id r0 = id) by (apply Hone; auto).
      unfold TokenRoutes.of_user_id in O.
      rewrite Hi, Hur, !String.eqb_refl in O. discriminate. }
  split; [exact Hgone|]. split.
  - intros svc' Hne. rewrite !getUserTokens_lookup.
    rewrite (latest_token_of_service svc' (filter _ d')).
    rewrite (latest_token_of_service svc' (filter _ d)).
    f_equal. subst d'. clear Hgone Hin Hf.
    induction d as [|r rest IH]; [reflexivity|].
    assert (IH' : filter (fun row0 => String.eqb (LLM.service row0) svc')
                    (filter (active_of userId)
                       (map (fun row0 =>
                               if TokenRoutes.of_user_id userId id row0
                               then {| LLM.t_id := LLM.t_id row0;
                                       LLM.t_user_id := LLM.t_user_id row0;
                                       LLM.service := LLM.service row0;
                                       LLM.token_encrypted :=
                                         LLM.token_encrypted row0;
                                       LLM.t_is_active := Some 0%Z;
                                       LLM.last_used := LLM.last_used row0;
                                       LLM.updated_at := Some now |}
                               else row0) rest))
                  = filter (fun row0 => String.eqb (LLM.service row0) svc')
                      (filter (active_of userId) rest)).
    { apply IH.
      - inversion Hnd; assumption.
      - intros r0 H0. apply Hone. right. exact H0.
      - intros r0 H0. apply Honly. right. exact H0. }
    cbn [map filter].
    destruct (TokenRoutes.of_user_id userId id r) eqn:O.
    + assert (r = row) by (apply Honly; [left; reflexivity | exact O]).
      subst r.
      assert (A : active_of userId row = true)
        by (unfold active_of; rewrite Hu, Ha, String.eqb_refl; reflexivity).
      rewrite A.
      match goal with
      | |- context [active_of userId ?x] =>
          replace (active_of userId x) with false
            by (unfold active_of; cbn; rewrite Hu, String.eqb_refl;
                reflexivity)
      end.
      cbn [filter].
      destruct (String.eqb_spec (LLM.service row) svc') as [E|_];
        [congruence | exact IH'].
    + destruct (active_of userId r); cbn [filter];
        [destruct (String.eqb (LLM.service r) svc'); [f_equal|] |];
        exact IH'.
  - intros Hcalled. apply attempted_configured in Hcalled as [_ Hsome].
    contradiction.
Qed.

Lemma X8_toggle_deactivates_provider_witness :
  exists d',
    TokenRoutes.toggle_token "u1" "t1" "2024-02-01 10:00:00"
      example_tokens_db
    = (TokenRoutes.respond 200
         (TokenRoutes.Toggled "Token deactivated successfully" false), d') /\
    LLM.object_get (@LLM.getUserTokens hex_key_crypto "u1" d') "groq" = None /\
    (forall svc', svc' <> "groq" ->
       LLM.object_get (@LLM.getUserTokens hex_key_crypto "u1" d') svc'
       = LLM.object_get
           (@LLM.getUserTokens hex_key_crypto "u1" example_tokens_db) svc') /\
    ~ In "groq"
        (map fst
           (attempted_calls (@LLM.getUserTokens hex_key_crypto "u1" d')
              (js "How am I doing?") no_options
              (@LLM.providers (example_platform (js "ok"))))).
Proof.
  apply (X8_toggle_deactivates_provider hex_key_crypto
           (example_platform (js "ok")) "u1" "t1" "groq"
           "2024-02-01 10:00:00"
           (nth 0 example_tokens_db
              {| LLM.t_id := ""; LLM.t_user_id := ""; LLM.service := "";
                 LLM.token_encrypted := VNull; LLM.t_is_active := None;
                 LLM.last_used := None; LLM.updated_at := None |})
           example_tokens_db).
  - repeat constructor; simpl; intuition discriminate.
  - left. reflexivity.
  - reflexivity.
  - reflexivity.
  - reflexivity.
  - reflexivity.
  - intros r Hr Hu Hs. simpl in Hr.
    destruct Hr as [<-|[<-|[<-|[]]]]; try reflexivity; discriminate.
Defined.

(** X9. Toggling a token twice restores everything but the stamp: with
    distinct ids and flags that are 0 or 1, after a second PUT /:id/toggle
    every row has its columns as before the first, [updated_at] apart,
    which on the toggled rows is the time of the second toggle; the rows
    that the toggle does not address are untouched; the two answers have
    the same status and, when they are 200, opposite [is_active]. *)
Theorem X9_toggle_twice_restores
    (userId id now1 now2 : string) (d : LLM.db) :
  NoDup (map LLM.t_id d) ->
  Forall (fun row => LLM.t_is_active row = Some 0%Z \/
                     LLM.t_is_active row = Some 1%Z) d ->
  let first := TokenRoutes.toggle_token userId id now1 d in
  let second := TokenRoutes.toggle_token userId id now2 (snd first) in
  Forall2
    (fun before after =>
       forget_updated_at after = forget_updated_at before /\
       LLM.updated_at after
       = if TokenRoutes.of_user_id userId id before then Some now2
         else LLM.updated_at before)
    d (snd second) /\
  TokenRoutes.status (fst second) = TokenRoutes.status (fst first) /\
  forall message b,
    TokenRoutes.body (fst first) = TokenRoutes.Toggled message b ->
    exists message',
      TokenRoutes.body (fst second) = TokenRoutes.Toggled message' (negb b).
Proof.
  intros Hnd Hbin. cbv zeta.
  assert (Hsame : forall l : LLM.db,
            (forall r, In r l ->
               TokenRoutes.of_user_id userId id r = false) ->
            Forall2
              (fun before after =>
                 forget_updated_at after = forget_updated_at before /\
                 LLM.updated_at after
                 = if TokenRoutes.of_user_id userId id before then Some now2
                   else LLM.updated_at before) l l).
  { induction l as [|r rest IH]; intros H; constructor.
    - rewrite (H r) by (left; reflexivity). auto.
    - apply IH. intros x Hx. apply H. right. exact Hx. }
  destruct (find (TokenRoutes.of_user_id userId id) d) as [row|] eqn:F.
  2:{ unfold TokenRoutes.toggle_token. rewrite F. cbn [snd fst]. rewrite F.
      cbn [snd fst]. split; [|split; [reflexivity|]].
      - apply Hsame. intros r Hr. exact (find_none _ _ F r Hr).
      - intros message b H. discriminate. }
  pose proof (find_some _ _ F) as [Hin O].
  assert (Honly : forall r, In r d ->
            TokenRoutes.of_user_id userId id r = true -> r = row).
  { intros r Hr Or. apply of_user_id_user in Or as [Hi _].
    pose proof (of_user_id_user _ _ _ O) as [Hi' _].
    apply (unique_id d); auto. congruence. }
  rewrite (toggle_token_found userId id now1 d row F). cbv zeta.
  cbn [snd fst].
  set (flag := match LLM.t_is_active row with
               | Some 1%Z => 0%Z
               | _ => 1%Z
               end).
  set (d1 := map _ d).
  assert (F1 : find (TokenRoutes.of_user_id userId id) d1
               = Some {| LLM.t_id := LLM.t_id row;
                         LLM.t_user_id := LLM.t_user_id row;
                         LLM.service := LLM.service row;
                         LLM.token_encrypted := LLM.token_encrypted row;
                         LLM.t_is_active := Some flag;
                         LLM.last_used := LLM.last_used row;
                         LLM.updated_at := Some now1 |}).
  { subst d1. rewrite find_map_same, F.
    - cbn [option_map]. rewrite O. reflexivity.
    - intros x. destruct (TokenRoutes.of_user_id userId id x) eqn:Ox;
        exact Ox. }
  rewrite (toggle_token_found userId id now2 d1 _ F1). cbv zeta.
  cbn [snd fst LLM.t_is_active TokenRoutes.status TokenRoutes.body
       TokenRoutes.respond].
  rewrite Forall_forall in Hbin.
  assert (Hflag : match flag with 1%Z => 0%Z | _ => 1%Z end = 
                  match LLM.t_is_active row with
                  | Some a => a
                  | None => 0%Z
                  end /\
                  ((match flag with 1%Z => 0%Z | _ => 1%Z end =? 1)%Z
                   = negb (flag =? 1)%Z) /\
                  exists a, LLM.t_is_active row = Some a).
  { subst flag. destruct (Hbin row Hin) as [H|H]; rewrite H; eauto. }
  destruct Hflag as (Hf1 & Hf2 & a & Ha). rewrite Hf2, Hf1, Ha.
  split.
  - subst d1. rewrite map_map. clear F F1 Hsame Hin.
    induction d as [|r rest IH]; cbn [map]; constructor.
    + destruct (TokenRoutes.of_user_id userId id r) eqn:Or.
      * change (TokenRoutes.of_user_id userId id _)
          with (TokenRoutes.of_user_id userId id r). rewrite Or.
        rewrite (Honly r (or_introl eq_refl) Or) in *.
        unfold forget_updated_at. cbn. rewrite Ha. auto.
      * rewrite Or. auto.
    + apply IH.
      * inversion Hnd; assumption.
      * intros x Hx. apply Hbin. right. exact Hx.
      * intros x Hx. apply Honly. right. exact Hx.
  - split; [reflexivity|].
    intros message b E. inversion E. eexists. reflexivity.
Qed.

Lemma X9_toggle_twice_restores_witness :
  let first :=
    TokenRoutes.toggle_token "u1" "t2" "2024-02-01 10:00:00"
      example_tokens_db in
  let second :=
    TokenRoutes.toggle_token "u1" "t2" "2024-02-01 10:05:00" (snd first) in
  Forall2
    (fun before after =>
       forget_updated_at after = forget_updated_at before /\
       LLM.updated_at after
       = if TokenRoutes.of_user_id "u1" "t2" before
         then Some "2024-02-01 10:05:00"
         else LLM.updated_at before)
    example_tokens_db (snd second) /\
  TokenRoutes.status (fst second) = TokenRoutes.status (fst first) /\
  forall message b,
    TokenRoutes.body (fst first) = TokenRoutes.Toggled message b ->
    exists message',
      TokenRoutes.body (fst second) = TokenRoutes.Toggled message' (negb b).
Proof.
  apply (X9_toggle_twice_restores "u1" "t2" "2024-02-01 10:00:00"
           "2024-02-01 10:05:00" example_tokens_db).
  - repeat constructor; simpl; intuition discriminate.
  - repeat constructor; right; reflexivity.
Defined.

(** X10. Without an active token row of the user, [generateCompletion] and
    [generateFinancialInsights] throw 'No AI tokens configured...' and
    leave the table as it is, whatever the providers would answer. *)
Theorem X10_no_active_token_throws
    (crypto : Crypto) (platform : LLMPlatform)
    (userId : string) (prompt : jsstring) (o : options)
    (data : financialData) (now : string) (d : LLM.db) :
  (forall row, In row d -> LLM.t_user_id row = userId ->
     LLM.t_is_active row <> Some 1%Z) ->
  let message :=
    js "No AI tokens configured. Please add at least one token in AI Settings."
  in
  LLM.generateCompletion userId prompt o now d = (Throw message, d) /\
  LLM.generateFinancialInsights userId data now d = (Throw message, d).
Proof.
  intros Hnone. cbv zeta.
  assert (E : forall p,
            LLM.generateCompletion userId p o now d
            = (Throw (js "No AI tokens configured. Please add at least one token in AI Settings."), d)
            /\ LLM.generateCompletion userId p LLM.insights_options now d
            = (Throw (js "No AI tokens configured. Please add at least one token in AI Settings."), d)).
  { intros p. unfold LLM.generateCompletion. rewrite !attempt_spec.
    rewrite !attempted_calls_none; [split; reflexivity | |].
    all: intros svc;
      destruct (LLM.object_get (LLM.getUserTokens userId d) svc) eqn:G;
      [|reflexivity]; exfalso;
      apply getUserTokens_active in G as (row & Hin & Hu & Ha & _);
      exact (Hnone row Hin Hu Ha). }
  split; [apply E|].
  unfold LLM.generateFinancialInsights.
  rewrite (proj2 (E (buildFinancialPrompt data))). reflexivity.
Qed.

Lemma X10_no_active_token_throws_witness :
  let message :=
    js "No AI tokens configured. Please add at least one token in AI Settings."
  in
  @LLM.generateCompletion hex_key_crypto (example_platform (js "ok")) "u3"
    (js "How am I doing?") no_options "2024-02-01 10:00:00"
    example_tokens_db = (Throw message, example_tokens_db) /\
  @LLM.generateFinancialInsights hex_key_crypto (example_platform (js "ok"))
    "u3" tt "2024-02-01 10:00:00" example_tokens_db
  = (Throw message, example_tokens_db).
Proof.
  apply (X10_no_active_token_throws hex_key_crypto
           (example_platform (js "ok")) "u3" (js "How am I doing?")
           no_options tt "2024-02-01 10:00:00" example_tokens_db).
  intros row Hin Hu. simpl in Hin.
  destruct Hin as [<-|[<-|[<-|[]]]]; discriminate Hu.
Defined.

(** X11. A completion changes nothing in the token table but [last_used]:
    after [generateCompletion], successful or not, every row is as before
    up to its stamp, every user's usable tokens are the same, and the rows
    of the other users are untouched. *)
Theorem X11_completion_changes_only_last_used
    (crypto : Crypto) (platform : LLMPlatform)
    (userId : string) (prompt : jsstring) (o : options) (now : string)
    (d : LLM.db) :
  let d' := snd (LLM.generateCompletion userId prompt o now d) in
  map forget_last_used d' = map forget_last_used d /\
  (forall u, LLM.getUserTokens u d' = LLM.getUserTokens u d) /\
  (forall other, other <> userId -> rows_of other d' = rows_of other d).
Proof.
  cbv zeta.
  destruct (generateCompletion_table userId prompt o now d) as [->|(svc & ->)].
  - auto.
  - split; [apply updateLastUsed_forget|].
    split; [intros u; apply updateLastUsed_tokens|].
    intros other Hne. unfold LLM.updateLastUsed.
    apply (rows_of_update other
             (fun row => String.eqb (LLM.t_user_id row) userId
                         && String.eqb (LLM.service row) svc)
             (fun row => {| LLM.t_id := LLM.t_id row;
                            LLM.t_user_id := LLM.t_user_id row;
                            LLM.service := LLM.service row;
                            LLM.token_encrypted := LLM.token_encrypted row;
                            LLM.t_is_active := LLM.t_is_active row;
                            LLM.last_used := Some now;
                            LLM.updated_at := LLM.updated_at row |})).
    + reflexivity.
    + intros row T. apply andb_true_iff in T as [Hu _].
      apply String.eqb_eq in Hu. congruence.
Qed.

Section InsightLines.
Import LLM.

Lemma item_marker_not_space c :
  (is_digit c || (c =? 42) || (c =? 45) || (c =? 8226))%N = true ->
  is_space c = false.
Proof.
  intros H. unfold is_digit in H.
  assert (Hc : (48 <= c <= 57 \/ c = 42 \/ c = 45 \/ c = 8226)%N).
  { repeat (apply orb_true_iff in H; destruct H as [H|H]).
    - apply andb_true_iff in H as [H1 H2].
      apply N.leb_le in H1. apply N.leb_le in H2. lia.
    - apply N.eqb_eq in H. lia.
    - apply N.eqb_eq in H. lia.
    - apply N.eqb_eq in H. lia. }
  assert (Hc' : (c = 48 \/ c = 49 \/ c = 50 \/ c = 51 \/ c = 52 \/ c = 53
                 \/ c = 54 \/ c = 55 \/ c = 56 \/ c = 57 \/ c = 42
                 \/ c = 45 \/ c = 8226)%N) by lia.
  clear - Hc'. intuition subst; reflexivity.
Qed.

Lemma trimStart_keeps_last s c :
  is_space c = false -> trimStart (s ++ [c]) <> [].
Proof.
  intros H. induction s as [|x rest IH]; simpl.
  - rewrite H. discriminate.
  - destruct (is_space x); [exact IH | discriminate].
Qed.

Lemma starts_item_not_blank line :
  starts_item line = true -> trim line <> [].
Proof.
  destruct line as [|c rest]; simpl; [discriminate|].
  intros H. apply item_marker_not_space in H.
  unfold trim. cbn [trimStart]. rewrite H. unfold trimEnd.
  cbn [rev]. intros E.
  apply (f_equal (@rev N)) in E. rewrite rev_involutive in E. simpl in E.
  exact (trimStart_keeps_last (rev rest) c H E).
Qed.

(** The lines that [forEach] sees and that open an item are the item lines
    of the text: dropping the blank lines first drops none of them. *)
Lemma item_lines_filtered t :
  filter starts_item
    (filter (fun line => match trim line with [] => false | _ => true end)
       (split newline t))
  = item_lines t.
Proof.
  unfold item_lines. apply filter_filter_implied.
  intros line H. apply starts_item_not_blank in H.
  destruct (trim line); [congruence | reflexivity].
Qed.

Lemma item_step_titles st line :
  map title (insights_so_far (item_step st line))
  = map title (insights_so_far st)
    ++ (if starts_item line then [item_title line] else []).
Proof.
  destruct st as [found [current|]]; unfold item_step, insights_so_far;
    destruct (starts_item line); cbn [fst snd];
    rewrite ?map_app; cbn [map title append_to_message];
    rewrite ?app_nil_r; reflexivity.
Qed.

Lemma fold_item_step_titles lines : forall st,
  map title (insights_so_far (fold_left item_step lines st))
  = map title (insights_so_far st)
    ++ map item_title (filter starts_item lines).
Proof.
  induction lines as [|line rest IH]; intros st; simpl.
  - rewrite app_nil_r. reflexivity.
  - rewrite IH, item_step_titles, <- app_assoc.
    destruct (starts_item line); reflexivity.
Qed.

Lemma item_step_plain st line :
  Forall plain_insight (insights_so_far st) ->
  Forall plain_insight (insights_so_far (item_step st line)).
Proof.
  destruct st as [found [current|]]; unfold item_step, insights_so_far;
    destruct (starts_item line); cbn [fst snd]; intros H;
    rewrite ?Forall_app in *; repeat split; try tauto;
    try (constructor; [|constructor]); try (split; reflexivity).
  destruct H as [_ H]. inversion H; subst. assumption.
Qed.

Lemma fold_item_step_plain lines : forall st,
  Forall plain_insight (insights_so_far st) ->
  Forall plain_insight (insights_so_far (fold_left item_step lines st)).
Proof.
  induction lines as [|line rest IH]; intros st H; simpl; [exact H|].
  apply IH, item_step_plain, H.
Qed.

Lemma parse_as_insights_so_far t :
  parseNaturalLanguageInsights t
  = match insights_so_far
            (fold_left item_step
               (filter (fun line =>
                          match trim line with [] => false | _ => true end)
                  (split newline t)) ([], None)) with
    | [] =>
        [raw_insight "AI Analysis"
           "Review the analysis for financial guidance." t]
    | found => found
    end.
Proof.
  unfold parseNaturalLanguageInsights, insights_so_far.
  destruct (fold_left item_step _ _) as [found [current|]]; cbn [fst snd].
  - destruct (found ++ [current]); reflexivity.
  - destruct found; reflexivity.
Qed.

End InsightLines.

(** X12. The free-form parser makes one insight per line of the text that
    starts with a digit, [*], [-] or a bullet, in the order of the lines:
    the titles are those lines without their marker, cut at 80 code units
    (a text without such a line gives the single title 'AI Analysis');
    every insight has type 'info' and impact 'medium', and no title is
    longer than 80 code units. *)
Theorem X12_natural_language_insights_follow_item_lines (t : jsstring) :
  map LLM.title (LLM.parseNaturalLanguageInsights t)
  = match item_lines t with
    | [] => [js "AI Analysis"]
    | items => map item_title items
    end /\
  Forall plain_insight (LLM.parseNaturalLanguageInsights t) /\
  Forall (fun i => (List.length (LLM.title i) <= 80)%nat)
    (LLM.parseNaturalLanguageInsights t).
Proof.
  assert (Htitles :
    map LLM.title (LLM.parseNaturalLanguageInsights t)
    = match item_lines t with
      | [] => [js "AI Analysis"]
      | items => map item_title items
      end).
  { rewrite parse_as_insights_so_far.
    pose proof (fold_item_step_titles
                  (filter (fun line =>
                             match trim line with
                             | [] => false
                             | _ => true
                             end) (split newline t)) ([], None)) as H.
    rewrite item_lines_filtered in H. cbn [insights_so_far snd fst map app] in H.
    destruct (insights_so_far _) as [|i rest].
    - destruct (item_lines t); [reflexivity | discriminate].
    - rewrite H. destruct (item_lines t); [discriminate | reflexivity]. }
  split; [exact Htitles|]. split.
  - rewrite parse_as_insights_so_far.
    pose proof (fold_item_step_plain
                  (filter (fun line =>
                             match trim line with
                             | [] => false
                             | _ => true
                             end) (split newline t)) ([], None)
                  (Forall_nil _)) as H.
    destruct (insights_so_far _) as [|i rest]; [|exact H].
    constructor; [split; reflexivity | constructor].
  - apply (proj1 (Forall_map LLM.title
                    (fun s => (List.length s <= 80)%nat) _)).
    rewrite Htitles. destruct (item_lines t) as [|line rest].
    + constructor; [simpl; lia | constructor].
    + apply Forall_map, Forall_forall. intros l _.
      unfold item_title. apply firstn_le_length.
Qed.

(* ===================================================================== *)
(** ** Bills: round trips and bounds of the CRUD routes *)
(* ===================================================================== *)

Lemma find_app_none {A} (p : A -> bool) (l l' : list A) :
  (forall x, In x l -> p x = false) -> find p (l ++ l') = find p l'.
Proof.
  induction l as [|x rest IH]; simpl; intros H; [reflexivity|].
  rewrite (H x) by auto. apply IH. auto.
Qed.

Lemma find_none_all {A} (p : A -> bool) (l : list A) :
  (forall x, In x l -> p x = false) -> find p l = None.
Proof.
  intros H. rewrite <- (app_nil_r l). rewrite find_app_none by exact H.
  reflexivity.
Qed.

Lemma filter_nil_all {A} (p : A -> bool) (l : list A) :
  (forall x, In x l -> p x = false) -> filter p l = [].
Proof.
  induction l as [|x rest IH]; simpl; intros H; [reflexivity|].
  rewrite (H x) by auto. apply IH. auto.
Qed.

Lemma filter_length_lt {A} (p : A -> bool) (l : list A) x :
  In x l -> p x = false -> (List.length (filter p l) < List.length l)%nat.
Proof.
  induction l as [|y rest IH]; simpl; intros Hin Hx; [contradiction|].
  pose proof (filter_length_le p rest) as Hle.
  destruct Hin as [->|Hin].
  - rewrite Hx. lia.
  - specialize (IH Hin Hx). destruct (p y); simpl; lia.
Qed.

Section OrderFacts.
Context {A : Type} (key : A -> string) (desc : bool).

Lemma in_insert_by x y (l : list A) :
  In x (Bills.insert_by key desc y l) <-> x = y \/ In x l.
Proof.
  induction l as [|z rest IH]; simpl.
  - intuition.
  - destruct (if desc then String.ltb (key z) (key y)
              else String.ltb (key y) (key z)); simpl.
    + intuition.
    + rewrite IH. intuition.
Qed.

Lemma in_order_by x (l : list A) :
  In x (Bills.order_by key desc l) <-> In x l.
Proof.
  unfold Bills.order_by. induction l as [|y rest IH]; simpl; [tauto|].
  rewrite in_insert_by, IH. intuition.
Qed.

Lemma length_insert_by y (l : list A) :
  List.length (Bills.insert_by key desc y l) = S (List.length l).
Proof.
  induction l as [|z rest IH]; simpl; [reflexivity|].
  destruct (if desc then String.ltb (key z) (key y)
            else String.ltb (key y) (key z)); simpl; [reflexivity|].
  rewrite IH. reflexivity.
Qed.

Lemma length_order_by (l : list A) :
  List.length (Bills.order_by key desc l) = List.length l.
Proof.
  unfold Bills.order_by. induction l as [|y rest IH]; simpl; [reflexivity|].
  rewrite length_insert_by, IH. reflexivity.
Qed.

End OrderFacts.

Section BillsRoundTrips.
Import Bills.

Lemma in_limit {A} n x (l : list A) : In x (limit n l) -> In x l.
Proof.
  unfold limit. destruct (n <? 0)%Z; [tauto|].
  revert l. induction (Z.to_nat n) as [|k IH]; intros l; simpl; [tauto|].
  destruct l as [|y rest]; simpl; [tauto|].
  intros [->|H]; [auto | right; apply IH; exact H].
Qed.

Lemma length_limit {A} n (l : list A) :
  (0 <= n)%Z -> (List.length (limit n l) <= Z.to_nat n)%nat.
Proof.
  intros Hn. unfold limit.
  destruct (Z.ltb_spec n 0); [lia|]. apply firstn_le_length.
Qed.

Lemma post_bill_created userId b id now d r d' :
  post_bill userId b id now d = (r, d') ->
  status r = 201%Z ->
  exists name type target,
    bb_bill_name b = Some name /\ bb_bill_type b = Some type /\
    bb_target_amount b = Some target /\
    name <> "" /\ number_falsy target = false /\ In type bill_types /\
    (forall x, In x (bills d) -> b_id x <> id) /\
    r = respond 201
          (BillCreated "Bill created successfully" id name type target
             (bb_due_day b)) /\
    d' = {| bills :=
              bills d ++
              [ {| b_id := id; b_user_id := userId; bill_name := name;
                   bill_type := type; target_amount := number_of target;
                   due_day := bb_due_day b;
                   is_active := Some (if bb_is_active b then 1 else 0)%Z;
                   notes := bb_notes b; b_created_at := now |} ];
            bill_payments := bill_payments d |}.
Proof.
  unfold post_bill. intros H Hs.
  destruct (bb_bill_name b) as [name|];
    [|inversion H; subst; discriminate].
  destruct (bb_bill_type b) as [type|];
    [|inversion H; subst; discriminate].
  destruct (bb_target_amount b) as [target|];
    [|inversion H; subst; discriminate].
  destruct (String.eqb name "" || String.eqb type "" || number_falsy target)
    eqn:E1; [inversion H; subst; discriminate|].
  destruct (negb (in_list type bill_types)
            || existsb (fun r0 => String.eqb (b_id r0) id) (bills d)) eqn:E2;
    [inversion H; subst; discriminate|].
  inversion H; subst. clear H Hs.
  apply orb_false_iff in E1 as [E1 Et]. apply orb_false_iff in E1 as [En _].
  apply orb_false_iff in E2 as [Ety Eid].
  exists name, type, target. repeat split; auto.
  - intros ->. discriminate.
  - apply negb_false_iff in Ety. unfold in_list in Ety.
    apply existsb_exists in Ety as (x & Hin & Hx).
    apply String.eqb_eq in Hx. subst. exact Hin.
  - intros x Hx Heq.
    assert (Hex : existsb (fun r0 => String.eqb (b_id r0) id) (bills d) = true).
    { apply existsb_exists. exists x. split; [exact Hx|].
      apply String.eqb_eq. exact Heq. }
    congruence.
Qed.

Lemma bill_is_spec id userId x :
  bill_is id userId x = true <-> b_id x = id /\ b_user_id x = userId.
Proof.
  unfold bill_is. rewrite andb_true_iff, !String.eqb_eq. tauto.
Qed.

End BillsRoundTrips.

(** X13. A bill that POST /bills created is the bill GET /bills/:id then
    returns to its owner: after a 201 the lookup of the new id answers 200
    with a row that carries the submitted name, type, due day and notes,
    the number of the submitted target, the caller as owner and
    [is_active] 1 or 0 by the truthiness submitted; the type is one of the
    nine of the CHECK; a target submitted as a JSON number is not 0, while
    one submitted as text, as the form of the client does, passes the
    test with any number, 0 too. *)
Theorem X13_post_bill_then_get_bill
    (userId : string) (b : Bills.bill_body) (id now : string)
    (d d' : Bills.db) (r : Bills.response) :
  Bills.post_bill userId b id now d = (r, d') ->
  Bills.status r = 201%Z ->
  exists row history,
    Bills.get_bill userId id d'
    = Bills.respond 200 (Bills.BillWithHistory row history) /\
    Bills.b_id row = id /\ Bills.b_user_id row = userId /\
    Bills.bb_bill_name b = Some (Bills.bill_name row) /\
    Bills.bb_bill_type b = Some (Bills.bill_type row) /\
    option_map Bills.number_of (Bills.bb_target_amount b)
    = Some (Bills.target_amount row) /\
    Bills.due_day row = Bills.bb_due_day b /\
    Bills.notes row = Bills.bb_notes b /\
    Bills.is_active row = Some (if Bills.bb_is_active b then 1 else 0)%Z /\
    In (Bills.bill_type row) Bills.bill_types /\
    (forall q, Bills.bb_target_amount b = Some (Bills.JsonNumber q) ->
               ~ q == 0).
Proof.
  intros H Hs.
  destruct (post_bill_created userId b id now d r d' H Hs)
    as (name & type & target & Hn & Ht & Hta & Hne & Hz & Hty & Hfresh
        & -> & ->).
  unfold Bills.get_bill. cbn [Bills.bills Bills.bill_payments].
  rewrite find_app_none.
  - cbn [find]. unfold Bills.bill_is at 1. cbn [Bills.b_id Bills.b_user_id].
    rewrite !String.eqb_refl. cbn [andb].
    eexists _, _. split; [reflexivity|]. cbn.
    rewrite Hta. cbn [option_map].
    repeat split; auto.
    intros q Eq. inversion Eq; subst target. cbn [Bills.number_falsy] in Hz.
    intros Hq. apply Qeq_bool_iff in Hq. congruence.
  - intros x Hx. unfold Bills.bill_is.
    destruct (String.eqb_spec (Bills.b_id x) id) as [E|_]; [|reflexivity].
    destruct (Hfresh x Hx E).
Qed.

(** The form of the client with 0 in the target field: 201, and the bill
    is stored with the target 0. *)
Lemma X13_post_bill_then_get_bill_witness :
  Bills.status
    (fst (Bills.post_bill "alice" (water_form 0) "b2"
            "2024-01-01 00:00:00" bob_db)) = 201%Z /\
  exists row history,
    Bills.get_bill "alice" "b2"
      (snd (Bills.post_bill "alice" (water_form 0) "b2"
              "2024-01-01 00:00:00" bob_db))
    = Bills.respond 200 (Bills.BillWithHistory row history) /\
    Bills.b_user_id row = "alice" /\
    Bills.bill_name row = "Water" /\
    Bills.target_amount row = 0.
Proof.
  split; [reflexivity|].
  destruct (X13_post_bill_then_get_bill "alice" (water_form 0) "b2"
              "2024-01-01 00:00:00" bob_db
              (snd (Bills.post_bill "alice" (water_form 0) "b2"
                      "2024-01-01 00:00:00" bob_db))
              (fst (Bills.post_bill "alice" (water_form 0) "b2"
                      "2024-01-01 00:00:00" bob_db)) eq_refl eq_refl)
    as (row & history & Hg & _ & Hu & Hname & _ & Htarget & _).
  exists row, history. split; [exact Hg|]. split; [exact Hu|].
  split; [inversion Hname; reflexivity | inversion Htarget; reflexivity].
Defined.

(** X14. What PUT /bills/:id wrote is what GET /bills/:id returns: after a
    200 the caller's lookup of the id answers 200 with the submitted name,
    type, target, due day, notes and flag, and the payments are as they
    were.  The target may be the number 0 here, which POST refuses. *)
Theorem X14_put_bill_then_get_bill
    (userId id : string) (b : Bills.bill_body) (d d' : Bills.db)
    (r : Bills.response) :
  Bills.put_bill userId id b d = (r, d') ->
  Bills.status r = 200%Z ->
  (exists row history,
     Bills.get_bill userId id d'
     = Bills.respond 200 (Bills.BillWithHistory row history) /\
     Bills.bb_bill_name b = Some (Bills.bill_name row) /\
     Bills.bb_bill_type b = Some (Bills.bill_type row) /\
     option_map Bills.number_of (Bills.bb_target_amount b)
     = Some (Bills.target_amount row) /\
     Bills.bb_due_day b = Bills.due_day row /\
     Bills.is_active row = Some (if Bills.bb_is_active b then 1 else 0)%Z /\
     Bills.bb_notes b = Bills.notes row) /\
  Bills.bill_payments d' = Bills.bill_payments d.
Proof.
  intros H Hs. split; [exact (put_then_get userId id b d r d' H Hs)|].
  unfold Bills.put_bill in H.
  destruct (Bills.update_bills id userId b (Bills.bills d)) as [[rows n]|];
    [destruct (Nat.eqb n 0)|]; inversion H; reflexivity.
Qed.

Lemma X14_put_bill_then_get_bill_witness :
  let d' := snd (Bills.put_bill "bob" "b1" (water_body 0) bob_db) in
  (exists row history,
     Bills.get_bill "bob" "b1" d'
     = Bills.respond 200 (Bills.BillWithHistory row history) /\
     Bills.bb_bill_name (water_body 0) = Some (Bills.bill_name row) /\
     Bills.bb_bill_type (water_body 0) = Some (Bills.bill_type row) /\
     option_map Bills.number_of (Bills.bb_target_amount (water_body 0))
     = Some (Bills.target_amount row) /\
     Bills.bb_due_day (water_body 0) = Bills.due_day row /\
     Bills.is_active row
     = Some (if Bills.bb_is_active (water_body 0) then 1 else 0)%Z /\
     Bills.bb_notes (water_body 0) = Bills.notes row) /\
  Bills.bill_payments d' = Bills.bill_payments bob_db.
Proof.
  apply (X14_put_bill_then_get_bill "bob" "b1" (water_body 0) bob_db _
           (fst (Bills.put_bill "bob" "b1" (water_body 0) bob_db))).
  - reflexivity.
  - reflexivity.
Defined.

(** X15. The writes that carry [user_id] in their statement leave every
    other user's rows alone: the bills of another user are the same after
    the caller's POST, PUT and DELETE of a bill, and the payments of
    another user are the same after the caller's POST and DELETE of a
    payment. *)
Theorem X15_bill_writes_scoped_to_user
    (userId other id payment_id now : string) (b : Bills.bill_body)
    (pb : Bills.payment_body) (d : Bills.db) :
  other <> userId ->
  let bills_of x := filter (Bills.owned_by other) (Bills.bills x) in
  let payments_of x :=
    filter (fun p => String.eqb (Bills.p_user_id p) other)
      (Bills.bill_payments x) in
  bills_of (snd (Bills.post_bill userId b id now d)) = bills_of d /\
  bills_of (snd (Bills.put_bill userId id b d)) = bills_of d /\
  bills_of (snd (Bills.delete_bill userId id d)) = bills_of d /\
  payments_of (snd (Bills.post_payment userId id pb payment_id now d))
  = payments_of d /\
  payments_of (snd (Bills.delete_payment userId payment_id d))
  = payments_of d.
Proof.
  intros Hne. cbv zeta.
  assert (Hu : String.eqb userId other = false)
    by (apply String.eqb_neq; congruence).
  repeat split.
  - unfold Bills.post_bill.
    destruct (Bills.bb_bill_name b), (Bills.bb_bill_type b),
      (Bills.bb_target_amount b); try reflexivity.
    destruct (_ || _ || _); [reflexivity|].
    destruct (_ || _); [reflexivity|].
    cbn [snd Bills.bills]. rewrite filter_app. cbn [filter].
    unfold Bills.owned_by at 2. cbn [Bills.b_user_id]. rewrite Hu.
    apply app_nil_r.
  - exact (proj1 (put_bill_scoped userId id b d _ _ other
                    (surjective_pairing _) Hne)).
  - apply delete_bill_bills_scoped. exact Hne.
  - unfold Bills.post_payment.
    destruct (Bills.pb_amount_paid pb), (Bills.pb_payment_date pb);
      try reflexivity.
    destruct (_ || _); [reflexivity|].
    destruct (existsb _ _); [reflexivity|].
    cbn [snd Bills.bill_payments]. rewrite filter_app. cbn [filter].
    cbn [Bills.p_user_id]. rewrite Hu. apply app_nil_r.
  - exact (proj1 (delete_payment_scoped userId payment_id d _ _ other
                    (surjective_pairing _) Hne)).
Qed.

Lemma X15_bill_writes_scoped_to_user_witness :
  let bills_of x := filter (Bills.owned_by "bob") (Bills.bills x) in
  let payments_of x :=
    filter (fun p => String.eqb (Bills.p_user_id p) "bob")
      (Bills.bill_payments x) in
  let pb := {| Bills.pb_amount_paid := Some (Bills.JsonNumber 10);
               Bills.pb_payment_date := Some "2024-02-01";
               Bills.pb_notes := None |} in
  bills_of (snd (Bills.post_bill "alice" (water_body 40) "b1" "now" bob_db))
  = bills_of bob_db /\
  bills_of (snd (Bills.put_bill "alice" "b1" (water_body 40) bob_db))
  = bills_of bob_db /\
  bills_of (snd (Bills.delete_bill "alice" "b1" bob_db)) = bills_of bob_db /\
  payments_of (snd (Bills.post_payment "alice" "b1" pb "p9" "now" bob_db))
  = payments_of bob_db /\
  payments_of (snd (Bills.delete_payment "alice" "p9" bob_db))
  = payments_of bob_db.
Proof.
  apply (X15_bill_writes_scoped_to_user "alice" "bob" "b1" "p9" "now"
           (water_body 40)
           {| Bills.pb_amount_paid := Some (Bills.JsonNumber 10);
              Bills.pb_payment_date := Some "2024-02-01";
              Bills.pb_notes := None |} bob_db).
  discriminate.
Defined.

(** X16. Deleting one's own bill removes it and its payments: when the
    caller owns a bill with the id, DELETE /bills/:id answers 200, and
    afterwards GET /bills/:id answers 404, no payment of that bill id is
    left and GET /bills/:id/payments lists nothing. *)
Theorem X16_delete_own_bill
    (userId id : string) (b : Bills.bill) (d : Bills.db) :
  In b (Bills.bills d) ->
  Bills.b_id b = id -> Bills.b_user_id b = userId ->
  exists d',
    Bills.delete_bill userId id d
    = (Bills.respond 200 (Bills.Message "Bill deleted successfully"), d') /\
    Bills.get_bill userId id d'
    = Bills.respond 404 (Bills.Error "Bill not found") /\
    (forall p, In p (Bills.bill_payments d') -> Bills.p_bill_id p <> id) /\
    Bills.get_bill_payments userId id None d'
    = Bills.respond 200 (Bills.PaymentRows []).
Proof.
  intros Hin Hid Hu. unfold Bills.delete_bill.
  assert (Hb : Bills.bill_is id userId b = true)
    by (apply bill_is_spec; auto).
  pose proof (filter_length_lt
                (fun x => negb (Bills.bill_is id userId x))
                (Bills.bills d) b Hin (f_equal negb Hb)) as Hlt.
  replace (Nat.eqb _ 0) with false by (symmetry; apply Nat.eqb_neq; lia).
  eexists. split; [reflexivity|].
  assert (Hgone : forall p,
            In p (filter (fun p => negb (String.eqb (Bills.p_bill_id p) id))
                    (Bills.bill_payments d)) ->
            String.eqb (Bills.p_bill_id p) id = false).
  { intros p Hp. apply filter_In in Hp as [_ Hp].
    apply negb_true_iff in Hp. exact Hp. }
  split; [|split].
  - unfold Bills.get_bill. cbn [Bills.bills].
    rewrite find_none_all; [reflexivity|].
    intros x Hx. apply filter_In in Hx as [_ Hx].
    apply negb_true_iff in Hx. exact Hx.
  - intros p Hp E. apply Hgone in Hp. apply String.eqb_neq in Hp. auto.
  - unfold Bills.get_bill_payments. cbn [Bills.bill_payments].
    rewrite (filter_nil_all _ _ Hgone). reflexivity.
Qed.

Lemma X16_delete_own_bill_witness :
  exists d',
    Bills.delete_bill "bob" "b1" bob_db
    = (Bills.respond 200 (Bills.Message "Bill deleted successfully"), d') /\
    Bills.get_bill "bob" "b1" d'
    = Bills.respond 404 (Bills.Error "Bill not found") /\
    (forall p, In p (Bills.bill_payments d') -> Bills.p_bill_id p <> "b1") /\
    Bills.get_bill_payments "bob" "b1" None d'
    = Bills.respond 200 (Bills.PaymentRows []).
Proof.
  apply (X16_delete_own_bill "bob" "b1" bob_bill bob_db).
  - left. reflexivity.
  - reflexivity.
  - reflexivity.
Defined.

(** X17. GET /bills/:id answers the owner only, with at most twelve
    payments, each one a stored payment of that bill id: a 200 carries a
    bill with the requested id that belongs to the caller. *)
Theorem X17_get_bill_history_bounded
    (userId id : string) (d : Bills.db) (b : Bills.bill)
    (history : list Bills.bill_payment) :
  Bills.get_bill userId id d
  = Bills.respond 200 (Bills.BillWithHistory b history) ->
  In b (Bills.bills d) /\
  Bills.b_id b = id /\ Bills.b_user_id b = userId /\
  (List.length history <= 12)%nat /\
  forall p, In p history ->
    In p (Bills.bill_payments d) /\ Bills.p_bill_id p = id.
Proof.
  unfold Bills.get_bill. intros H.
  destruct (find (Bills.bill_is id userId) (Bills.bills d)) as [row|] eqn:F;
    [|discriminate].
  inversion H; subst. clear H.
  apply find_some in F as [Hin Hb]. apply bill_is_spec in Hb as [Hi Hu].
  repeat split; auto.
  - apply (length_limit 12). lia.
  - apply in_limit, in_order_by, filter_In in H. tauto.
  - apply in_limit, in_order_by, filter_In in H as [_ H].
    apply String.eqb_eq in H. exact H.
Qed.

Lemma X17_get_bill_history_bounded_witness :
  In bob_bill (Bills.bills bob_db) /\
  Bills.b_id bob_bill = "b1" /\ Bills.b_user_id bob_bill = "bob" /\
  (List.length [bob_payment] <= 12)%nat /\
  forall p, In p [bob_payment] ->
    In p (Bills.bill_payments bob_db) /\ Bills.p_bill_id p = "b1".
Proof.
  apply (X17_get_bill_history_bounded "bob" "b1" bob_db bob_bill
           [bob_payment]).
  reflexivity.
Defined.

(** X18. The [is_active] filter of GET /bills compares with the string
    'true' only: every other value, '1' and 'yes' included, lists what
    'false' lists, namely the caller's bills with [is_active] 0, while
    'true' lists the caller's bills with [is_active] 1. *)
Theorem X18_get_bills_is_active_filter
    (userId v : string) (d : Bills.db) :
  v <> "true" ->
  Bills.get_bills userId (Some v) d = Bills.get_bills userId (Some "false") d
  /\
  (forall rows,
     Bills.get_bills userId (Some v) d
     = Bills.respond 200 (Bills.BillRows rows) ->
     forall b, In b rows <->
       In b (Bills.bills d) /\ Bills.b_user_id b = userId /\
       Bills.is_active b = Some 0%Z) /\
  (forall rows,
     Bills.get_bills userId (Some "true") d
     = Bills.respond 200 (Bills.BillRows rows) ->
     forall b, In b rows <->
       In b (Bills.bills d) /\ Bills.b_user_id b = userId /\
       Bills.is_active b = Some 1%Z).
Proof.
  intros Hv. apply String.eqb_neq in Hv.
  assert (Hrows : forall want rows,
            Bills.respond 200
              (Bills.BillRows
                 (Bills.order_by Bills.bill_name false
                    (filter (fun b => match Bills.is_active b with
                                      | Some a => (a =? want)%Z
                                      | None => false
                                      end)
                       (filter (Bills.owned_by userId) (Bills.bills d)))))
            = Bills.respond 200 (Bills.BillRows rows) ->
            forall b, In b rows <->
              In b (Bills.bills d) /\ Bills.b_user_id b = userId /\
              Bills.is_active b = Some want).
  { intros want rows H b. inversion H; subst. clear H.
    rewrite in_order_by, !filter_In. unfold Bills.owned_by.
    rewrite String.eqb_eq.
    destruct (Bills.is_active b) as [a|].
    - rewrite Z.eqb_eq. intuition congruence.
    - intuition congruence. }
  unfold Bills.get_bills. rewrite Hv. cbn [String.eqb Ascii.eqb Bool.eqb].
  split; [reflexivity|]. split; intros rows H; apply Hrows; exact H.
Qed.

Lemma X18_get_bills_is_active_filter_witness :
  Bills.get_bills "bob" (Some "1") bob_db
  = Bills.get_bills "bob" (Some "false") bob_db /\
  (forall rows,
     Bills.get_bills "bob" (Some "1") bob_db
     = Bills.respond 200 (Bills.BillRows rows) ->
     forall b, In b rows <->
       In b (Bills.bills bob_db) /\ Bills.b_user_id b = "bob" /\
       Bills.is_active b = Some 0%Z) /\
  (forall rows,
     Bills.get_bills "bob" (Some "true") bob_db
     = Bills.respond 200 (Bills.BillRows rows) ->
     forall b, In b rows <->
       In b (Bills.bills bob_db) /\ Bills.b_user_id b = "bob" /\
       Bills.is_active b = Some 1%Z).
Proof.
  apply (X18_get_bills_is_active_filter "bob" "1" bob_db).
  discriminate.
Defined.

(* ===================================================================== *)
(** ** Bill analytics: the lines of the summary *)
(* ===================================================================== *)

Lemma dedup_pairs_in k keys :
  In k (BillAnalytics.dedup_pairs keys) -> In k keys.
Proof.
  induction keys as [|x rest IH]; simpl; [tauto|].
  destruct (existsb _ (BillAnalytics.dedup_pairs rest)); simpl;
    intuition.
Qed.

(** X19. The lines of GET /bills/analytics/summary are the active bills of
    the caller, one line each, in table order; a line counts the entries
    of its own trend, and each of these entries is a month not before
    [since] of a payment of that bill and carries the target of the
    bill. *)
Theorem X19_summary_lines_are_active_bills
    (userId since : string) (d : Bills.db) :
  let s := BillAnalytics.analytics_summary userId since d in
  let lines := BillAnalytics.bills_with_trends s in
  map BillAnalytics.bt_bill lines = BillAnalytics.active_bills userId d /\
  Forall (fun l =>
            let b := BillAnalytics.bt_bill l in
            In b (Bills.bills d) /\
            Bills.b_user_id b = userId /\
            Bills.is_active b = Some 1%Z /\
            BillAnalytics.payments_count l
            = List.length (BillAnalytics.trend_data l) /\
            Forall (fun t =>
                      BillAnalytics.t_target t = Bills.target_amount b /\
                      exists p,
                        In p (Bills.bill_payments d) /\
                        Bills.p_bill_id p = Bills.b_id b /\
                        Bills.month_year p = BillAnalytics.t_month t /\
                        String.leb since (Bills.month_year p) = true)
              (BillAnalytics.trend_data l)) lines.
Proof.
  cbv zeta. unfold BillAnalytics.analytics_summary.
  assert (Hactive : Forall (fun b => In b (Bills.bills d) /\
                                     Bills.b_user_id b = userId /\
                                     Bills.is_active b = Some 1%Z)
                      (BillAnalytics.active_bills userId d)).
  { apply Forall_forall. intros b Hb.
    unfold BillAnalytics.active_bills in Hb.
    apply filter_In in Hb as [Hin Hb]. apply andb_true_iff in Hb as [Hu Ha].
    unfold Bills.owned_by in Hu. apply String.eqb_eq in Hu.
    destruct (Bills.is_active b) as [a|]; [|discriminate].
    apply Z.eqb_eq in Ha. subst. auto. }
  destruct (BillAnalytics.active_bills userId d) as [|b rest] eqn:E.
  - cbn. split; [reflexivity | constructor].
  - set (bs := b :: rest) in *.
    cbn [BillAnalytics.bills_with_trends].
    assert (Hpay : forall a,
              In a (BillAnalytics.payments_by_bill_and_month
                      (map Bills.b_id bs) since d) ->
              exists p,
                In p (Bills.bill_payments d) /\
                Bills.p_bill_id p = BillAnalytics.pa_bill_id a /\
                Bills.month_year p = BillAnalytics.pa_month_year a /\
                String.leb since (Bills.month_year p) = true).
    { intros a Ha. unfold BillAnalytics.payments_by_bill_and_month in Ha.
      apply in_order_by in Ha.
      apply in_map_iff in Ha as (k & <- & Hk).
      cbn [BillAnalytics.pa_bill_id BillAnalytics.pa_month_year].
      apply dedup_pairs_in in Hk.
      apply in_map_iff in Hk as (p & <- & Hp).
      apply filter_In in Hp as [Hp Hc].
      apply andb_true_iff in Hc as [_ Hs].
      exists p. auto. }
    clearbody bs. clear E. split.
    + rewrite map_map. cbn [BillAnalytics.bt_bill BillAnalytics.bill_trend].
      apply map_id.
    + apply Forall_forall. intros l Hl.
      apply in_map_iff in Hl as (x & <- & Hx).
      rewrite Forall_forall in Hactive. destruct (Hactive x Hx) as (? & ? & ?).
      cbn [BillAnalytics.bt_bill BillAnalytics.bill_trend
           BillAnalytics.payments_count BillAnalytics.trend_data].
      rewrite length_map. repeat split; auto.
      apply Forall_forall. intros t Ht.
      apply in_map_iff in Ht as (a & <- & Ha).
      cbn [BillAnalytics.t_target BillAnalytics.t_month].
      split; [reflexivity|].
      apply filter_In in Ha as [Ha Hid]. apply String.eqb_eq in Hid.
      destruct (Hpay a Ha) as (p & Hp & Hb & Hm & Hs).
      exists p. repeat split; auto. congruence.
Qed.

(* ===================================================================== *)
(** ** Budget analysis: the second rule, the month without income, sizes *)
(* ===================================================================== *)

Lemma length_flat_map_le {A B} (f : A -> list B) (l : list A) :
  (forall x, (List.length (f x) <= 1)%nat) ->
  (List.length (flat_map f l) <= List.length l)%nat.
Proof.
  intros H. induction l as [|x rest IH]; simpl; [lia|].
  rewrite length_app. specialize (H x). lia.
Qed.

Lemma fold_left_map_arg {A B C} (f : A -> C -> A) (g : B -> C) (l : list B) :
  forall acc,
  fold_left (fun a x => f a (g x)) l acc = fold_left f (map g l) acc.
Proof. induction l as [|x rest IH]; intros acc; simpl; auto. Qed.

Section AnalysisMore.
Import Analysis.

Lemma in_rule2_step exp s :
  In s (rule2_step exp) <->
  ((10 < transaction_count exp)%Z /\
   Double.ltb (avg_transaction exp) (Double.of_Z 50) = true) /\
  s = {| s_type := "subscription_check";
         s_category := category exp;
         s_message := SubscriptionMessage (transaction_count exp)
                        (category exp);
         potential_savings :=
           Double.mul (total exp) (Double.decimal 20 100) |}.
Proof.
  unfold rule2_step.
  destruct (10 <? transaction_count exp)%Z eqn:Ec; cbn [andb].
  - apply Z.ltb_lt in Ec.
    destruct (Double.ltb (avg_transaction exp) (Double.of_Z 50));
      cbn [In].
    + split.
      * intros [<-|[]]. auto.
      * intros [_ ->]. auto.
    + split; [intros [] | intros [[_ H] _]; discriminate H].
  - apply Z.ltb_ge in Ec. cbn [In]. split; [intros [] | intros [[H _] _]; lia].
Qed.

Lemma subscription_check_from_rule2 expenses income_total s :
  In s (suggestions (analysis expenses income_total)) /\
    s_type s = "subscription_check" <->
  In s (rule2 expenses).
Proof.
  rewrite in_suggestions. split.
  - intros [[H|[H|H]] Ht]; [ | exact H | ].
    + apply in_rule1 in H. destruct H as (_ & exp & _ & H).
      apply in_rule1_step in H. destruct H as [_ ->]. discriminate.
    + apply in_rule3 in H. destruct H as [_ ->]. discriminate.
  - intros H. split; [tauto|]. apply rule2_type in H. exact H.
Qed.

Lemma rule_lengths ti te expenses :
  (List.length (rule1 ti expenses) <= List.length expenses)%nat /\
  (List.length (rule2 expenses) <= List.length expenses)%nat /\
  (List.length (rule3 ti te) <= 1)%nat.
Proof.
  split; [|split].
  - unfold rule1. destruct (Double.gtb ti Double.zero); [|simpl; lia].
    apply length_flat_map_le. intros x. unfold rule1_step.
    destruct (Double.gtb _ (Double.of_Z 30)); simpl; lia.
  - apply length_flat_map_le. intros x. unfold rule2_step.
    destruct (_ && _); simpl; lia.
  - unfold rule3. destruct (Double.ltb _ _); simpl; lia.
Qed.

(** Rule 3 on an income of 0: the shortfall is the expenses themselves. *)
Lemma rule3_without_income te :
  rule3 Double.zero te
  = if Double.gtb te Double.zero then
      [ {| s_type := "savings_goal";
           s_category := "general";
           s_message :=
             SavingsGoalMessage Double.zero (Double.sub Double.zero te);
           potential_savings := te |} ]
    else [].
Proof.
  destruct te as [[|]|[|]| |[|] m e]; vm_compute; reflexivity.
Qed.

End AnalysisMore.

(** X21. Over the rows of the per-category query (one row per category),
    the response holds a [subscription_check] suggestion for a category
    exactly when that category has more than 10 transactions that average
    below 50; every such suggestion names a row of that kind and sizes its
    [potential_savings] to the row's total times 0.20. *)
Theorem X21_subscription_check_iff
    (expenses : list Analysis.expense_row)
    (income_total : option Double.double)
    (exp : Analysis.expense_row) :
  NoDup (map Analysis.category expenses) ->
  In exp expenses ->
  ((exists s,
      In s (Analysis.suggestions (Analysis.analysis expenses income_total)) /\
      Analysis.s_type s = "subscription_check" /\
      Analysis.s_category s = Analysis.category exp)
   <-> (10 < Analysis.transaction_count exp)%Z /\
       Double.ltb (Analysis.avg_transaction exp) (Double.of_Z 50) = true) /\
  (forall s,
      In s (Analysis.suggestions (Analysis.analysis expenses income_total)) ->
      Analysis.s_type s = "subscription_check" ->
      exists e, In e expenses /\
        Analysis.s_category s = Analysis.category e /\
        Analysis.potential_savings s
        = Double.mul (Analysis.total e) (Double.decimal 20 100) /\
        (10 < Analysis.transaction_count e)%Z /\
        Double.ltb (Analysis.avg_transaction e) (Double.of_Z 50) = true).
Proof.
  intros Hnd Hin. split; [split|].
  - intros (s & Hs & Ht & Hc).
    pose proof (proj1 (subscription_check_from_rule2 _ _ _) (conj Hs Ht))
      as Hr.
    unfold Analysis.rule2 in Hr. apply in_flat_map in Hr as (e & He & Hr).
    apply in_rule2_step in Hr as [Hcond ->]. simpl in Hc.
    rewrite <- (unique_category expenses e exp Hnd He Hin Hc). exact Hcond.
  - intros Hcond. eexists. split; [|split].
    + apply subscription_check_from_rule2. unfold Analysis.rule2.
      apply in_flat_map. exists exp. split; [exact Hin|].
      apply in_rule2_step. split; [exact Hcond | reflexivity].
    + reflexivity.
    + reflexivity.
  - intros s Hs Ht.
    pose proof (proj1 (subscription_check_from_rule2 _ _ _) (conj Hs Ht))
      as Hr.
    unfold Analysis.rule2 in Hr. apply in_flat_map in Hr as (e & He & Hr).
    apply in_rule2_step in Hr as [[Hc Ha] ->]. simpl.
    exists e. repeat split; auto.
Qed.

(** Fourteen coffee purchases that average 4.50 are flagged; one rent
    payment is not. *)
Lemma X21_subscription_check_iff_witness :
  let month := [one_category (Double.of_Z 2000); coffee_row] in
  let income := Some (Double.of_Z 10000) in
  (exists s,
     In s (Analysis.suggestions (Analysis.analysis month income)) /\
     Analysis.s_type s = "subscription_check" /\
     Analysis.s_category s = "coffee") /\
  ~ (exists s,
       In s (Analysis.suggestions (Analysis.analysis month income)) /\
       Analysis.s_type s = "subscription_check" /\
       Analysis.s_category s = "housing").
Proof.
  cbv zeta.
  assert (Hnd : NoDup (map Analysis.category
                         [one_category (Double.of_Z 2000); coffee_row])).
  { repeat constructor; simpl; intuition discriminate. }
  split.
  - apply (proj1 (X21_subscription_check_iff
                    [one_category (Double.of_Z 2000); coffee_row]
                    (Some (Double.of_Z 10000)) coffee_row Hnd
                    ltac:(simpl; auto))).
    split; [reflexivity | vm_compute; reflexivity].
  - intros H.
    apply (proj1 (X21_subscription_check_iff
                    [one_category (Double.of_Z 2000); coffee_row]
                    (Some (Double.of_Z 10000))
                    (one_category (Double.of_Z 2000)) Hnd
                    ltac:(simpl; auto))) in H.
    destruct H as [H _]. vm_compute in H. discriminate H.
Defined.

(** X22. A month without income: when the income total is NULL or 0 the
    savings rate is the number 0, no category is flagged as
    [high_spending], and the [savings_goal] suggestion appears exactly
    when the expenses are positive, sized to the whole of them. *)
Theorem X22_analysis_without_income
    (expenses : list Analysis.expense_row)
    (income_total : option Double.double) :
  Double.column_or_zero income_total = Double.zero ->
  let r := Analysis.analysis expenses income_total in
  Analysis.savings_rate r = Analysis.RateZero /\
  (forall s, In s (Analysis.suggestions r) ->
             Analysis.s_type s <> "high_spending") /\
  ((exists s, In s (Analysis.suggestions r) /\
              Analysis.s_type s = "savings_goal")
   <-> Double.gtb (Analysis.total_expenses r) Double.zero = true) /\
  (forall s, In s (Analysis.suggestions r) ->
             Analysis.s_type s = "savings_goal" ->
             Analysis.potential_savings s = Analysis.total_expenses r).
Proof.
  intros Hz. cbv zeta.
  split; [|split; [|split]].
  - unfold Analysis.analysis. cbn [Analysis.savings_rate]. rewrite Hz.
    reflexivity.
  - intros s Hs Ht.
    pose proof (proj1 (high_spending_from_rule1 _ _ _) (conj Hs Ht)) as Hr.
    apply in_rule1 in Hr as [Hpos _]. rewrite Hz in Hpos.
    discriminate Hpos.
  - cbn [Analysis.total_expenses Analysis.analysis]. split.
    + intros (s & Hs & Ht).
      pose proof (proj1 (savings_goal_from_rule3 _ _ _) (conj Hs Ht)) as Hr.
      rewrite Hz, rule3_without_income in Hr.
      destruct (Double.gtb (Analysis.sum_totals expenses) Double.zero);
        [reflexivity | destruct Hr].
    + intros Hpos. eexists.
      apply savings_goal_from_rule3.
      rewrite Hz, rule3_without_income, Hpos. left. reflexivity.
  - intros s Hs Ht.
    pose proof (proj1 (savings_goal_from_rule3 _ _ _) (conj Hs Ht)) as Hr.
    rewrite Hz, rule3_without_income in Hr.
    cbn [Analysis.total_expenses Analysis.analysis].
    destruct (Double.gtb (Analysis.sum_totals expenses) Double.zero);
      [|destruct Hr].
    destruct Hr as [<-|[]]. reflexivity.
Qed.

Lemma X22_analysis_without_income_witness :
  let r := Analysis.analysis [one_category (Double.of_Z 800)] None in
  Analysis.savings_rate r = Analysis.RateZero /\
  (forall s, In s (Analysis.suggestions r) ->
             Analysis.s_type s <> "high_spending") /\
  ((exists s, In s (Analysis.suggestions r) /\
              Analysis.s_type s = "savings_goal")
   <-> Double.gtb (Analysis.total_expenses r) Double.zero = true) /\
  (forall s, In s (Analysis.suggestions r) ->
             Analysis.s_type s = "savings_goal" ->
             Analysis.potential_savings s = Analysis.total_expenses r).
Proof.
  apply (X22_analysis_without_income [one_category (Double.of_Z 800)] None).
  reflexivity.
Defined.

(** X23. The size and the totals of the analysis: there are at most two
    suggestions per expense row plus one; [total_potential_savings] is the
    left-to-right sum of the suggestions' [potential_savings] (a falsy one
    counted as 0), [total_expenses] the left-to-right sum of the rows'
    totals, and the rows are passed on as they came. *)
Theorem X23_analysis_sizes_and_totals
    (expenses : list Analysis.expense_row)
    (income_total : option Double.double) :
  let r := Analysis.analysis expenses income_total in
  (List.length (Analysis.suggestions r)
   <= 2 * List.length expenses + 1)%nat /\
  Analysis.total_potential_savings r
  = Double.sum
      (map (fun s => Double.or_zero (Analysis.potential_savings s))
         (Analysis.suggestions r)) /\
  Analysis.total_expenses r = Double.sum (map Analysis.total expenses) /\
  Analysis.expenses_out r = expenses.
Proof.
  cbv zeta. unfold Analysis.analysis.
  cbn [Analysis.suggestions Analysis.total_potential_savings
       Analysis.total_expenses Analysis.expenses_out].
  split; [|split; [|split]].
  - rewrite !length_app.
    destruct (rule_lengths (Double.column_or_zero income_total)
                (Analysis.sum_totals expenses) expenses) as (H1 & H2 & H3).
    lia.
  - unfold Double.sum.
    apply (fold_left_map_arg Double.add
             (fun s => Double.or_zero (Analysis.potential_savings s))).
  - unfold Analysis.sum_totals, Double.sum.
    apply (fold_left_map_arg Double.add Analysis.total).
  - reflexivity.
Qed.

(* ===================================================================== *)
(** ** Income summary *)
(* ===================================================================== *)

Lemma sum_snoc l x : Double.sum (l ++ [x]) = Double.add (Double.sum l) x.
Proof. unfold Double.sum. rewrite fold_left_app. reflexivity. Qed.

Lemma Zsum_app l1 l2 : Zsum (l1 ++ l2) = (Zsum l1 + Zsum l2)%Z.
Proof. induction l1 as [|z zs IH]; simpl; lia. Qed.

Section IncomeFacts.
Import Income.

Lemma has_type_in type bt :
  has_type type bt = true <-> In type (map tt_type bt).
Proof.
  unfold has_type. rewrite existsb_exists, in_map_iff. split.
  - intros (e & He & Ht). apply String.eqb_eq in Ht. eauto.
  - intros (e & Ht & He). exists e. split; [exact He|].
    apply String.eqb_eq. exact Ht.
Qed.

(** Adding to a type that has one entry changes that entry only. *)
Lemma add_existing type monthly annual bt :
  NoDup (map tt_type bt) -> In type (map tt_type bt) ->
  let bt' :=
    map (fun e =>
           if String.eqb (tt_type e) type
           then {| tt_type := tt_type e;
                   tt_monthly := Double.add (tt_monthly e) monthly;
                   tt_annual := Double.add (tt_annual e) annual;
                   tt_count := (tt_count e + 1)%Z |}
           else e) bt in
  map tt_type bt' = map tt_type bt /\
  Zsum (map tt_count bt') = (Zsum (map tt_count bt) + 1)%Z /\
  forall e', In e' bt' ->
    (tt_type e' <> type /\ In e' bt) \/
    exists e, In e bt /\ tt_type e = type /\ tt_type e' = type /\
              tt_monthly e' = Double.add (tt_monthly e) monthly /\
              tt_annual e' = Double.add (tt_annual e) annual /\
              tt_count e' = (tt_count e + 1)%Z.
Proof.
  cbv zeta. induction bt as [|e rest IH]; simpl; intros Hnd Hin;
    [contradiction|].
  inversion Hnd as [|? ? Hnot Hrest]; subst.
  destruct (String.eqb_spec (tt_type e) type) as [E|N].
  - (* the rest has no entry of the type: it is unchanged *)
    assert (Hsame : map (fun e0 =>
                           if String.eqb (tt_type e0) type
                           then {| tt_type := tt_type e0;
                                   tt_monthly :=
                                     Double.add (tt_monthly e0) monthly;
                                   tt_annual :=
                                     Double.add (tt_annual e0) annual;
                                   tt_count := (tt_count e0 + 1)%Z |}
                           else e0) rest = rest).
    { rewrite <- (map_id rest) at 2. apply map_ext_in. intros x Hx.
      destruct (String.eqb_spec (tt_type x) type) as [Ex|]; [|reflexivity].
      exfalso. apply Hnot. rewrite E, <- Ex. apply in_map. exact Hx. }
    rewrite Hsame. simpl. split; [reflexivity|]. split; [lia|].
    intros e' [<-|He'].
    + right. exists e. simpl. auto 10.
    + left. split; [|auto]. intros Ht. apply Hnot. rewrite E, <- Ht.
      apply in_map. exact He'.
  - destruct Hin as [Hin|Hin]; [contradiction|].
    destruct (IH Hrest Hin) as (H1 & H2 & H3).
    simpl. rewrite H1, H2. split; [reflexivity|]. split; [lia|].
    intros e' [<-|He'].
    + left. auto.
    + destruct (H3 e' He') as [(Hne & Hi)|(e0 & Hi & Hrest0)].
      * left. auto.
      * right. exists e0. split; [right; exact Hi | exact Hrest0].
Qed.

Lemma add_to_type_spec type monthly annual bt :
  NoDup (map tt_type bt) ->
  let bt' := add_to_type bt type monthly annual in
  NoDup (map tt_type bt') /\
  (forall t, In t (map tt_type bt') <-> t = type \/ In t (map tt_type bt)) /\
  Zsum (map tt_count bt') = (Zsum (map tt_count bt) + 1)%Z /\
  forall e', In e' bt' ->
    (tt_type e' <> type /\ In e' bt) \/
    (tt_type e' = type /\
     exists m0 a0 c0,
       tt_monthly e' = Double.add m0 monthly /\
       tt_annual e' = Double.add a0 annual /\
       tt_count e' = (c0 + 1)%Z /\
       ((exists e, In e bt /\ tt_type e = type /\ tt_monthly e = m0 /\
                   tt_annual e = a0 /\ tt_count e = c0) \/
        (~ In type (map tt_type bt) /\ m0 = Double.zero /\
         a0 = Double.zero /\ c0 = 0%Z))).
Proof.
  cbv zeta. intros Hnd. unfold add_to_type.
  destruct (has_type type bt) eqn:Hhas.
  - apply has_type_in in Hhas.
    destruct (add_existing type monthly annual bt Hnd Hhas)
      as (H1 & H2 & H3).
    rewrite H1. split; [exact Hnd|].
    split; [intros t; split; [auto | intros [->|H]; auto]|].
    split; [exact H2|].
    intros e' He'. destruct (H3 e' He') as [H|(e & Hi & Ht & Ht' & Hm & Ha & Hc)];
      [left; exact H|].
    right. split; [exact Ht'|].
    exists (tt_monthly e), (tt_annual e), (tt_count e).
    split; [exact Hm|]. split; [exact Ha|]. split; [exact Hc|].
    left. exists e. auto.
  - assert (Hnot : ~ In type (map tt_type bt)).
    { intros H. apply has_type_in in H. congruence. }
    set (fresh := {| tt_type := type; tt_monthly := Double.zero;
                     tt_annual := Double.zero; tt_count := 0 |}).
    assert (Hnd' : NoDup (map tt_type (bt ++ [fresh]))).
    { rewrite map_app. simpl. apply NoDup_app; [exact Hnd | | ].
      - repeat constructor. simpl. tauto.
      - intros x Hx [<-|[]]. contradiction. }
    assert (Hin' : In type (map tt_type (bt ++ [fresh]))).
    { rewrite map_app. apply in_or_app. right. simpl. auto. }
    destruct (add_existing type monthly annual (bt ++ [fresh]) Hnd' Hin')
      as (H1 & H2 & H3).
    rewrite H1, H2.
    split; [exact Hnd'|].
    split; [rewrite map_app; simpl; intros t; rewrite in_app_iff; simpl;
            intuition congruence|].
    split; [rewrite map_app, Zsum_app; simpl; lia|].
    intros e' He'.
    destruct (H3 e' He') as [(Hne & Hi)|(e & Hi & Ht & Ht' & Hm & Ha & Hc)].
    + left. split; [exact Hne|]. apply in_app_or in Hi as [Hi|[<-|[]]];
        [exact Hi|]. contradiction Hne. reflexivity.
    + right. split; [exact Ht'|].
      exists (tt_monthly e), (tt_annual e), (tt_count e).
      split; [exact Hm|]. split; [exact Ha|]. split; [exact Hc|].
      apply in_app_or in Hi as [Hi|[<-|[]]].
      * left. exists e. auto.
      * right. auto.
Qed.

Lemma of_type_snoc type seen s :
  of_type type (seen ++ [s])
  = of_type type seen
    ++ (if String.eqb (source_type s) type then [s] else []).
Proof.
  unfold of_type. rewrite filter_app. cbn [filter].
  destruct (String.eqb (source_type s) type); reflexivity.
Qed.

Lemma of_type_none type seen :
  ~ In type (map source_type seen) -> of_type type seen = [].
Proof.
  intros H. unfold of_type.
  induction seen as [|s rest IH]; [reflexivity|]. cbn [filter].
  destruct (String.eqb_spec (source_type s) type) as [E|N].
  - exfalso. apply H. left. exact E.
  - apply IH. intros Hin. apply H. right. exact Hin.
Qed.

(** What the loop keeps true of its accumulators. *)
Lemma summary_fold sources :
  let acc :=
    fold_left summary_step sources
      {| totalMonthly := Double.zero; totalAnnual := Double.zero;
         byType := []; bySource := [] |} in
  NoDup (map tt_type (byType acc)) /\
  (forall t, In t (map tt_type (byType acc)) <->
             In t (map source_type sources)) /\
  Forall (entry_of sources) (byType acc) /\
  Zsum (map tt_count (byType acc)) = Z.of_nat (List.length sources) /\
  totalMonthly acc = Double.sum (map monthly_of sources) /\
  totalAnnual acc = Double.sum (map annual_of sources) /\
  bySource acc = map line_of sources.
Proof.
  cbv zeta. induction sources as [|s seen IH] using rev_ind.
  - simpl. repeat split; try constructor; tauto.
  - rewrite fold_left_app. cbn [fold_left].
    destruct IH as (Hnd & Htypes & Hentries & Hcount & Hm & Ha & Hlines).
    set (acc := fold_left summary_step seen _) in *.
    cbn [summary_step byType totalMonthly totalAnnual bySource].
    change (calculateMonthlyIncome (amount s) (frequency s))
      with (monthly_of s).
    change (Double.mul (monthly_of s) (Double.of_Z 12)) with (annual_of s).
    destruct (add_to_type_spec (source_type s) (monthly_of s) (annual_of s)
                (byType acc) Hnd) as (A1 & A2 & A3 & A4).
    split; [exact A1|]. split.
    { intros t. rewrite A2, Htypes, map_app, in_app_iff. simpl.
      intuition congruence. }
    split.
    { apply Forall_forall. intros e' He'.
      rewrite Forall_forall in Hentries. unfold entry_of.
      rewrite of_type_snoc.
      destruct (A4 e' He')
        as [(Hne & Hi)|(Ht & m0 & a0 & c0 & Em & Ea & Ec & Hfrom)].
      - destruct (String.eqb_spec (source_type s) (tt_type e'));
          [congruence|].
        rewrite app_nil_r. apply Hentries. exact Hi.
      - rewrite Ht, String.eqb_refl, !map_app, length_app.
        cbn [map List.length]. rewrite !sum_snoc, Em, Ea, Ec.
        destruct Hfrom as [(e & Hi & Hte & <- & <- & <-)|(Hnone & -> & -> & ->)].
        + destruct (Hentries e Hi) as (E1 & E2 & E3).
          rewrite Hte in E1, E2, E3. rewrite E1, E2, E3.
          repeat split. lia.
        + rewrite Htypes in Hnone. rewrite (of_type_none _ _ Hnone).
          repeat split. }
    split; [rewrite A3, Hcount, length_app; cbn [List.length]; lia|].
    split; [rewrite Hm, map_app; cbn [map]; rewrite sum_snoc; reflexivity|].
    split; [rewrite Ha, map_app; cbn [map]; rewrite sum_snoc; reflexivity|].
    rewrite Hlines, map_app. reflexivity.
Qed.

End IncomeFacts.

(** X24. Over rows whose [source_type] satisfies the CHECK of the table
    (where the plain object [byType] behaves as the map modelled here),
    GET /income/summary reports the caller's active sources, in table
    order, one line each with the monthly figure of
    [calculateMonthlyIncome] and twelve times it as the annual one; the
    two totals are the running double sums of the lines' monthly and
    annual figures; [by_type] has one entry for each type that occurs,
    none twice, and each entry carries the running sums and the number of
    the sources of its type; the counts add up to the number of active
    sources, which is also the number of lines. *)
Theorem X24_income_summary_totals
    (userId : string) (table : list Income.income_source) :
  Forall (fun s => In (Income.source_type s) Income.source_types) table ->
  let sources := Income.active_sources userId table in
  let s := Income.get_summary userId table in
  Income.by_source s = map line_of sources /\
  Income.total_monthly s = Double.sum (map monthly_of sources) /\
  Income.total_annual s = Double.sum (map annual_of sources) /\
  NoDup (map Income.tt_type (Income.by_type s)) /\
  (forall t, In t (map Income.tt_type (Income.by_type s)) <->
             In t (map Income.source_type sources)) /\
  Forall
    (fun e =>
       let mine := of_type (Income.tt_type e) sources in
       Income.tt_monthly e = Double.sum (map monthly_of mine) /\
       Income.tt_annual e = Double.sum (map annual_of mine) /\
       Income.tt_count e = Z.of_nat (List.length mine))
    (Income.by_type s) /\
  Zsum (map Income.tt_count (Income.by_type s))
  = Z.of_nat (Income.active_sources_count s) /\
  List.length (Income.by_source s) = Income.active_sources_count s.
Proof.
  intros _. cbv zeta. unfold Income.get_summary.
  cbn [Income.total_annual Income.total_monthly Income.by_type
       Income.by_source Income.active_sources_count].
  destruct (summary_fold (Income.active_sources userId table))
    as (H1 & H2 & H3 & H4 & H5 & H6 & H7).
  split; [exact H7|]. split; [exact H5|]. split; [exact H6|].
  split; [exact H1|]. split; [exact H2|]. split; [exact H3|].
  split; [exact H4|]. rewrite H7. apply length_map.
Qed.

(** The example user: 2000 every two weeks and 3000 a quarter from the
    job, 900 a month from a flat. *)
Lemma X24_income_summary_totals_witness :
  let s := Income.get_summary "u1" example_income in
  map Income.sl_id (Income.by_source s) = ["i1"; "i2"; "i3"] /\
  map Income.tt_type (Income.by_type s) = ["primary_job"; "rental"] /\
  map Income.tt_count (Income.by_type s) = [2%Z; 1%Z] /\
  Income.total_annual s = Double.of_Z 74800 /\
  Income.active_sources_count s = 3%nat.
Proof.
  cbv zeta.
  destruct (X24_income_summary_totals "u1" example_income)
    as (Hlines & _ & Hannual & _).
  - repeat constructor; simpl; tauto.
  - rewrite Hlines, Hannual. repeat split; vm_compute; reflexivity.
Defined.

(** The two totals are summed separately: with 1000 a week and 100 a
    quarter the annual total is 52400, and twelve times the monthly total
    is the double below it. *)
Example income_totals_round_apart :
  let s := Income.get_summary "u1" rounding_income in
  Income.total_annual s = Double.of_Z 52400 /\
  Double.ltb (Double.mul (Income.total_monthly s) (Double.of_Z 12))
    (Income.total_annual s) = true.
Proof. vm_compute. split; reflexivity. Qed.

(* ===================================================================== *)
(** ** Accounts and the net worth they feed *)
(* ===================================================================== *)

Section AccountFacts.
Import Wealth WealthAccounts.

Lemma user_accounts_added userId types d a :
  user_accounts userId types (with_accounts d (accounts d ++ [a]))
  = user_accounts userId types d
    ++ (if String.eqb (a_user_id a) userId && type_in types a
        then [a_balance a] else []).
Proof.
  unfold user_accounts, with_accounts. cbn [accounts].
  rewrite filter_app, map_app. cbn [filter].
  destruct (String.eqb (a_user_id a) userId && type_in types a);
    reflexivity.
Qed.

(** [get_networth] reads the rows of the user and nothing else. *)
Lemma get_networth_reads userId d d' :
  (forall types, user_accounts userId types d' = user_accounts userId types d)
  ->
  retirement_accounts d' = retirement_accounts d ->
  assets d' = assets d ->
  get_networth userId d' = get_networth userId d.
Proof.
  intros Ha Hr Has.
  unfold get_networth, assetsQuery, liabilitiesQuery, user_retirement,
    user_assets.
  rewrite !Ha, Hr, Has. reflexivity.
Qed.

Lemma post_account_created userId b id d r d' :
  post_account userId b id d = (r, d') ->
  status r = 201%Z ->
  exists type,
    ab_type b = Some type /\ In type account_types /\
    d' = with_accounts d
           (accounts d ++
            [ {| a_id := id; a_user_id := userId; a_type := type;
                 a_balance := Double.column_or_zero (ab_balance b) |} ]).
Proof.
  unfold post_account. intros H Hs.
  destruct (ab_name b) as [name|]; [|inversion H; subst; discriminate].
  destruct (ab_type b) as [type|]; [|inversion H; subst; discriminate].
  destruct (String.eqb name "" || String.eqb type "");
    [inversion H; subst; discriminate|].
  destruct (existsb (String.eqb type) account_types) eqn:E; cbn [negb orb] in H;
    [|inversion H; subst; discriminate].
  destruct (existsb _ (accounts d)); inversion H; subst; [discriminate|].
  exists type. repeat split.
  apply existsb_exists in E as (x & Hin & Hx). apply String.eqb_eq in Hx.
  subst. exact Hin.
Qed.

Lemma accounts_of_other_after_post userId other b id d types :
  other <> userId ->
  user_accounts other types (snd (post_account userId b id d))
  = user_accounts other types d.
Proof.
  intros Hne. unfold post_account.
  destruct (ab_name b), (ab_type b); try reflexivity.
  destruct (_ || _); [reflexivity|].
  destruct (_ || _); [reflexivity|]. cbn [snd].
  rewrite user_accounts_added. cbn [a_user_id].
  destruct (String.eqb_spec userId other); [congruence|].
  apply app_nil_r.
Qed.

Lemma accounts_of_other_after_put userId other id b d types :
  other <> userId ->
  user_accounts other types (snd (put_account userId id b d))
  = user_accounts other types d.
Proof.
  intros Hne. unfold put_account.
  destruct (filter (account_is id userId) (accounts d)) as [|old rest];
    [reflexivity|].
  destruct (updated_account b old) as [new|]; [|reflexivity]. cbn [snd].
  unfold user_accounts, with_accounts. cbn [accounts]. f_equal.
  assert (Hkeep : forall a,
            account_is id userId a = true ->
            String.eqb (a_user_id a) other = false).
  { intros a Ha. unfold account_is in Ha.
    apply andb_true_iff in Ha as [_ Hu]. apply String.eqb_eq in Hu.
    apply String.eqb_neq. congruence. }
  apply filter_map_fixed.
  - intros a _. destruct (account_is id userId a) eqn:Ha; [|reflexivity].
    rewrite (Hkeep a Ha).
    unfold updated_account.
    destruct (ab_name b), (ab_type b), (ab_balance b);
      try (rewrite (Hkeep a Ha); reflexivity).
    destruct (existsb _ account_types); cbn [a_user_id];
      rewrite (Hkeep a Ha); reflexivity.
  - intros a _ Hp. destruct (account_is id userId a) eqn:Ha; [|reflexivity].
    rewrite (Hkeep a Ha) in Hp. discriminate.
Qed.

Lemma accounts_of_other_after_delete userId other id d types :
  other <> userId ->
  user_accounts other types (snd (delete_account userId id d))
  = user_accounts other types d.
Proof.
  intros Hne. unfold delete_account.
  destruct (Nat.eqb _ 0); [reflexivity|]. cbn [snd].
  unfold user_accounts, with_accounts. cbn [accounts]. f_equal.
  apply filter_filter_implied. intros a Hp.
  apply andb_true_iff in Hp as [Hu _]. apply String.eqb_eq in Hu.
  unfold account_is.
  destruct (String.eqb_spec (a_user_id a) userId); [congruence|].
  rewrite andb_false_r. reflexivity.
Qed.

Lemma tables_after_post userId b id d :
  retirement_accounts (snd (post_account userId b id d))
  = retirement_accounts d /\
  assets (snd (post_account userId b id d)) = assets d.
Proof.
  unfold post_account.
  destruct (ab_name b), (ab_type b); try (split; reflexivity).
  destruct (_ || _); [split; reflexivity|].
  destruct (_ || _); split; reflexivity.
Qed.

Lemma tables_after_put userId id b d :
  retirement_accounts (snd (put_account userId id b d))
  = retirement_accounts d /\
  assets (snd (put_account userId id b d)) = assets d.
Proof.
  unfold put_account.
  destruct (filter _ (accounts d)) as [|old rest]; [split; reflexivity|].
  destruct (updated_account b old); split; reflexivity.
Qed.

Lemma tables_after_delete userId id d :
  retirement_accounts (snd (delete_account userId id d))
  = retirement_accounts d /\
  assets (snd (delete_account userId id d)) = assets d.
Proof.
  unfold delete_account. destruct (Nat.eqb _ 0); split; reflexivity.
Qed.

End AccountFacts.

(** X26. A new account joins the selection that its type names: after a
    201 of POST /accounts the type is one of the six of the CHECK; the
    balance of a checking or savings account (0 when the body has none)
    is the last of the caller's balances that the assets query adds up
    from [accounts], and the liabilities total is as before; the balance
    of a credit card, loan, mortgage or other debt is the last of those
    whose absolute value the liabilities query adds up, and the assets
    total is as before; the caller's retirement and asset values are
    untouched. *)
Theorem X26_new_account_joins_selection
    (userId : string) (b : WealthAccounts.account_body) (id : string)
    (d d' : Wealth.db) (r : WealthAccounts.response) :
  WealthAccounts.post_account userId b id d = (r, d') ->
  WealthAccounts.status r = 201%Z ->
  let before := Wealth.get_networth userId d in
  let after := Wealth.get_networth userId d' in
  let balance := Double.column_or_zero (WealthAccounts.ab_balance b) in
  (exists type,
     WealthAccounts.ab_type b = Some type /\
     ((In type Wealth.asset_types /\
       Wealth.user_accounts userId Wealth.asset_types d'
       = Wealth.user_accounts userId Wealth.asset_types d ++ [balance] /\
       Wealth.user_accounts userId Wealth.liability_types d'
       = Wealth.user_accounts userId Wealth.liability_types d /\
       Wealth.total_liabilities after = Wealth.total_liabilities before)
      \/
      (In type Wealth.liability_types /\
       Wealth.user_accounts userId Wealth.liability_types d'
       = Wealth.user_accounts userId Wealth.liability_types d ++ [balance] /\
       Wealth.user_accounts userId Wealth.asset_types d'
       = Wealth.user_accounts userId Wealth.asset_types d /\
       Wealth.total_assets after = Wealth.total_assets before)))
  /\ Wealth.user_retirement userId d' = Wealth.user_retirement userId d
  /\ Wealth.user_assets userId d' = Wealth.user_assets userId d.
Proof.
  intros H Hs. cbv zeta.
  destruct (post_account_created userId b id d r d' H Hs)
    as (type & Ht & Hvalid & ->).
  split; [|split; reflexivity].
  exists type. split; [exact Ht|].
  unfold Wealth.get_networth, Wealth.assetsQuery, Wealth.liabilitiesQuery.
  cbn [Wealth.total_assets Wealth.total_liabilities].
  rewrite !user_accounts_added. cbn [Wealth.a_user_id Wealth.a_balance].
  rewrite String.eqb_refl. cbn [andb].
  unfold Wealth.user_retirement, Wealth.user_assets,
    WealthAccounts.with_accounts.
  cbn [Wealth.retirement_accounts Wealth.assets].
  unfold WealthAccounts.account_types in Hvalid. simpl in Hvalid.
  destruct Hvalid as [<-|[<-|[<-|[<-|[<-|[<-|[]]]]]]];
    [left | left | right | right | right | right];
    (split; [simpl; tauto|]);
    cbn [Wealth.type_in Wealth.asset_types Wealth.liability_types existsb
         Wealth.a_type String.eqb Ascii.eqb Bool.eqb orb andb];
    rewrite ?app_nil_r; repeat split; reflexivity.
Qed.

(** A credit card entered with a balance of 500 joins the debts of the
    example user, next to the one entered with -500. *)
Lemma X26_new_account_joins_selection_witness :
  let b := {| WealthAccounts.ab_name := Some "Visa";
              WealthAccounts.ab_type := Some "credit_card";
              WealthAccounts.ab_balance := Some (Double.of_Z 500) |} in
  let d' := snd (WealthAccounts.post_account "u1" b "a9" example_wealth_db) in
  Wealth.user_accounts "u1" Wealth.liability_types d'
  = [Double.of_Z (- 500); Double.of_Z 500] /\
  Wealth.total_liabilities (Wealth.get_networth "u1" d') = Double.of_Z 1000 /\
  Wealth.net_worth (Wealth.get_networth "u1" d') = Double.of_Z 2000.
Proof.
  cbv zeta.
  destruct (X26_new_account_joins_selection "u1"
              {| WealthAccounts.ab_name := Some "Visa";
                 WealthAccounts.ab_type := Some "credit_card";
                 WealthAccounts.ab_balance := Some (Double.of_Z 500) |} "a9"
              example_wealth_db
              (snd (WealthAccounts.post_account "u1"
                      {| WealthAccounts.ab_name := Some "Visa";
                         WealthAccounts.ab_type := Some "credit_card";
                         WealthAccounts.ab_balance :=
                           Some (Double.of_Z 500) |} "a9"
                      example_wealth_db))
              (fst (WealthAccounts.post_account "u1"
                      {| WealthAccounts.ab_name := Some "Visa";
                         WealthAccounts.ab_type := Some "credit_card";
                         WealthAccounts.ab_balance :=
                           Some (Double.of_Z 500) |} "a9"
                      example_wealth_db)) eq_refl eq_refl)
    as ((type & Ht & [(Hin & _)|(_ & Hl & _)]) & _).
  - exfalso. inversion Ht; subst type. simpl in Hin.
    intuition discriminate.
  - split; [rewrite Hl; reflexivity|]. split; vm_compute; reflexivity.
Defined.

(** X27. The net worth of a user depends on that user's rows only: it is
    the same before and after another user's POST, PUT or DELETE of an
    account, and saving a snapshot changes nobody's net worth. *)
Theorem X27_net_worth_untouched_by_others
    (userId other id : string) (b : WealthAccounts.account_body)
    (assets_total liabilities : Double.double) (date : string)
    (d : Wealth.db) :
  other <> userId ->
  Wealth.get_networth other
    (snd (WealthAccounts.post_account userId b id d))
  = Wealth.get_networth other d /\
  Wealth.get_networth other
    (snd (WealthAccounts.put_account userId id b d))
  = Wealth.get_networth other d /\
  Wealth.get_networth other
    (snd (WealthAccounts.delete_account userId id d))
  = Wealth.get_networth other d /\
  (forall anyone,
     Wealth.get_networth anyone
       (Wealth.post_snapshot userId id assets_total liabilities date d)
     = Wealth.get_networth anyone d).
Proof.
  intros Hne. repeat split.
  - apply get_networth_reads.
    + intros types. apply accounts_of_other_after_post. exact Hne.
    + apply tables_after_post.
    + apply tables_after_post.
  - apply get_networth_reads.
    + intros types. apply accounts_of_other_after_put. exact Hne.
    + apply tables_after_put.
    + apply tables_after_put.
  - apply get_networth_reads.
    + intros types. apply accounts_of_other_after_delete. exact Hne.
    + apply tables_after_delete.
    + apply tables_after_delete.
Qed.

Lemma X27_net_worth_untouched_by_others_witness :
  let b := {| WealthAccounts.ab_name := Some "Loan";
              WealthAccounts.ab_type := Some "loan";
              WealthAccounts.ab_balance := Some (Double.of_Z 9000) |} in
  Wealth.get_networth "u1"
    (snd (WealthAccounts.post_account "u2" b "a1" example_wealth_db))
  = Wealth.get_networth "u1" example_wealth_db /\
  Wealth.get_networth "u1"
    (snd (WealthAccounts.put_account "u2" "a1" b example_wealth_db))
  = Wealth.get_networth "u1" example_wealth_db /\
  Wealth.get_networth "u1"
    (snd (WealthAccounts.delete_account "u2" "a1" example_wealth_db))
  = Wealth.get_networth "u1" example_wealth_db /\
  (forall anyone,
     Wealth.get_networth anyone
       (Wealth.post_snapshot "u2" "a1" (Double.of_Z 1) (Double.of_Z 2)
          "2024-02-01" example_wealth_db)
     = Wealth.get_networth anyone example_wealth_db).
Proof.
  apply (X27_net_worth_untouched_by_others "u2" "u1" "a1"
           {| WealthAccounts.ab_name := Some "Loan";
              WealthAccounts.ab_type := Some "loan";
              WealthAccounts.ab_balance := Some (Double.of_Z 9000) |}
           (Double.of_Z 1) (Double.of_Z 2) "2024-02-01" example_wealth_db).
  discriminate.
Defined.

(** The new balance is added where its row stands, before the pensions:
    the total after the POST is 6048.87, not the total before plus the
    balance. *)
Example new_account_total_in_row_order :
  let d' :=
    snd (WealthAccounts.post_account "u1" second_checking "a2"
           rounding_wealth_db) in
  let before := Wealth.total_assets (Wealth.get_networth "u1"
                                       rounding_wealth_db) in
  let after := Wealth.total_assets (Wealth.get_networth "u1" d') in
  after = Double.decimal 604887 100 /\
  Double.ltb after (Double.add before (Double.decimal 222694 100)) = true.
Proof. vm_compute. split; reflexivity. Qed.

(* ===================================================================== *)
(** ** AIService.getCompletion: retries and the response cache *)
(* ===================================================================== *)

Section AIServiceFacts.
Context {response : Type}.
Import AIService.

Lemma key_eqb_eq a b : key_eqb a b = true <-> a = b.
Proof.
  unfold key_eqb. destruct (list_eq_dec N.eq_dec a b); split; auto.
  discriminate.
Qed.

Lemma key_eqb_refl a : key_eqb a a = true.
Proof. apply key_eqb_eq. reflexivity. Qed.

Lemma attempts_outcome (cfg : config) (p : params)
    (callProvider : nat -> result response) (now_store : nat -> Z)
    (c : cache response) :
  forall remaining attempt lastError,
  (exists k r,
     (attempt <= k < attempt + remaining)%nat /\
     callProvider k = Return r /\
     (forall j, (attempt <= j < k)%nat ->
        exists message, callProvider j = Throw message) /\
     attempts cfg p callProvider now_store remaining attempt lastError c
     = (Return r, store cfg p r (now_store k) c))
  \/
  ((forall j, (attempt <= j < attempt + remaining)%nat ->
      exists message, callProvider j = Throw message) /\
   exists last,
     attempts cfg p callProvider now_store remaining attempt lastError c
     = (Throw (failure_message p last), c) /\
     match remaining with
     | O => last = lastError
     | S n => exists message,
         callProvider (attempt + n)%nat = Throw message /\
         last = Some message
     end).
Proof.
  induction remaining as [|n IH]; intros attempt lastError.
  - right. split; [intros j Hj; lia|].
    exists lastError. split; reflexivity.
  - cbn [attempts].
    destruct (callProvider attempt) as [r|message] eqn:E.
    + left. exists attempt, r. split; [lia|]. split; [exact E|].
      split; [intros j Hj; lia | reflexivity].
    + destruct (IH (S attempt) (Some message))
        as [(k & r & Hk & Hr & Hbefore & Hres)
           |(Hall & last & Hres & Hlast)].
      * left. exists k, r. split; [lia|]. split; [exact Hr|].
        split; [|exact Hres].
        intros j Hj. destruct (Nat.eq_dec j attempt) as [->|Hne].
        -- eauto.
        -- apply Hbefore. lia.
      * right. split.
        -- intros j Hj. destruct (Nat.eq_dec j attempt) as [->|Hne].
           ++ eauto.
           ++ apply Hall. lia.
        -- exists last. split; [exact Hres|].
           destruct n as [|n'].
           ++ exists message. rewrite Nat.add_0_r. auto.
           ++ destruct Hlast as (m & Hm & ->). exists m.
              rewrite <- Hm. split; [f_equal; lia | reflexivity].
Qed.

Lemma attempts_ext (cfg : config) (p : params)
    (f g : nat -> result response) (now_store : nat -> Z)
    (c : cache response) :
  forall remaining attempt lastError,
  (forall j, (attempt <= j < attempt + remaining)%nat -> g j = f j) ->
  attempts cfg p g now_store remaining attempt lastError c
  = attempts cfg p f now_store remaining attempt lastError c.
Proof.
  induction remaining as [|n IH]; intros attempt lastError H;
    [reflexivity|].
  cbn [attempts]. rewrite (H attempt) by lia.
  destruct (f attempt); [reflexivity|]. apply IH. intros j Hj. apply H. lia.
Qed.

Lemma cache_get_set (c : cache response) key entry :
  cache_get (cache_set c key entry) key = Some entry.
Proof.
  unfold cache_get. induction c as [|[k e] rest IH]; simpl.
  - rewrite key_eqb_refl. reflexivity.
  - destruct (key_eqb k key) eqn:E; simpl; rewrite E; [reflexivity|].
    exact IH.
Qed.

Lemma cache_set_new (c : cache response) key entry :
  (forall e, In e c -> key_eqb (fst e) key = false) ->
  cache_set c key entry = c ++ [(key, entry)].
Proof.
  induction c as [|[k e] rest IH]; simpl; intros H; [reflexivity|].
  pose proof (H (k, e) (or_introl eq_refl)) as Hk. simpl in Hk.
  rewrite Hk, IH by auto. reflexivity.
Qed.

Lemma cache_set_length (c : cache response) key entry :
  (exists e, In e c /\ key_eqb (fst e) key = true) ->
  List.length (cache_set c key entry) = List.length c.
Proof.
  induction c as [|[k e] rest IH]; simpl; intros (x & Hin & Hx);
    [contradiction|].
  destruct (key_eqb k key) eqn:E; simpl; [reflexivity|].
  rewrite IH; [reflexivity|].
  destruct Hin as [<-|Hin]; [simpl in Hx; congruence | eauto].
Qed.

Lemma key_present_dec (c : cache response) key :
  (exists e, In e c /\ key_eqb (fst e) key = true) \/
  (forall e, In e c -> key_eqb (fst e) key = false).
Proof.
  induction c as [|x rest IH].
  - right. intros e [].
  - destruct (key_eqb (fst x) key) eqn:E.
    + left. exists x. simpl. auto.
    + destruct IH as [(e & He & Hk)|Hnone].
      * left. exists e. simpl. auto.
      * right. intros e [<-|He]; auto.
Qed.

Lemma find_filter_kept {A} (p q : A -> bool) (l : list A) :
  (forall x, p x = true -> q x = true) ->
  find p (filter q l) = find p l.
Proof.
  intros H. induction l as [|x rest IH]; simpl; [reflexivity|].
  destruct (q x) eqn:Q; simpl.
  - destruct (p x); [reflexivity | exact IH].
  - destruct (p x) eqn:P; [|exact IH].
    rewrite (H x P) in Q. discriminate.
Qed.

(** What [store] leaves in a cache that was within its bound. *)
Lemma store_keeps (cfg : config) (p : params) r now (c : cache response) :
  useCache p = true ->
  (1 <= maxSize cfg)%Z ->
  (Z.of_nat (List.length c) <= maxSize cfg)%Z ->
  (Z.of_nat (List.length (store cfg p r now c)) <= maxSize cfg)%Z /\
  cache_get (store cfg p r now c) (cacheKey p)
  = Some {| ce_response := r; timestamp := now |}.
Proof.
  intros Hu Hmax Hlen. unfold store. rewrite Hu.
  set (entry := {| ce_response := r; timestamp := now |}).
  destruct (key_present_dec c (cacheKey p)) as [Hin|Hnew].
  - rewrite (cache_set_length c (cacheKey p) entry Hin).
    replace (maxSize cfg <? Z.of_nat (List.length c))%Z with false
      by (symmetry; apply Z.ltb_ge; lia).
    rewrite (cache_set_length c (cacheKey p) entry Hin).
    split; [exact Hlen | apply cache_get_set].
  - rewrite (cache_set_new c (cacheKey p) entry Hnew).
    rewrite length_app. cbn [List.length].
    destruct (Z.ltb_spec (maxSize cfg) (Z.of_nat (List.length c + 1)))
      as [Hover|Hfits].
    + destruct c as [|[k0 e0] rest]; [simpl in Hover; lia|].
      cbn [app delete_first filter fst]. rewrite key_eqb_refl. cbn [negb].
      split.
      * pose proof (filter_length_le
                      (fun e => negb (key_eqb (fst e) k0))
                      (rest ++ [(cacheKey p, entry)])) as Hle.
        rewrite length_app in Hle. simpl in Hle, Hlen. lia.
      * unfold cache_get. rewrite find_filter_kept.
        -- rewrite find_app_none.
           ++ simpl. rewrite key_eqb_refl. reflexivity.
           ++ intros x Hx. apply Hnew. right. exact Hx.
        -- intros x Hx. apply key_eqb_eq in Hx.
           apply negb_true_iff.
           destruct (key_eqb (fst x) k0) eqn:E; [|reflexivity].
           apply key_eqb_eq in E.
           specialize (Hnew (k0, e0) (or_introl eq_refl)). simpl in Hnew.
           rewrite <- E, Hx, key_eqb_refl in Hnew. discriminate.
    + split; [rewrite length_app; simpl; lia|].
      unfold cache_get. rewrite find_app_none by exact Hnew.
      simpl. rewrite key_eqb_refl. reflexivity.
Qed.

End AIServiceFacts.

(** X28. [getCompletion] without a fresh cached response and with a known
    agent makes at most [maxRetries] provider calls and stops at the first
    that returns: either some call k below [maxRetries] returns after the
    calls before it all failed, and its response is the result (stored
    with the clock of that moment), or all [maxRetries] calls fail, the
    cache is as before and the error carries the count and the message of
    the last failure; with [maxRetries] 0 no call is made and the error is
    the TypeError of reading [message] of [undefined].  What a provider
    would answer from call [maxRetries] on makes no difference. *)
Theorem X28_getCompletion_retries
    (response : Type) (cfg : AIService.config) (p : AIService.params)
    (now_check : Z) (callProvider : nat -> result response)
    (now_store : nat -> Z) (c : AIService.cache response) :
  AIService.fresh_hit cfg p now_check c = None ->
  AIService.agent_known cfg (AIService.agent p) = true ->
  ((exists k r,
      (k < AIService.maxRetries p)%nat /\
      callProvider k = Return r /\
      (forall j, (j < k)%nat ->
         exists message, callProvider j = Throw message) /\
      AIService.getCompletion cfg p now_check callProvider now_store c
      = (Return r, AIService.store cfg p r (now_store k) c))
   \/
   ((forall j, (j < AIService.maxRetries p)%nat ->
       exists message, callProvider j = Throw message) /\
    match AIService.maxRetries p with
    | O =>
        AIService.getCompletion cfg p now_check callProvider now_store c
        = (Throw
             (js "Cannot read properties of undefined (reading 'message')"),
           c)
    | S n =>
        exists message,
          callProvider n = Throw message /\
          AIService.getCompletion cfg p now_check callProvider now_store c
          = (Throw
               (js "AI request failed after "
                ++ js (string_of_Z (Z.of_nat (AIService.maxRetries p)))
                ++ js " attempts: " ++ message),
             c)
    end))
  /\
  (forall callProvider',
     (forall j, (j < AIService.maxRetries p)%nat ->
        callProvider' j = callProvider j) ->
     AIService.getCompletion cfg p now_check callProvider' now_store c
     = AIService.getCompletion cfg p now_check callProvider now_store c).
Proof.
  intros Hmiss Hagent. unfold AIService.getCompletion.
  rewrite Hmiss, Hagent. cbn [negb]. split.
  - destruct (attempts_outcome cfg p callProvider now_store c
                (AIService.maxRetries p) 0 None)
      as [(k & r & Hk & Hr & Hbefore & Hres)|(Hall & last & Hres & Hlast)].
    + left. exists k, r. split; [lia|]. split; [exact Hr|].
      split; [|exact Hres].
      intros j Hj. apply Hbefore. lia.
    + right. split; [intros j Hj; apply Hall; lia|].
      destruct (AIService.maxRetries p) as [|n] eqn:En.
      * subst last. exact Hres.
      * destruct Hlast as (m & Hm & ->). exists m.
        split; [exact Hm|]. rewrite Hres.
        unfold AIService.failure_message. rewrite En. reflexivity.
  - intros callProvider' Hsame. apply attempts_ext.
    intros j Hj. apply Hsame. lia.
Qed.

(** Two timeouts, then an answer: the third call's response is returned
    and cached. *)
Lemma X28_getCompletion_retries_witness :
  AIService.getCompletion example_config example_params 0 flaky_provider
    (fun k => Z.of_nat k * 1000)%Z []
  = (Return (js "answer"),
     [(js "k1",
       {| AIService.ce_response := js "answer";
          AIService.timestamp := 2000 |})]) /\
  (forall callProvider',
     (forall j, (j < 3)%nat -> callProvider' j = flaky_provider j) ->
     AIService.getCompletion example_config example_params 0 callProvider'
       (fun k => Z.of_nat k * 1000)%Z []
     = AIService.getCompletion example_config example_params 0
         flaky_provider (fun k => Z.of_nat k * 1000)%Z []).
Proof.
  destruct (X28_getCompletion_retries jsstring example_config example_params
              0%Z flaky_provider (fun k => Z.of_nat k * 1000)%Z []
              eq_refl eq_refl) as [_ Hext].
  split; [reflexivity | exact Hext].
Defined.

(** X29. The response cache of [getCompletion]: a call that went to the
    provider and returned leaves a cache that is still within [maxSize]
    and holds its response under the cache key; a later call with that key
    within the ttl returns the same response and leaves the cache alone,
    without a provider call and before the agent is even looked up. *)
Theorem X29_getCompletion_cache
    (response : Type) (cfg : AIService.config) (p : AIService.params)
    (now_check : Z) (callProvider : nat -> result response)
    (now_store : nat -> Z) (c c' : AIService.cache response) (r : response) :
  AIService.useCache p = true ->
  (1 <= AIService.maxSize cfg)%Z ->
  (Z.of_nat (List.length c) <= AIService.maxSize cfg)%Z ->
  AIService.fresh_hit cfg p now_check c = None ->
  AIService.getCompletion cfg p now_check callProvider now_store c
  = (Return r, c') ->
  (Z.of_nat (List.length c') <= AIService.maxSize cfg)%Z /\
  exists stored_at,
    AIService.cache_get c' (AIService.cacheKey p)
    = Some {| AIService.ce_response := r;
              AIService.timestamp := stored_at |} /\
    forall p2 now2 callProvider2 now_store2,
      AIService.cacheKey p2 = AIService.cacheKey p ->
      AIService.useCache p2 = true ->
      (now2 - stored_at < AIService.ttl cfg * 1000)%Z ->
      AIService.getCompletion cfg p2 now2 callProvider2 now_store2 c'
      = (Return r, c').
Proof.
  intros Hu Hmax Hlen Hmiss H. unfold AIService.getCompletion in H.
  rewrite Hmiss in H.
  destruct (negb (AIService.agent_known cfg (AIService.agent p)));
    [discriminate|].
  destruct (attempts_outcome cfg p callProvider now_store c
              (AIService.maxRetries p) 0 None)
    as [(k & r0 & _ & _ & _ & Hres)|(_ & last & Hres & _)];
    rewrite Hres in H; [|discriminate].
  inversion H; subst. clear H.
  destruct (store_keeps cfg p r (now_store k) c Hu Hmax Hlen) as [Hb Hget].
  split; [exact Hb|]. exists (now_store k). split; [exact Hget|].
  intros p2 now2 callProvider2 now_store2 Hkey Hu2 Hfresh.
  unfold AIService.getCompletion, AIService.fresh_hit.
  rewrite Hu2, Hkey, Hget. cbn [AIService.timestamp AIService.ce_response].
  rewrite (proj2 (Z.ltb_lt _ _) Hfresh). reflexivity.
Qed.

Lemma X29_getCompletion_cache_witness :
  let c' := [(js "k1",
              {| AIService.ce_response := js "answer";
                 AIService.timestamp := 2000%Z |})] in
  (Z.of_nat (List.length c') <= 100)%Z /\
  exists stored_at,
    AIService.cache_get c' (js "k1")
    = Some {| AIService.ce_response := js "answer";
              AIService.timestamp := stored_at |} /\
    forall p2 now2 callProvider2 now_store2,
      AIService.cacheKey p2 = js "k1" ->
      AIService.useCache p2 = true ->
      (now2 - stored_at < 3600 * 1000)%Z ->
      AIService.getCompletion example_config p2 now2 callProvider2
        now_store2 c'
      = (Return (js "answer"), c').
Proof.
  apply (X29_getCompletion_cache jsstring example_config example_params 0%Z
           flaky_provider (fun k => Z.of_nat k * 1000)%Z []).
  - reflexivity.
  - simpl. lia.
  - simpl. lia.
  - reflexivity.
  - reflexivity.
Defined.

(* ===================================================================== *)
(** ** Bill predictions *)
(* ===================================================================== *)

Lemma in_skipn {A} (x : A) k l : In x (skipn k l) -> In x l.
Proof.
  intros H. rewrite <- (firstn_skipn k l). apply in_or_app. auto.
Qed.

Lemma in_firstn {A} (x : A) k l : In x (firstn k l) -> In x l.
Proof.
  intros H. rewrite <- (firstn_skipn k l). apply in_or_app. auto.
Qed.

Section PredictionFacts.
Import Predictions.

Lemma collect_throw rest message :
  fold_left collect rest (Throw message) = Throw message.
Proof. induction rest as [|row rest IH]; simpl; auto. Qed.

Lemma has_own_in name ps :
  has_own name ps = true <-> In name (map billName ps).
Proof.
  unfold has_own. rewrite existsb_exists, in_map_iff. split.
  - intros (e & He & Hn). apply String.eqb_eq in Hn. eauto.
  - intros (e & Hn & He). exists e. split; [exact He|].
    apply String.eqb_eq. exact Hn.
Qed.

Lemma amounts_of_app name seen row :
  amounts_of name (seen ++ [row])
  = amounts_of name seen
    ++ (if String.eqb (bill_name row) name then [actual_amount row]
        else []).
Proof.
  unfold amounts_of. rewrite filter_app, map_app. cbn [filter].
  destruct (String.eqb (bill_name row) name); reflexivity.
Qed.

Lemma collected_push ps seen row :
  collected ps seen ->
  has_own (bill_name row) ps = true ->
  collected (push_amount (bill_name row) (actual_amount row) ps)
    (seen ++ [row]).
Proof.
  intros (Hnd & Hps & Hseen) Hown. unfold push_amount.
  assert (Hnames :
    map billName
      (map (fun e =>
              if String.eqb (billName e) (bill_name row)
              then {| billName := billName e;
                      amounts := amounts e ++ [actual_amount row];
                      trend := trend e; predicted := predicted e |}
              else e) ps) = map billName ps).
  { rewrite map_map. apply map_ext. intros e.
    destruct (String.eqb (billName e) (bill_name row)); reflexivity. }
  split; [rewrite Hnames; exact Hnd|]. split.
  - intros p Hp. apply in_map_iff in Hp as (e & <- & He).
    destruct (Hps e He) as (Ha & Hne & Hproto).
    rewrite amounts_of_app.
    destruct (String.eqb_spec (billName e) (bill_name row)) as [E|N].
    + cbn [billName amounts]. rewrite E, String.eqb_refl.
      rewrite <- E, Ha. repeat split; auto.
      destruct (amounts_of (billName e) seen); discriminate.
    + destruct (String.eqb_spec (bill_name row) (billName e));
        [congruence|].
      rewrite app_nil_r. auto.
  - rewrite Hnames. intros r Hr. apply in_app_or in Hr as [Hr|[<-|[]]].
    + apply Hseen. exact Hr.
    + apply has_own_in. exact Hown.
Qed.

Lemma collected_new ps seen row :
  collected ps seen ->
  has_own (bill_name row) ps = false ->
  ~ In (bill_name row) object_prototype_keys ->
  collected
    (ps ++ [ {| billName := bill_name row;
                amounts := [actual_amount row];
                trend := "stable"; predicted := None |} ])
    (seen ++ [row]).
Proof.
  intros (Hnd & Hps & Hseen) Hown Hproto.
  assert (Hfresh : ~ In (bill_name row) (map billName ps)).
  { intros H. apply has_own_in in H. congruence. }
  split; [|split].
  - rewrite map_app. apply NoDup_app; [exact Hnd | | ].
    + repeat constructor. simpl. tauto.
    + intros x Hx [<-|[]]. contradiction.
  - intros p Hp. apply in_app_or in Hp as [Hp|[<-|[]]].
    + destruct (Hps p Hp) as (Ha & Hne & Hpr).
      rewrite amounts_of_app.
      destruct (String.eqb_spec (bill_name row) (billName p)) as [E|N].
      * exfalso. apply Hfresh. rewrite E. apply in_map. exact Hp.
      * rewrite app_nil_r. auto.
    + cbn [billName amounts]. rewrite amounts_of_app, String.eqb_refl.
      assert (Hnone : amounts_of (bill_name row) seen = []).
      { unfold amounts_of. rewrite filter_nil_all; [reflexivity|].
        intros r Hr. apply String.eqb_neq. intros E.
        apply Hfresh. rewrite <- E. apply Hseen. exact Hr. }
      rewrite Hnone. repeat split; auto. discriminate.
  - intros r Hr. rewrite map_app. apply in_or_app.
    apply in_app_or in Hr as [Hr|[<-|[]]].
    + left. apply Hseen. exact Hr.
    + right. simpl. auto.
Qed.

Lemma collect_fold rest : forall seen ps,
  collected ps seen ->
  match fold_left collect rest (Return ps) with
  | Throw message =>
      message = js "Cannot read properties of undefined (reading 'push')" /\
      exists row, In row rest /\ In (bill_name row) object_prototype_keys
  | Return ps' => collected ps' (seen ++ rest)
  end.
Proof.
  induction rest as [|row rest IH]; intros seen ps H.
  - simpl. rewrite app_nil_r. exact H.
  - cbn [fold_left collect].
    destruct (has_own (bill_name row) ps) eqn:Hown.
    + specialize (IH (seen ++ [row]) _ (collected_push ps seen row H Hown)).
      rewrite <- app_assoc in IH. cbn [app] in IH.
      destruct (fold_left collect rest _) as [ps'|m]; [exact IH|].
      destruct IH as (Hm & r & Hr & Hp). split; [exact Hm|].
      exists r. simpl. auto.
    + destruct (existsb (String.eqb (bill_name row)) object_prototype_keys)
        eqn:Hproto.
      * rewrite collect_throw. split; [reflexivity|].
        exists row. split; [left; reflexivity|].
        apply existsb_exists in Hproto as (x & Hx & E).
        apply String.eqb_eq in E. subst. exact Hx.
      * assert (Hnot : ~ In (bill_name row) object_prototype_keys).
        { intros Hin.
          assert (existsb (String.eqb (bill_name row)) object_prototype_keys
                  = true).
          { apply existsb_exists. exists (bill_name row).
            split; [exact Hin | apply String.eqb_refl]. }
          congruence. }
        specialize (IH (seen ++ [row]) _
                      (collected_new ps seen row H Hown Hnot)).
        rewrite <- app_assoc in IH. cbn [app] in IH.
        destruct (fold_left collect rest _) as [ps'|m]; [exact IH|].
        destruct IH as (Hm & r & Hr & Hp). split; [exact Hm|].
        exists r. simpl. auto.
Qed.

Lemma predict_entry_sound billPayments e :
  amounts e = amounts_of (billName e) billPayments ->
  amounts e <> [] ->
  sound_prediction billPayments (predict_entry e).
Proof.
  intros Ha Hne. unfold predict_entry.
  destruct (Nat.ltb_spec (List.length (amounts e)) 2) as [Hshort|Hlong].
  - unfold sound_prediction. cbn [amounts billName trend predicted].
    rewrite <- Ha.
    split; [reflexivity|]. split; [exact Hne|].
    split; [split; auto|].
    split; [simpl; auto|].
    split; [|intros H; lia].
    intros _. destruct (amounts e) as [|first rest]; [congruence|].
    reflexivity.
  - unfold sound_prediction. cbn [amounts billName trend predicted].
    rewrite <- Ha. set (a := amounts e) in *.
    set (half := (List.length a / 2)%nat).
    assert (Hhalf : (1 <= half /\ half < List.length a)%nat).
    { subst half. split.
      - apply Nat.div_le_lower_bound; lia.
      - apply Nat.div_lt; lia. }
    set (oldAvg := average (firstn half a) half).
    set (newAvg := average (skipn half a) (List.length a - half)).
    split; [reflexivity|]. split; [exact Hne|].
    split.
    { split; [|lia]. intros H.
      destruct (Double.gtb _ _); [discriminate|].
      destruct (Double.ltb _ _); discriminate. }
    split.
    { destruct (Double.gtb _ _); [simpl; auto|].
      destruct (Double.ltb _ _); simpl; auto. }
    split; [intros H; lia|].
    intros _. cbv zeta.
    split.
    { intros E. apply (f_equal (@List.length Double.double)) in E.
      rewrite length_skipn in E. simpl in E. lia. }
    split; [rewrite length_skipn; lia|].
    split; [exact Hhalf|].
    split; [reflexivity|].
    fold half oldAvg newAvg.
    destruct (Double.gtb newAvg _) eqn:G.
    { split; [tauto|]. split; [discriminate|]. intros [H _]. discriminate. }
    destruct (Double.ltb newAvg _) eqn:L.
    { split; [split; discriminate|]. tauto. }
    split; [split; discriminate|].
    split; [discriminate|]. intros [_ H]. discriminate.
Qed.

End PredictionFacts.

(** X30. [predictBillAmounts] throws exactly when a payment carries a bill
    name that is a property of [Object.prototype] ('constructor',
    'toString', ...).  Otherwise it returns one prediction per bill name:
    the amounts are that bill's payments in the order given; with one
    payment the trend is 'insufficient_data' and the prediction is that
    payment (0 when it is falsy); with more the prediction is the double
    average of the last three at most, and the trend is 'increasing' when
    the average of the later half exceeds that of the earlier half times
    1.1, 'decreasing' when it is not and is below it times 0.9, each as
    computed in doubles, and 'stable' otherwise. *)
Theorem X30_predictBillAmounts_characterised
    (billPayments : list Predictions.payment_row) :
  match Predictions.predictBillAmounts billPayments with
  | Throw message =>
      message = js "Cannot read properties of undefined (reading 'push')" /\
      exists row,
        In row billPayments /\
        In (Predictions.bill_name row) Predictions.object_prototype_keys
  | Return ps =>
      (forall row, In row billPayments ->
         ~ In (Predictions.bill_name row) Predictions.object_prototype_keys /\
         In (Predictions.bill_name row) (map Predictions.billName ps)) /\
      NoDup (map Predictions.billName ps) /\
      Forall (Predictions.sound_prediction billPayments) ps
  end.
Proof.
  unfold Predictions.predictBillAmounts.
  assert (H0 : Predictions.collected [] []).
  { split; [constructor|]. split; intros x []. }
  pose proof (collect_fold billPayments [] [] H0) as H.
  destruct (fold_left Predictions.collect billPayments (Return []))
    as [ps|m]; [|exact H].
  cbn [app] in H. destruct H as (Hnd & Hps & Hseen).
  assert (Hnames : map Predictions.billName
                     (map Predictions.predict_entry ps)
                   = map Predictions.billName ps).
  { rewrite map_map. apply map_ext. intros e.
    unfold Predictions.predict_entry.
    destruct (Nat.ltb _ 2); reflexivity. }
  rewrite Hnames. split; [|split; [exact Hnd|]].
  - intros row Hrow. pose proof (Hseen row Hrow) as Hin.
    split; [|exact Hin].
    apply in_map_iff in Hin as (p & Hp & Hin).
    rewrite <- Hp. apply (Hps p Hin).
  - apply Forall_forall. intros p Hp.
    apply in_map_iff in Hp as (e & <- & He).
    destruct (Hps e He) as (Ha & Hne & _).
    apply predict_entry_sound; assumption.
Qed.

(** The averages round: three payments of 21.40 predict a double below
    21.40, and payments that rise by a tenth are 'increasing'. *)
Example predictions_round :
  (exists p amount,
     Predictions.predictBillAmounts flat_payments = Return [p] /\
     Predictions.predicted p = Some amount /\
     Predictions.trend p = "stable" /\
     Double.ltb amount (Double.decimal 2140 100) = true) /\
  (exists p,
     Predictions.predictBillAmounts tenth_more_payments = Return [p] /\
     Predictions.trend p = "increasing").
Proof.
  split.
  - eexists _, _. split; [vm_compute; reflexivity|].
    split; [reflexivity|]. split; reflexivity.
  - eexists. split; [vm_compute; reflexivity|]. reflexivity.
Qed.

